(** * Pre-Delinquency Intervention Engine: scoring, attribution, intervention
      and capacity-aware impact simulation (app.py)

    The development embeds the analytical core of [app.py] and states the
    properties of its specification over that embedding.

    Numbers.  Counts are [Z].  The integer columns of the data frame are
    int64: they are [Z] as well, and the subtractions that the scorer
    performs on them wrap around (see [int64_sub]).  Python floats are
    modelled by exact rationals [Q]: a real-valued quantity below is the
    value the source expression has in exact arithmetic, and equalities
    between them are stated with [==] (equality of fractions).

    Library routines.  Two results of numerical library routines are compared
    with thresholds: the slope of [np.polyfit] and the standard deviation of
    [Series.std].  The functions that call them take the routine as a
    parameter ([_risk_trend_label_with], [stability_label_with]), so that
    what is proved of the labels holds for the value the routine returns.
    The exact least-squares line [polyfit1] and the exact sample variance
    [sample_var] state what the routines approximate; the square root of the
    variance is taken in the real numbers (see [risk_std]). *)

From Stdlib Require Import ZArith QArith Qminmax Qabs Qround Qreals Reals.
From Stdlib Require Import List String Bool Lia Psatz.
From Stdlib Require Import Sorted Permutation.
Import ListNotations.

Local Open Scope Q_scope.

(** ** Boolean comparisons on rationals, as used by the [if] tests *)

Definition Qltb (x y : Q) : bool := negb (Qle_bool y x).
Definition Qleb (x y : Q) : bool := Qle_bool x y.

(** [Series.sum]: columns are added left to right starting from zero. *)
Definition Qsum (l : list Q) : Q := fold_left Qplus l 0.

(** ** Constants *)

Inductive feature : Type :=
  | salary_delay_days
  | savings_drop_pct
  | discretionary_spend_change_pct
  | utility_payment_delay_days
  | lending_app_upi_txn_count
  | atm_withdrawal_spike_pct
  | failed_autodebit.

Definition feature_eq_dec (f g : feature) : {f = g} + {f <> g}.
Proof. decide equality. Defined.

Definition FEATURES : list feature :=
  [ salary_delay_days;
    savings_drop_pct;
    discretionary_spend_change_pct;
    utility_payment_delay_days;
    lending_app_upi_txn_count;
    atm_withdrawal_spike_pct;
    failed_autodebit ].

Definition WEIGHTS (f : feature) : Q :=
  match f with
  | salary_delay_days => 0.18
  | savings_drop_pct => 0.17
  | discretionary_spend_change_pct => 0.14
  | utility_payment_delay_days => 0.14
  | lending_app_upi_txn_count => 0.12
  | atm_withdrawal_spike_pct => 0.10
  | failed_autodebit => 0.15
  end.

Definition FEATURE_LABELS (f : feature) : string :=
  match f with
  | salary_delay_days => "Salary Delay Days"
  | savings_drop_pct => "Savings Drop %"
  | discretionary_spend_change_pct => "Discretionary Spend Change %"
  | utility_payment_delay_days => "Utility Payment Delay Days"
  | lending_app_upi_txn_count => "Lending-App UPI Txn Count"
  | atm_withdrawal_spike_pct => "ATM Withdrawal Spike %"
  | failed_autodebit => "Failed Autodebit"
  end%string.

(** Position of a signal in [FEATURES] (its declaration order). *)
Definition feature_index (f : feature) : nat :=
  match f with
  | salary_delay_days => 0
  | savings_drop_pct => 1
  | discretionary_spend_change_pct => 2
  | utility_payment_delay_days => 3
  | lending_app_upi_txn_count => 4
  | atm_withdrawal_spike_pct => 5
  | failed_autodebit => 6
  end.

(** ** Risk tiers *)

Inductive tier : Type := Low | Medium | High.

Definition tier_eqb (a b : tier) : bool :=
  match a, b with
  | Low, Low | Medium, Medium | High, High => true
  | _, _ => false
  end.

Definition tier_rank (t : tier) : nat :=
  match t with Low => 0 | Medium => 1 | High => 2 end.

(** The ordinal order Low < Medium < High. *)
Definition tier_le (a b : tier) : Prop := (tier_rank a <= tier_rank b)%nat.

(** ** Risk-scoring helpers *)

Definition _clip (val lo hi : Q) : Q := Qmax lo (Qmin hi val).

(** [np.clip(a, a_min, a_max)] is [minimum(a_max, maximum(a, a_min))]. *)
Definition np_clip (a a_min a_max : Q) : Q := Qmin a_max (Qmax a a_min).

Definition _tier (score : Q) : tier :=
  if Qltb score 0.4 then Low
  else if Qleb score 0.7 then Medium
  else High.

(** One customer-week of raw signals (the seven signal columns of a
    data-frame row, with its key). *)
Record Signal : Type := mkSignal {
  customer_id : string;
  week : Z;
  sig_salary_delay_days : Z;
  sig_savings_drop_pct : Q;
  sig_discretionary_spend_change_pct : Q;
  sig_utility_payment_delay_days : Z;
  sig_lending_app_upi_txn_count : Z;
  sig_atm_withdrawal_spike_pct : Q;
  sig_failed_autodebit : Z
}.

(** The integer columns of the data frame are int64: a subtraction on
    them wraps around in two's complement. *)
Definition int64_wrap (z : Z) : Z :=
  ((z + 9223372036854775808) mod 18446744073709551616
   - 9223372036854775808)%Z.

Definition int64_sub (x k : Z) : Z := int64_wrap (x - k).

(** The linear expression that each column of [_risk_components] clips; the
    subtraction on an integer column is an int64 subtraction, the division
    is a float division; the flag column is only converted to float. *)
Definition linear (f : feature) (df : Signal) : Q :=
  match f with
  | salary_delay_days =>
      inject_Z (int64_sub (sig_salary_delay_days df) 3) / 4
  | savings_drop_pct => (sig_savings_drop_pct df - 20) / 20
  | discretionary_spend_change_pct =>
      (- 40 - sig_discretionary_spend_change_pct df) / 30
  | utility_payment_delay_days =>
      inject_Z (int64_sub (sig_utility_payment_delay_days df) 5) / 5
  | lending_app_upi_txn_count =>
      inject_Z (int64_sub (sig_lending_app_upi_txn_count df) 3) / 5
  | atm_withdrawal_spike_pct => (sig_atm_withdrawal_spike_pct df - 30) / 30
  | failed_autodebit => inject_Z (sig_failed_autodebit df)
  end.

Definition _risk_components (df : Signal) (f : feature) : Q :=
  match f with
  | failed_autodebit => linear failed_autodebit df * WEIGHTS failed_autodebit
  | _ => np_clip (linear f df) 0 1 * WEIGHTS f
  end.

(** [comp.sum(axis=1)]: the seven columns added in column order. *)
Definition comp_sum (df : Signal) : Q :=
  Qsum (map (_risk_components df) FEATURES).

(** A scored row of the data frame built by [generate_data]: the raw signals
    with [risk_score], [risk_tier] and the [contrib_*] columns. *)
Record Row : Type := mkRow {
  raw : Signal;
  risk_score : Q;
  risk_tier : tier;
  contrib : feature -> Q
}.

Definition score_row (df : Signal) : Row :=
  let comp := _risk_components df in
  let score := np_clip (comp_sum df) 0 1 in
  {| raw := df; risk_score := score; risk_tier := _tier score; contrib := comp |}.

(** The data model of a Signal Record: day counts and transaction counts are
    non-negative, the ATM spike is non-negative, the autodebit flag is 0 or 1. *)
Definition flag_ok (df : Signal) : Prop :=
  sig_failed_autodebit df = 0%Z \/ sig_failed_autodebit df = 1%Z.

(** The integer signals are int64 values on which the scorer's subtractions
    do not wrap around: at least -2^63 + 3 (salary delay, lending count) or
    -2^63 + 5 (utility delay) and below 2^63.  Every record of the data
    model, whose counts are not negative, is of this kind. *)
Definition no_wraparound (df : Signal) : Prop :=
  (- 9223372036854775808 + 3 <= sig_salary_delay_days df
   < 9223372036854775808)%Z
  /\ (- 9223372036854775808 + 5 <= sig_utility_payment_delay_days df
      < 9223372036854775808)%Z
  /\ (- 9223372036854775808 + 3 <= sig_lending_app_upi_txn_count df
      < 9223372036854775808)%Z.

Definition in_domain (df : Signal) : bool :=
  (0 <=? sig_salary_delay_days df)%Z
  && (0 <=? sig_utility_payment_delay_days df)%Z
  && (0 <=? sig_lending_app_upi_txn_count df)%Z
  && Qleb 0 (sig_atm_withdrawal_spike_pct df)
  && ((sig_failed_autodebit df =? 0)%Z || (sig_failed_autodebit df =? 1)%Z).

(** ** Analytical helpers *)

(** Python's [sorted] is stable, also with [reverse=True]: elements that
    compare equal keep their input order.  [before y x] says that [y] sorts
    strictly before [x]; an element is inserted in front of the first element
    that does not sort strictly before it. *)
Fixpoint insert_by {A : Type} (before : A -> A -> bool) (x : A) (l : list A)
  : list A :=
  match l with
  | [] => [x]
  | y :: ys => if before y x then y :: insert_by before x ys else x :: y :: ys
  end.

Definition sorted_by {A : Type} (before : A -> A -> bool) (l : list A)
  : list A :=
  fold_right (insert_by before) [] l.

(** What stability means.  [ord] is the order in which the elements arrive;
    in the result an element stands in front of another when it sorts
    strictly before it, or when neither sorts before the other and it arrived
    first. *)
Definition stable_lt {A : Type} (before : A -> A -> bool)
  (ord : A -> A -> Prop) (x y : A) : Prop :=
  before x y = true
  \/ (before x y = false /\ before y x = false /\ ord x y).

(** The slice [l[:n]] for a Python integer [n]: a negative [n] counts from
    the end of the list. *)
Definition py_slice_to {A : Type} (l : list A) (n : Z) : list A :=
  if (0 <=? n)%Z then firstn (Z.to_nat n) l
  else firstn (Z.to_nat (Z.of_nat (List.length l) + n)) l.

(** [.tail(n)]: the last [n] rows. *)
Definition tail_n {A : Type} (n : nat) (l : list A) : list A :=
  skipn (List.length l - n) l.

(** [key=lambda x: x[1], reverse=True]: larger contribution first. *)
Definition contrib_desc (p q : feature * Q) : bool := Qltb (snd q) (snd p).

Definition top_drivers (row : Row) (n : Z) : list (feature * Q) :=
  let pairs := map (fun feature => (feature, contrib row feature)) FEATURES in
  let pairs := sorted_by contrib_desc pairs in
  py_slice_to pairs n.

(** The pairs that [top_drivers] ranks, in declaration order. *)
Definition driver_pairs (row : Row) : list (feature * Q) :=
  map (fun feature => (feature, contrib row feature)) FEATURES.

(** Declaration order of two pairs. *)
Definition declared_before (p q : feature * Q) : Prop :=
  (feature_index (fst p) < feature_index (fst q))%nat.

(** The ranking of the specification: larger contribution first, equal
    contributions in declaration order. *)
Definition ranks_before (p q : feature * Q) : Prop :=
  snd q < snd p \/ (snd p == snd q /\ declared_before p q).

(** *** Trend *)

Inductive trend : Type := Rising | Falling | Stable.

(** The [week] and [risk_score] columns of the rows of one customer. *)
Definition History : Type := list (Z * Q).

Definition week_asc (p q : Z * Q) : bool := (fst p <? fst q)%Z.

(** [sort_values("week")]: ascending by week.  The order that pandas gives
    to rows of equal week is left open by its default sort; the weeks of one
    customer are distinct, and no property below depends on that order. *)
Definition sort_values_week (group : History) : History :=
  sorted_by week_asc group.

Definition weeks_of (h : History) : list Q := map (fun p => inject_Z (fst p)) h.
Definition scores_of (h : History) : list Q := map snd h.

Definition Qdot (xs ys : list Q) : Q :=
  Qsum (map (fun p => fst p * snd p) (combine xs ys)).

(** The determinant of the normal equations of a line fit: zero exactly
    when all abscissae are equal (see [fit_den_zero]). *)
Definition fit_den (xs : list Q) : Q :=
  inject_Z (Z.of_nat (List.length xs)) * Qdot xs xs - Qsum xs * Qsum xs.

(** [np.polyfit(x, y, 1)] in exact arithmetic: the coefficients (slope,
    intercept) of the least-squares line.  With two distinct abscissae at
    least the line is determined by the normal equations.  Otherwise the
    system is rank deficient: numpy raises on an empty input ([None]) and
    else warns and returns the least-squares solution of least norm of the
    system scaled by the column norms, which for abscissae all equal to
    [x] is the line with slope [mean / (2 x)] and intercept [mean / 2]; for
    [x = 0] the scaling divides by zero, which is not modelled ([None]). *)
Definition polyfit1 (xs ys : list Q) : option (Q * Q) :=
  let n := inject_Z (Z.of_nat (List.length xs)) in
  let sx := Qsum xs in
  let sy := Qsum ys in
  let den := fit_den xs in
  if Qeq_bool den 0 then
    match xs with
    | [] => None
    | x :: _ =>
        if Qeq_bool x 0 then None
        else let mean := sy / n in Some (mean / (2 * x), mean / 2)
    end
  else
    let slope := (n * Qdot xs ys - sx * sy) / den in
    Some (slope, (sy - slope * sx) / n).

(** The sum of squared residuals of the line [a * x + b], which a
    least-squares fit minimises. *)
Definition residual_sq (a b : Q) (p : Q * Q) : Q :=
  (snd p - (a * fst p + b)) * (snd p - (a * fst p + b)).

Definition sse (xs ys : list Q) (a b : Q) : Q :=
  Qsum (map (residual_sq a b) (combine xs ys)).

(** [_risk_trend_label], with the library routine that fits the line as a
    parameter: numpy computes the fit in floating point, so the slope the
    source compares is the one that routine returns.  [None] stands for an
    exception raised by the routine. *)
Definition _risk_trend_label_with
  (polyfit : list Q -> list Q -> option (Q * Q)) (group : History)
  : option trend :=
  let recent := tail_n 3 (sort_values_week group) in
  match polyfit (weeks_of recent) (scores_of recent) with
  | None => None
  | Some (slope, _) =>
      Some (if Qltb 0.015 slope then Rising
            else if Qltb slope (- 0.015) then Falling
            else Stable)
  end.

(** The classifier over the exact least-squares fit. *)
Definition _risk_trend_label (group : History) : option trend :=
  _risk_trend_label_with polyfit1 group.

(** *** Intervention engine *)

Local Open Scope string_scope.

Definition py_join (sep : string) (l : list string) : string :=
  String.concat sep l.

Definition intervention_engine (row : Row) (driver_labels : list string)
  : string * string * string :=
  let '(action, message) :=
    if (3 <? sig_salary_delay_days (raw row))%Z
       && Qltb 20 (sig_savings_drop_pct (raw row))
    then
      ("Offer EMI date shift / short grace period",
       "We noticed temporary cashflow pressure. We can shift your EMI date or provide a short grace period to avoid penalties.")
    else if (sig_failed_autodebit (raw row) =? 1)%Z then
      ("Immediate proactive outreach + payment retry scheduling",
       "Your last autodebit did not go through. We can help schedule a retry at your preferred date and confirm account setup.")
    else if (3 <=? sig_lending_app_upi_txn_count (raw row))%Z then
      ("Offer restructuring / lower-cost credit line",
       "We can review your repayment plan and provide a lower-cost structured option to reduce monthly stress.")
    else if tier_eqb (risk_tier row) Medium then
      ("Soft nudge + budgeting tips",
       "You are still in control. A quick budget tune-up and payment reminder can help keep your account healthy.")
    else if tier_eqb (risk_tier row) High then
      ("Priority relationship-manager outreach with repayment planning",
       "A relationship manager can contact you today to set up a sustainable repayment plan and avoid delinquency.")
    else
      ("Continue monitoring",
       "No urgent intervention needed right now. We will continue monitoring weekly patterns.")
  in
  let rationale :=
    "Recommended because key drivers this week are "
    ++ py_join ", " (py_slice_to driver_labels 2) ++ "." in
  (action, message, rationale).

(** The call in [render_customer_tab]: the labels of the top three drivers
    of the selected row are handed to the engine. *)
Definition customer_recommendation (selected_row : Row)
  : string * string * string :=
  let selected_top3 := top_drivers selected_row 3 in
  let selected_driver_labels :=
    map (fun item => FEATURE_LABELS (fst item)) selected_top3 in
  intervention_engine selected_row selected_driver_labels.

Local Close Scope string_scope.

(** ** Customer view *)

(** *** Risk stability (last 4 weeks) *)

(** [Series.std()]: the sample variance (one delta degree of freedom); the
    standard deviation is its square root. *)
Definition sample_var (l : list Q) : Q :=
  let n := inject_Z (Z.of_nat (List.length l)) in
  let mean := Qsum l / n in
  Qsum (map (fun x => (x - mean) * (x - mean)) l) / (n - 1).

Definition last4_scores (cust_df : History) : list Q :=
  scores_of (tail_n 4 (sort_values_week cust_df)).



(** [risk_std] with the exact standard deviation, over the reals. *)
Definition risk_std (cust_df : History) : R :=
  let last4 := last4_scores cust_df in
  if (2 <=? List.length last4)%nat then sqrt (Q2R (sample_var last4))
  else 0%R.

(** The label selected from the exact standard deviation. *)
Definition stability_label_R (cust_df : History) : string :=
  let risk_std := risk_std cust_df in
  if Rlt_dec risk_std 0.05 then "High stability"%string
  else if Rle_dec risk_std 0.12 then "Medium stability"%string
  else "Low stability"%string.

(** Executable form: the variance is compared with the squared thresholds.
    [stability_label_refines] shows that it selects the same label. *)
Definition risk_var (cust_df : History) : Q :=
  let last4 := last4_scores cust_df in
  if (2 <=? List.length last4)%nat then sample_var last4 else 0.

Definition stability_label (cust_df : History) : string :=
  let risk_var := risk_var cust_df in
  if Qltb risk_var (0.05 * 0.05) then "High stability"%string
  else if Qleb risk_var (0.12 * 0.12) then "Medium stability"%string
  else "Low stability"%string.

(** *** Estimated impact after intervention *)

Definition reduction_factor (tier : tier) : Q :=
  match tier with
  | High => 0.40
  | Medium => 0.20
  | Low => 0.05
  end.

Definition adjusted_score (selected_row : Row) : Q :=
  risk_score selected_row * (1 - reduction_factor (risk_tier selected_row)).

Definition adjusted_tier (selected_row : Row) : tier :=
  _tier (adjusted_score selected_row).

(** ** Portfolio impact simulator *)

(** The sidebar assumptions of [render_impact_tab], percentages already
    divided by 100. *)
Record Assumptions : Type := mkAssumptions {
  avg_exposure : Z;
  baseline_high : Q;
  baseline_medium : Q;
  collection_cost_pct : Q;
  eff_high : Q;
  eff_medium : Q;
  lgd_pct : Q;
  recovery_rate : Q;
  recovery_uplift : Q;
  cost_per_high : Z;
  cost_per_medium : Z;
  outreach_capacity : Z
}.

(** The capacity split. *)
Record Capacity : Type := mkCapacity {
  contacted_high : Z;
  contacted_medium : Z;
  non_contacted_high : Z;
  non_contacted_medium : Z;
  overflow : Z
}.

Definition capacity_split (high_count medium_count outreach_capacity : Z)
  : Capacity :=
  let eligible_cases := (high_count + medium_count)%Z in
  let contacted_high := Z.min high_count outreach_capacity in
  let remaining_cap := (outreach_capacity - contacted_high)%Z in
  let contacted_medium := Z.min medium_count (Z.max 0 remaining_cap) in
  let non_contacted_high := (high_count - contacted_high)%Z in
  let non_contacted_medium := (medium_count - contacted_medium)%Z in
  let overflow := Z.max 0 (eligible_cases - outreach_capacity) in
  mkCapacity contacted_high contacted_medium
             non_contacted_high non_contacted_medium overflow.

(** The quantities of the impact report. *)
Record Impact : Type := mkImpact {
  split : Capacity;
  defaults_wo : Q;
  ead_wo : Q;
  credit_loss_wo : Q;
  recover_wo : Q;
  collection_cost_wo : Q;
  defaults_w : Q;
  ead_w : Q;
  credit_loss_w : Q;
  recover_w : Q;
  collection_cost_w : Q;
  outreach_cost : Z;
  default_reduction_pct : Q;
  credit_loss_saved : Q;
  collection_saved : Q;
  net_savings : Q
}.

Definition impact (high_count medium_count : Z) (a : Assumptions) : Impact :=
  let cap := capacity_split high_count medium_count (outreach_capacity a) in
  let hc := inject_Z high_count in
  let mc := inject_Z medium_count in
  let exposure := inject_Z (avg_exposure a) in
  (* WITHOUT engine *)
  let defaults_wo := hc * baseline_high a + mc * baseline_medium a in
  let ead_wo := defaults_wo * exposure in
  let credit_loss_wo := ead_wo * lgd_pct a in
  let recover_wo := ead_wo * recovery_rate a in
  let collection_cost_wo := recover_wo * collection_cost_pct a in
  (* WITH engine (capacity-aware) *)
  let reduced_high := baseline_high a * (1 - eff_high a) in
  let reduced_medium := baseline_medium a * (1 - eff_medium a) in
  let recovery_contacted := Qmin 1 (recovery_rate a + recovery_uplift a) in
  let contacted_defaults :=
    inject_Z (contacted_high cap) * reduced_high
    + inject_Z (contacted_medium cap) * reduced_medium in
  let non_contacted_defaults :=
    inject_Z (non_contacted_high cap) * baseline_high a
    + inject_Z (non_contacted_medium cap) * baseline_medium a in
  let defaults_w := contacted_defaults + non_contacted_defaults in
  let contacted_ead := contacted_defaults * exposure in
  let non_contacted_ead := non_contacted_defaults * exposure in
  let ead_w := contacted_ead + non_contacted_ead in
  let credit_loss_w := ead_w * lgd_pct a in
  let recover_w :=
    contacted_ead * recovery_contacted + non_contacted_ead * recovery_rate a in
  let collection_cost_w := recover_w * collection_cost_pct a in
  let outreach_cost :=
    (contacted_high cap * cost_per_high a
     + contacted_medium cap * cost_per_medium a)%Z in
  (* Net impact *)
  let default_reduction_pct :=
    if Qltb 0 defaults_wo then (defaults_wo - defaults_w) / defaults_wo * 100
    else 0 in
  let credit_loss_saved := credit_loss_wo - credit_loss_w in
  let collection_saved := collection_cost_wo - collection_cost_w in
  let net_savings :=
    (credit_loss_wo + collection_cost_wo)
    - (credit_loss_w + collection_cost_w) - inject_Z outreach_cost in
  mkImpact cap defaults_wo ead_wo credit_loss_wo recover_wo collection_cost_wo
           defaults_w ead_w credit_loss_w recover_w collection_cost_w
           outreach_cost default_reduction_pct credit_loss_saved
           collection_saved net_savings.

(** The scenario of the specification's worked example. *)
Definition scenario : Assumptions :=
  {| avg_exposure := 50000;
     baseline_high := 0.15;
     baseline_medium := 0.07;
     collection_cost_pct := 0.18;
     eff_high := 0.40;
     eff_medium := 0.20;
     lgd_pct := 0.55;
     recovery_rate := 0.60;
     recovery_uplift := 0.10;
     cost_per_high := 60;
     cost_per_medium := 10;
     outreach_capacity := 120 |}.

(** ** Records with other day counts *)

(** The same record with the two day counts replaced. *)
Definition with_day_counts (df : Signal) (salary utility : Z) : Signal :=
  mkSignal (customer_id df) (week df)
           salary
           (sig_savings_drop_pct df)
           (sig_discretionary_spend_change_pct df)
           utility
           (sig_lending_app_upi_txn_count df)
           (sig_atm_withdrawal_spike_pct df)
           (sig_failed_autodebit df).

(** ** The rule list of the specification *)

(** The intervention rules as an ordered list of predicate and outcome, with
    first-match evaluation and a default. *)
Inductive rule : Type :=
  | EmiShift | AutodebitOutreach | Restructuring | SoftNudge | RmOutreach.

Definition rule_matches (r : rule) (row : Row) : bool :=
  match r with
  | EmiShift =>
      (3 <? sig_salary_delay_days (raw row))%Z
      && Qltb 20 (sig_savings_drop_pct (raw row))
  | AutodebitOutreach => (sig_failed_autodebit (raw row) =? 1)%Z
  | Restructuring => (3 <=? sig_lending_app_upi_txn_count (raw row))%Z
  | SoftNudge => tier_eqb (risk_tier row) Medium
  | RmOutreach => tier_eqb (risk_tier row) High
  end.

Definition rule_list : list rule :=
  [EmiShift; AutodebitOutreach; Restructuring; SoftNudge; RmOutreach].

Definition first_match (row : Row) : option rule :=
  find (fun r => rule_matches r row) rule_list.

Definition rule_action (r : option rule) : string :=
  match r with
  | Some EmiShift => "Offer EMI date shift / short grace period"
  | Some AutodebitOutreach =>
      "Immediate proactive outreach + payment retry scheduling"
  | Some Restructuring => "Offer restructuring / lower-cost credit line"
  | Some SoftNudge => "Soft nudge + budgeting tips"
  | Some RmOutreach =>
      "Priority relationship-manager outreach with repayment planning"
  | None => "Continue monitoring"
  end%string.

Definition rule_message (r : option rule) : string :=
  match r with
  | Some EmiShift =>
      "We noticed temporary cashflow pressure. We can shift your EMI date or provide a short grace period to avoid penalties."
  | Some AutodebitOutreach =>
      "Your last autodebit did not go through. We can help schedule a retry at your preferred date and confirm account setup."
  | Some Restructuring =>
      "We can review your repayment plan and provide a lower-cost structured option to reduce monthly stress."
  | Some SoftNudge =>
      "You are still in control. A quick budget tune-up and payment reminder can help keep your account healthy."
  | Some RmOutreach =>
      "A relationship manager can contact you today to set up a sustainable repayment plan and avoid delinquency."
  | None =>
      "No urgent intervention needed right now. We will continue monitoring weekly patterns."
  end%string.

(** The condition of each rule on the raw signals and the tier. *)
Definition rule_holds (r : rule) (row : Row) : Prop :=
  match r with
  | EmiShift =>
      (3 < sig_salary_delay_days (raw row))%Z
      /\ 20 < sig_savings_drop_pct (raw row)
  | AutodebitOutreach => sig_failed_autodebit (raw row) = 1%Z
  | Restructuring => (3 <= sig_lending_app_upi_txn_count (raw row))%Z
  | SoftNudge => risk_tier row = Medium
  | RmOutreach => risk_tier row = High
  end.

(** The rationale sentence for a list of cited labels. *)
Definition rationale_citing (labels : list string) : string :=
  ("Recommended because key drivers this week are "
   ++ py_join ", " labels ++ ".")%string.

(** ** Sample inputs *)

(** A customer-week under stress: every signal beyond its clip range. *)
Definition stressed_signal : Signal :=
  mkSignal "C001" 12 7 40 (- 70) 10 8 60 1.

(** A customer-week inside every clip range. *)
Definition typical_signal : Signal :=
  mkSignal "C008" 12 4 30 (- 55) 8 5 45 1.

(** A quiet customer-week. *)
Definition calm_signal : Signal :=
  mkSignal "C002" 12 1 5 10 2 0 12 0.

(** A record outside the data model: negative day counts. *)
Definition negative_days_signal : Signal :=
  mkSignal "C003" 1 (- 2) 25 (- 50) (- 1) 4 35 0.

(** Two observations with a steep rise. *)
Definition rising_pair : History := [(1%Z, 0.10); (2%Z, 0.50)].

(** Twelve weeks ending in a rise. *)
Definition rising_history : History :=
  [(1%Z, 0.10); (2%Z, 0.12); (3%Z, 0.11); (4%Z, 0.10); (5%Z, 0.13);
   (6%Z, 0.12); (7%Z, 0.11); (8%Z, 0.14); (9%Z, 0.20); (10%Z, 0.35);
   (11%Z, 0.52); (12%Z, 0.74)].

(** A single observation, and four noisy weeks. *)
Definition single_week : History := [(1%Z, 0.55)].

(** Four weeks whose sample standard deviation is 0.07. *)
Definition spiky_history : History :=
  [(1%Z, 0); (2%Z, 0); (3%Z, 0); (4%Z, 0.14)].

Definition noisy_history : History :=
  [(1%Z, 0.20); (2%Z, 0.32); (3%Z, 0.18); (4%Z, 0.30)].

(** ** Further parts of the application *)

(** *** Row assembly of [generate_data] *)

(** [_clip] on the integer columns. *)
Definition _clip_int (val lo hi : Z) : Z := Z.max lo (Z.min hi val).

(** [round(x)] of Python: to the nearest integer, ties to the even one. *)
Definition round_half_even (x : Q) : Z :=
  let f := Qfloor x in
  let r := x - inject_Z f in
  if Qltb r (1 # 2) then f
  else if Qltb (1 # 2) r then (f + 1)%Z
  else if Z.even f then f else (f + 1)%Z.

(** [round(x, 2)]. *)
Definition py_round2 (x : Q) : Q := inject_Z (round_half_even (x * 100)) / 100.

(** The values drawn for one customer-week before they are clipped: the
    integer draws are the results of [int(round(...))], the flag is the
    outcome of the comparison [rng.random() < min(0.9, fail_prob)]. *)
Record Draw : Type := mkDraw {
  draw_salary_delay_days : Z;
  draw_savings_drop_pct : Q;
  draw_discretionary_spend_change_pct : Q;
  draw_utility_payment_delay_days : Z;
  draw_lending_app_upi_txn_count : Z;
  draw_atm_withdrawal_spike_pct : Q;
  draw_failed : bool
}.

(** The row that [generate_data] appends for a draw. *)
Definition generated_signal (cid : string) (wk : Z) (d : Draw) : Signal :=
  let salary_delay_days := _clip_int (draw_salary_delay_days d) 0 7 in
  let savings_drop_pct := _clip (draw_savings_drop_pct d) (- 5) 40 in
  let discretionary_spend_change_pct :=
    _clip (draw_discretionary_spend_change_pct d) (- 70) 30 in
  let utility_payment_delay_days :=
    _clip_int (draw_utility_payment_delay_days d) 0 10 in
  let lending_app_upi_txn_count :=
    _clip_int (draw_lending_app_upi_txn_count d) 0 8 in
  let atm_withdrawal_spike_pct :=
    _clip (draw_atm_withdrawal_spike_pct d) 0 60 in
  let failed_autodebit := if draw_failed d then 1%Z else 0%Z in
  mkSignal cid wk
           salary_delay_days
           (py_round2 savings_drop_pct)
           (py_round2 discretionary_spend_change_pct)
           utility_payment_delay_days
           lending_app_upi_txn_count
           (py_round2 atm_withdrawal_spike_pct)
           failed_autodebit.

(** One record is at least as stressed as another, signal by signal (a
    smaller discretionary spend change is the more stressed one). *)
Definition more_stressed (df1 df2 : Signal) : Prop :=
  (sig_salary_delay_days df1 <= sig_salary_delay_days df2)%Z
  /\ sig_savings_drop_pct df1 <= sig_savings_drop_pct df2
  /\ sig_discretionary_spend_change_pct df2
     <= sig_discretionary_spend_change_pct df1
  /\ (sig_utility_payment_delay_days df1
      <= sig_utility_payment_delay_days df2)%Z
  /\ (sig_lending_app_upi_txn_count df1
      <= sig_lending_app_upi_txn_count df2)%Z
  /\ sig_atm_withdrawal_spike_pct df1 <= sig_atm_withdrawal_spike_pct df2
  /\ (sig_failed_autodebit df1 <= sig_failed_autodebit df2)%Z.

(** The signals with a positive contribution. *)
Definition active_signals (row : Row) : list feature :=
  filter (fun f => Qltb 0 (contrib row f)) FEATURES.

(** *** Snapshot and hover columns *)

(** [FEATURE_LABELS[top_drivers(row, 1)[0][0]]] of [latest_snapshot];
    [None] stands for the index error of an empty ranking. *)
Definition top_reason (row : Row) : option string :=
  match top_drivers row 1 with
  | item :: _ => Some (FEATURE_LABELS (fst item))
  | [] => None
  end.

(** The [driver_1] and [driver_2] columns of [build_hover_drivers]. *)
Definition hover_drivers (row : Row) : option (string * string) :=
  match top_drivers row 2 with
  | first :: second :: _ =>
      Some (FEATURE_LABELS (fst first), FEATURE_LABELS (fst second))
  | _ => None
  end.

(** *** Customer view: crossing into the High tier *)

(** The loop that looks for the high-risk trigger of the trend chart:
    [prev] is the score of the row before, 0.0 in front of the first row. *)
Fixpoint cross_scan (prev : Q) (hover_df : History) : option (Z * Q) :=
  match hover_df with
  | [] => None
  | (wk, sc) :: rest =>
      if Qltb 0.7 sc && Qleb prev 0.7 then Some (wk, sc)
      else cross_scan sc rest
  end.

Definition cross_week (hover_df : History) : option (Z * Q) :=
  cross_scan 0.0 hover_df.

(** The lead-time indicator. *)
Definition crossed_this_week (cust_df : History) (selected_week : Z)
  (score : Q) : bool :=
  if Qltb 0.7 score then
    let prev_weeks :=
      sort_values_week
        (filter (fun p => (fst p <? selected_week)%Z) cust_df) in
    match rev prev_weeks with
    | [] => false
    | last_row :: _ => Qleb (snd last_row) 0.7
    end
  else false.

(** *** Customer view: shares of the top drivers *)

Definition driver_pct (contribution total_risk : Q) : Q :=
  if Qltb 0 total_risk then contribution / total_risk * 100 else 0.

Definition pill_cls (pct : Q) : string :=
  if Qltb 30 pct then "pill-high"%string
  else if Qltb 15 pct then "pill-medium"%string
  else "pill-low"%string.

Definition driver_shares (selected_row : Row) : list Q :=
  map (fun item => driver_pct (snd item) (risk_score selected_row))
      (top_drivers selected_row 3).

(** *** Tier counts *)

(** [(latest["risk_tier"] == t).sum()]. *)
Definition tier_count (t : tier) (risk_tiers : list tier) : Z :=
  Z.of_nat (List.length (filter (fun x => tier_eqb x t) risk_tiers)).

(** *** Prevention funnel *)

(** [int(x)]: truncation towards zero. *)
Definition py_int (x : Q) : Z := Z.quot (Qnum x) (Z.pos (Qden x)).

Record Funnel : Type := mkFunnel {
  flagged_count : Z;
  contacted_count : Z;
  accepting_count : Z;
  defaults_avoided : Z
}.

Definition prevention_funnel (high_count medium_count : Z) (a : Assumptions)
  : Funnel :=
  let eligible_cases := (high_count + medium_count)%Z in
  let cap := capacity_split high_count medium_count (outreach_capacity a) in
  let flagged_count := eligible_cases in
  let contacted_count := Z.min eligible_cases (outreach_capacity a) in
  let accepting_rate := 0.60 in
  let accepting_count :=
    py_int (inject_Z contacted_count * accepting_rate) in
  let defaults_avoided :=
    py_int (inject_Z (contacted_high cap) * eff_high a * accepting_rate
            + inject_Z (contacted_medium cap) * eff_medium a * accepting_rate)
  in
  mkFunnel flagged_count contacted_count accepting_count defaults_avoided.

(** The assumptions that the sidebar can produce: rates and effects are
    fractions between 0 and 1, costs and exposure are not negative. *)
Definition plausible (a : Assumptions) : Prop :=
  (0 <= avg_exposure a)%Z
  /\ 0 <= baseline_high a /\ 0 <= baseline_medium a
  /\ 0 <= collection_cost_pct a
  /\ 0 <= eff_high a /\ eff_high a <= 1
  /\ 0 <= eff_medium a /\ eff_medium a <= 1
  /\ 0 <= lgd_pct a
  /\ 0 <= recovery_rate a /\ recovery_rate a <= 1
  /\ 0 <= recovery_uplift a
  /\ (0 <= cost_per_high a)%Z /\ (0 <= cost_per_medium a)%Z
  /\ (0 <= outreach_capacity a)%Z.

(** The same assumptions with another weekly capacity. *)
Definition with_capacity (a : Assumptions) (capacity : Z) : Assumptions :=
  {| avg_exposure := avg_exposure a;
     baseline_high := baseline_high a;
     baseline_medium := baseline_medium a;
     collection_cost_pct := collection_cost_pct a;
     eff_high := eff_high a;
     eff_medium := eff_medium a;
     lgd_pct := lgd_pct a;
     recovery_rate := recovery_rate a;
     recovery_uplift := recovery_uplift a;
     cost_per_high := cost_per_high a;
     cost_per_medium := cost_per_medium a;
     outreach_capacity := capacity |}.

(** *** The stress ramp of [generate_data] *)

(** A stressed customer ramps up over the last four weeks. *)
Definition stress_step (stressed : bool) (wk n_weeks : Z) : Z :=
  if stressed && (n_weeks - 3 <=? wk)%Z then (wk - (n_weeks - 4))%Z
  else 0%Z.

Definition fail_prob (stressed : bool) (stress_step : Z) : Q :=
  0.06 + (if stressed then 0.09 * inject_Z stress_step else 0).

(** The bound that the uniform draw is compared with. *)
Definition fail_threshold (stressed : bool) (stress_step : Z) : Q :=
  Qmin 0.9 (fail_prob stressed stress_step).

(** Sample draws and histories for the further parts. *)
Definition wild_draw : Draw :=
  mkDraw 11 (473 # 10) (- 915 # 10) (- 3) 12 (- 4) true.

Definition crossing_history : History :=
  [(1%Z, 0.35); (2%Z, 0.52); (3%Z, 0.66); (4%Z, 0.74); (5%Z, 0.81);
   (6%Z, 0.69); (7%Z, 0.78)].

Definition flat_history : History :=
  [(1%Z, 0.42); (2%Z, 0.42); (3%Z, 0.42); (4%Z, 0.42)].

(** * Properties *)

(** ** Comparisons *)

Lemma Qltb_lt x y : Qltb x y = true <-> x < y.
Proof.
  unfold Qltb. rewrite negb_true_iff, <- not_true_iff_false, Qle_bool_iff.
  split; [apply Qnot_le_lt | apply Qlt_not_le].
Qed.

Lemma Qltb_ge x y : Qltb x y = false <-> y <= x.
Proof.
  unfold Qltb. rewrite negb_false_iff. apply Qle_bool_iff.
Qed.

Lemma Qleb_le x y : Qleb x y = true <-> x <= y.
Proof. apply Qle_bool_iff. Qed.

Lemma Qleb_gt x y : Qleb x y = false <-> y < x.
Proof.
  unfold Qleb. rewrite <- not_true_iff_false, Qle_bool_iff.
  split; [apply Qnot_le_lt | apply Qlt_not_le].
Qed.

(** Case analysis on a comparison, leaving the order fact in the context. *)
Ltac case_Qltb x y :=
  let H := fresh "Hlt" in
  destruct (Qltb x y) eqn:H;
  [apply Qltb_lt in H | apply Qltb_ge in H].

Ltac case_Qleb x y :=
  let H := fresh "Hle" in
  destruct (Qleb x y) eqn:H;
  [apply Qleb_le in H | apply Qleb_gt in H].

Ltac Qminmax_name t spec :=
  let m := fresh "m" in
  let H := fresh "Hm" in
  pose proof spec as H; set (m := t) in *; clearbody m;
  destruct H as [[? ?] | [? ?]].

(** Names every minimum and maximum and splits on which argument it is. *)
Ltac Qminmax_cases :=
  repeat match goal with
         | |- context [Qmax ?a ?b] => Qminmax_name (Qmax a b) (Q.max_spec a b)
         | |- context [Qmin ?a ?b] => Qminmax_name (Qmin a b) (Q.min_spec a b)
         | _ : context [Qmax ?a ?b] |- _ =>
             Qminmax_name (Qmax a b) (Q.max_spec a b)
         | _ : context [Qmin ?a ?b] |- _ =>
             Qminmax_name (Qmin a b) (Q.min_spec a b)
         end.

(** ** Tier classifier *)

Lemma tier_low_iff s : _tier s = Low <-> s < 0.4.
Proof.
  unfold _tier. case_Qltb s 0.4.
  - tauto.
  - case_Qleb s 0.7; split; intro H; try discriminate; lra.
Qed.

Lemma tier_medium_iff s : _tier s = Medium <-> 0.4 <= s /\ s <= 0.7.
Proof.
  unfold _tier. case_Qltb s 0.4.
  - split; intro H; try discriminate; lra.
  - case_Qleb s 0.7; split; intro H; try discriminate; try tauto; lra.
Qed.

Lemma tier_high_iff s : _tier s = High <-> 0.7 < s.
Proof.
  unfold _tier. case_Qltb s 0.4.
  - split; intro H; try discriminate; lra.
  - case_Qleb s 0.7; split; intro H; try discriminate; try tauto; lra.
Qed.

Lemma tier_cases s :
  (s < 0.4 /\ _tier s = Low)
  \/ (0.4 <= s /\ s <= 0.7 /\ _tier s = Medium)
  \/ (0.7 < s /\ _tier s = High).
Proof.
  unfold _tier. case_Qltb s 0.4; [tauto|].
  case_Qleb s 0.7; tauto.
Qed.

Lemma tier_monotone s t : s <= t -> tier_le (_tier s) (_tier t).
Proof.
  intro Hst. unfold tier_le.
  destruct (tier_cases s) as [[Hs ->]|[[Hs1 [Hs2 ->]]|[Hs ->]]];
    destruct (tier_cases t) as [[Ht ->]|[[Ht1 [Ht2 ->]]|[Ht ->]]];
    simpl; try lia; lra.
Qed.

Lemma tier_proper s t : s == t -> _tier s = _tier t.
Proof.
  intro Hst.
  destruct (tier_cases s) as [[Hs ->]|[[Hs1 [Hs2 ->]]|[Hs ->]]]; symmetry.
  - apply tier_low_iff. lra.
  - apply tier_medium_iff. lra.
  - apply tier_high_iff. lra.
Qed.

(** C1.  The tier is a function of the score alone, with Low exactly below
    0.40, Medium exactly on the closed interval from 0.40 to 0.70 and High
    exactly above 0.70; both boundary scores are Medium, scores just above
    them are Medium and High, and a larger score never has a smaller tier. *)
Theorem tier_classifier_boundaries :
  (forall s, _tier s = Low <-> s < 0.4)
  /\ (forall s, _tier s = Medium <-> 0.4 <= s /\ s <= 0.7)
  /\ (forall s, _tier s = High <-> 0.7 < s)
  /\ _tier 0.40 = Medium
  /\ _tier 0.70 = Medium
  /\ _tier 0.400001 = Medium
  /\ _tier 0.700001 = High
  /\ (forall s t, s == t -> _tier s = _tier t)
  /\ (forall s t, s <= t -> tier_le (_tier s) (_tier t)).
Proof.
  split; [exact tier_low_iff|].
  split; [exact tier_medium_iff|].
  split; [exact tier_high_iff|].
  do 4 (split; [reflexivity|]).
  split; [exact tier_proper | exact tier_monotone].
Qed.

Lemma tier_classifier_boundaries_witness :
  0.39 <= 0.71 /\ tier_le (_tier 0.39) (_tier 0.71).
Proof.
  split.
  - lra.
  - apply (proj2 (proj2 (proj2 (proj2 (proj2 (proj2 (proj2 (proj2
      tier_classifier_boundaries)))))))). lra.
Defined.

(** ** Composite scorer *)

Lemma np_clip_unit x : 0 <= np_clip x 0 1 /\ np_clip x 0 1 <= 1.
Proof.
  unfold np_clip.
  destruct (Q.max_spec x 0) as [[H1 H2]|[H1 H2]];
    destruct (Q.min_spec 1 (Qmax x 0)) as [[H3 H4]|[H3 H4]];
    rewrite H4; lra.
Qed.

(** Inside the unit interval the clip is the identity. *)
Lemma np_clip_id x : 0 <= x -> x <= 1 -> np_clip x 0 1 == x.
Proof.
  intros H0 H1. unfold np_clip.
  destruct (Q.max_spec x 0) as [[H2 H3]|[H2 H3]];
    destruct (Q.min_spec 1 (Qmax x 0)) as [[H4 H5]|[H4 H5]];
    rewrite H5; lra.
Qed.

Lemma np_clip_below x : x <= 0 -> np_clip x 0 1 == 0.
Proof.
  intros H0. unfold np_clip.
  destruct (Q.max_spec x 0) as [[H2 H3]|[H2 H3]];
    destruct (Q.min_spec 1 (Qmax x 0)) as [[H4 H5]|[H4 H5]];
    rewrite H5; lra.
Qed.

Lemma flag_value df :
  flag_ok df ->
  linear failed_autodebit df == 0 \/ linear failed_autodebit df == 1.
Proof.
  unfold flag_ok, linear. intros [-> | ->]; [left | right]; reflexivity.
Qed.

Lemma component_bounds df f :
  flag_ok df ->
  0 <= _risk_components df f /\ _risk_components df f <= WEIGHTS f.
Proof.
  intro Hflag.
  destruct f; unfold _risk_components, WEIGHTS;
    try (match goal with
         | |- context [np_clip ?x 0 1] =>
             destruct (np_clip_unit x); split; lra
         end).
  destruct (flag_value df Hflag) as [-> | ->]; split; lra.
Qed.

Lemma comp_sum_unfold df :
  comp_sum df ==
    _risk_components df salary_delay_days
    + _risk_components df savings_drop_pct
    + _risk_components df discretionary_spend_change_pct
    + _risk_components df utility_payment_delay_days
    + _risk_components df lending_app_upi_txn_count
    + _risk_components df atm_withdrawal_spike_pct
    + _risk_components df failed_autodebit.
Proof.
  unfold comp_sum, Qsum, FEATURES. cbn [map fold_left]. ring.
Qed.

Lemma weights_total : Qsum (map WEIGHTS FEATURES) == 1.
Proof. reflexivity. Qed.

Lemma comp_sum_bounds df :
  flag_ok df -> 0 <= comp_sum df /\ comp_sum df <= 1.
Proof.
  intro Hflag. rewrite comp_sum_unfold.
  pose proof (component_bounds df salary_delay_days Hflag) as H1.
  pose proof (component_bounds df savings_drop_pct Hflag) as H2.
  pose proof (component_bounds df discretionary_spend_change_pct Hflag) as H3.
  pose proof (component_bounds df utility_payment_delay_days Hflag) as H4.
  pose proof (component_bounds df lending_app_upi_txn_count Hflag) as H5.
  pose proof (component_bounds df atm_withdrawal_spike_pct Hflag) as H6.
  pose proof (component_bounds df failed_autodebit Hflag) as H7.
  unfold WEIGHTS in *. split; lra.
Qed.

Lemma int64_sub_exact x k :
  (- 9223372036854775808 <= x - k < 9223372036854775808)%Z ->
  int64_sub x k = (x - k)%Z.
Proof.
  intro H. unfold int64_sub, int64_wrap.
  rewrite Z.mod_small by lia. lia.
Qed.

Lemma np_clip_proper x y : x == y -> np_clip x 0 1 == np_clip y 0 1.
Proof. intro H. unfold np_clip. Qminmax_cases; lra. Qed.

Lemma Qdiv_proper_const x y c : x == y -> x / c == y / c.
Proof. intro H. rewrite H. reflexivity. Qed.

(** Without wrap-around the integer signals are normalised by the plain
    differences. *)
Lemma linear_exact df :
  no_wraparound df ->
  linear salary_delay_days df
  == (inject_Z (sig_salary_delay_days df) - 3) / 4
  /\ linear utility_payment_delay_days df
     == (inject_Z (sig_utility_payment_delay_days df) - 5) / 5
  /\ linear lending_app_upi_txn_count df
     == (inject_Z (sig_lending_app_upi_txn_count df) - 3) / 5.
Proof.
  intros (H1 & H2 & H3). unfold linear.
  rewrite !int64_sub_exact by lia.
  repeat split; apply Qdiv_proper_const;
    unfold Z.sub; rewrite inject_Z_plus, inject_Z_opp; reflexivity.
Qed.

(** C2.  For a Signal Record (flag 0 or 1): every contribution lies between
    0 and the weight of its signal and is the unit clip of the signal's linear
    expression times that weight; the weights sum to 1 (so within 1e-9 of it);
    the risk score is the sum of the contributions clamped to the unit
    interval; the sum itself never exceeds 1, hence the score equals it.
    The linear expressions and weights are (x - 3) / 4 and 0.18 for the
    salary delay, (x - 20) / 20 and 0.17 for the savings drop,
    (-40 - x) / 30 and 0.14 for the spend change, (x - 5) / 5 and 0.14 for
    the utility delay, (x - 3) / 5 and 0.12 for the lending count,
    (x - 30) / 30 and 0.10 for the ATM spike, and the flag itself with 0.15;
    those of the integer signals are taken without int64 wrap-around. *)
Theorem composite_scorer_contract (df : Signal) (Hflag : flag_ok df) :
  (forall f, 0 <= contrib (score_row df) f
             /\ contrib (score_row df) f <= WEIGHTS f)
  /\ (forall f, contrib (score_row df) f
                == np_clip (linear f df) 0 1 * WEIGHTS f)
  /\ Qsum (map WEIGHTS FEATURES) == 1
  /\ Qabs (Qsum (map WEIGHTS FEATURES) - 1) <= 0.000000001
  /\ risk_score (score_row df)
     == np_clip (Qsum (map (contrib (score_row df)) FEATURES)) 0 1
  /\ Qsum (map (contrib (score_row df)) FEATURES) <= 1
  /\ risk_score (score_row df)
     == Qsum (map (contrib (score_row df)) FEATURES)
  /\ contrib (score_row df) savings_drop_pct
     == Qmin 1 (Qmax ((sig_savings_drop_pct df - 20) / 20) 0) * 0.17
  /\ contrib (score_row df) discretionary_spend_change_pct
     == Qmin 1 (Qmax ((- 40 - sig_discretionary_spend_change_pct df) / 30) 0)
        * 0.14
  /\ contrib (score_row df) atm_withdrawal_spike_pct
     == Qmin 1 (Qmax ((sig_atm_withdrawal_spike_pct df - 30) / 30) 0) * 0.10
  /\ contrib (score_row df) failed_autodebit
     == inject_Z (sig_failed_autodebit df) * 0.15
  /\ (no_wraparound df ->
      contrib (score_row df) salary_delay_days
      == Qmin 1 (Qmax ((inject_Z (sig_salary_delay_days df) - 3) / 4) 0)
         * 0.18
      /\ contrib (score_row df) utility_payment_delay_days
         == Qmin 1
              (Qmax ((inject_Z (sig_utility_payment_delay_days df) - 5) / 5)
                    0)
            * 0.14
      /\ contrib (score_row df) lending_app_upi_txn_count
         == Qmin 1
              (Qmax ((inject_Z (sig_lending_app_upi_txn_count df) - 3) / 5)
                    0)
            * 0.12)
  /\ risk_score (score_row df)
     == Qmin 1
          (Qmax (contrib (score_row df) salary_delay_days
                 + contrib (score_row df) savings_drop_pct
                 + contrib (score_row df) discretionary_spend_change_pct
                 + contrib (score_row df) utility_payment_delay_days
                 + contrib (score_row df) lending_app_upi_txn_count
                 + contrib (score_row df) atm_withdrawal_spike_pct
                 + contrib (score_row df) failed_autodebit)
                0).
Proof.
  cbn [score_row contrib risk_score]. fold (comp_sum df).
  destruct (comp_sum_bounds df Hflag) as [Hlo Hhi].
  split; [intro f; apply component_bounds; assumption|].
  split.
  { intro f. destruct f; try reflexivity.
    unfold _risk_components.
    destruct (flag_value df Hflag) as [E | E];
      rewrite np_clip_id by lra; reflexivity. }
  split; [exact weights_total|].
  split; [rewrite weights_total; vm_compute; discriminate|].
  split; [reflexivity|].
  split; [assumption|].
  split; [apply np_clip_id; assumption|].
  split; [reflexivity|]. split; [reflexivity|]. split; [reflexivity|].
  split; [reflexivity|].
  split.
  { intro Hno. destruct (linear_exact df Hno) as (E1 & E2 & E3).
    unfold _risk_components, WEIGHTS.
    rewrite (np_clip_proper _ _ E1), (np_clip_proper _ _ E2),
      (np_clip_proper _ _ E3).
    repeat split; reflexivity. }
  rewrite (np_clip_proper _ _ (comp_sum_unfold df)). reflexivity.
Qed.

Lemma composite_scorer_contract_witness :
  flag_ok typical_signal
  /\ no_wraparound typical_signal
  /\ contrib (score_row typical_signal) salary_delay_days == 0.045
  /\ contrib (score_row typical_signal) utility_payment_delay_days == 0.084
  /\ risk_score (score_row typical_signal) == 0.532.
Proof.
  assert (H : flag_ok typical_signal) by (right; reflexivity).
  assert (Hno : no_wraparound typical_signal)
    by (unfold no_wraparound; cbn; lia).
  split; [exact H|]. split; [exact Hno|].
  destruct (composite_scorer_contract typical_signal H)
    as (_ & _ & _ & _ & _ & _ & _ & _ & _ & _ & _ & Hint & Hscore).
  destruct (Hint Hno) as (Hsalary & Hutility & _).
  split; [rewrite Hsalary; reflexivity|].
  split; [rewrite Hutility; reflexivity|].
  rewrite Hscore. reflexivity.
Defined.

(** ** Projected post-intervention score *)

Lemma reduction_factor_range t :
  0 <= reduction_factor t /\ reduction_factor t < 1.
Proof. destruct t; split; reflexivity || discriminate. Qed.

(** C10.  For a row whose tier is the tier of its non-negative score, the
    projected score is the score times one minus the reduction factor of the
    tier (0.40 High, 0.20 Medium, 0.05 Low); the factor lies in [0,1), the
    projected score is at most the score, and the projected tier is at most
    the tier of the row. *)
Theorem projected_score_contract (selected_row : Row)
  (Htier : risk_tier selected_row = _tier (risk_score selected_row))
  (Hscore : 0 <= risk_score selected_row) :
  adjusted_score selected_row
    == risk_score selected_row
       * (1 - reduction_factor (risk_tier selected_row))
  /\ reduction_factor High == 0.40
  /\ reduction_factor Medium == 0.20
  /\ reduction_factor Low == 0.05
  /\ 0 <= reduction_factor (risk_tier selected_row)
  /\ reduction_factor (risk_tier selected_row) < 1
  /\ adjusted_score selected_row <= risk_score selected_row
  /\ tier_le (adjusted_tier selected_row) (risk_tier selected_row).
Proof.
  destruct (reduction_factor_range (risk_tier selected_row)) as [Hr0 Hr1].
  assert (Hle : adjusted_score selected_row <= risk_score selected_row).
  { unfold adjusted_score.
    set (score := risk_score selected_row) in *.
    set (r := reduction_factor (risk_tier selected_row)) in *. nra. }
  split; [reflexivity|].
  do 3 (split; [reflexivity|]).
  split; [assumption|]. split; [assumption|]. split; [assumption|].
  unfold adjusted_tier. rewrite Htier. apply tier_monotone. assumption.
Qed.

Lemma projected_score_contract_witness :
  risk_tier (score_row stressed_signal)
    = _tier (risk_score (score_row stressed_signal))
  /\ 0 <= risk_score (score_row stressed_signal)
  /\ tier_le (adjusted_tier (score_row stressed_signal))
             (risk_tier (score_row stressed_signal)).
Proof.
  assert (H1 : risk_tier (score_row stressed_signal)
               = _tier (risk_score (score_row stressed_signal)))
    by reflexivity.
  assert (H2 : 0 <= risk_score (score_row stressed_signal))
    by (vm_compute; discriminate).
  split; [exact H1|]. split; [exact H2|].
  apply (projected_score_contract (score_row stressed_signal) H1 H2).
Defined.

(** ** Capacity allocation *)

(** C4.  For non-negative counts and capacity: High is served first, with
    [contacted_high = min(high_count, capacity)] and
    [contacted_medium = min(medium_count, max(0, capacity - contacted_high))];
    Medium cases are contacted only once every High case is; the contacted
    cases never exceed the capacity; the overflow is
    [max(0, high_count + medium_count - capacity)] and is non-negative. *)
Theorem capacity_allocation (high_count medium_count capacity : Z)
  (Hhigh : (0 <= high_count)%Z) (Hmedium : (0 <= medium_count)%Z)
  (Hcap : (0 <= capacity)%Z) :
  let c := capacity_split high_count medium_count capacity in
  contacted_high c = Z.min high_count capacity
  /\ contacted_medium c
     = Z.min medium_count (Z.max 0 (capacity - contacted_high c))
  /\ ((0 < contacted_medium c)%Z -> contacted_high c = high_count)
  /\ (contacted_high c + contacted_medium c <= capacity)%Z
  /\ overflow c = Z.max 0 (high_count + medium_count - capacity)
  /\ (0 <= overflow c)%Z
  /\ non_contacted_high c = (high_count - contacted_high c)%Z
  /\ non_contacted_medium c = (medium_count - contacted_medium c)%Z
  /\ (0 <= contacted_high c)%Z /\ (0 <= contacted_medium c)%Z
  /\ (0 <= non_contacted_high c)%Z /\ (0 <= non_contacted_medium c)%Z.
Proof.
  cbn -[Z.min Z.max Z.add Z.sub]. repeat split; try reflexivity; lia.
Qed.

Lemma capacity_allocation_witness :
  let c := capacity_split 90 70 120 in
  (0 <= 90)%Z /\ (0 <= 70)%Z /\ (0 <= 120)%Z
  /\ (contacted_high c + contacted_medium c <= 120)%Z.
Proof.
  assert (H1 : (0 <= 90)%Z) by lia.
  assert (H2 : (0 <= 70)%Z) by lia.
  assert (H3 : (0 <= 120)%Z) by lia.
  intro c. split; [exact H1|]. split; [exact H2|]. split; [exact H3|].
  apply (capacity_allocation 90 70 120 H1 H2 H3).
Defined.

(** ** The worked scenario of the impact simulator *)

(** C3.  With 30 High and 50 Medium cases under the scenario assumptions the
    simulator contacts all 30 and all 50, expects 8 defaults without and 5.5
    with the engine, a default reduction of 31.25 percent, and net savings
    of (credit_loss_wo + collection_cost_wo) - (credit_loss_w +
    collection_cost_w) - outreach_cost, which is 75000. *)
Theorem impact_scenario :
  let r := impact 30 50 scenario in
  contacted_high (split r) = 30%Z
  /\ contacted_medium (split r) = 50%Z
  /\ overflow (split r) = 0%Z
  /\ defaults_wo r == 8.0
  /\ defaults_w r == 5.5
  /\ default_reduction_pct r == 31.25
  /\ net_savings r
     == (credit_loss_wo r + collection_cost_wo r)
        - (credit_loss_w r + collection_cost_w r)
        - inject_Z (outreach_cost r)
  /\ credit_loss_wo r == 220000
  /\ collection_cost_wo r == 43200
  /\ credit_loss_w r == 151250
  /\ collection_cost_w r == 34650
  /\ outreach_cost r = 2300%Z
  /\ net_savings r == 75000.
Proof.
  vm_compute. repeat split.
Qed.

(** ** The stable sort *)

Section StableSort.
Context {A : Type}.
Variable before : A -> A -> bool.

Lemma insert_by_perm x l : Permutation (insert_by before x l) (x :: l).
Proof.
  induction l as [|y ys IH]; simpl.
  - reflexivity.
  - destruct (before y x).
    + rewrite IH. apply perm_swap.
    + reflexivity.
Qed.

Lemma sorted_by_perm l : Permutation (sorted_by before l) l.
Proof.
  induction l as [|x l IH]; simpl.
  - reflexivity.
  - rewrite insert_by_perm. constructor. exact IH.
Qed.

Lemma sorted_by_length l : List.length (sorted_by before l) = List.length l.
Proof. apply Permutation_length, sorted_by_perm. Qed.

Lemma insert_by_Forall (P : A -> Prop) x l :
  P x -> Forall P l -> Forall P (insert_by before x l).
Proof.
  intros Hx Hl.
  apply (Permutation_Forall (Permutation_sym (insert_by_perm x l))).
  constructor; assumption.
Qed.

(** [ord] is the order in which the elements arrive. *)
Variable ord : A -> A -> Prop.

Hypothesis stable_lt_trans :
  forall x y z,
    stable_lt before ord x y -> stable_lt before ord y z ->
    stable_lt before ord x z.

Lemma insert_by_stable x l :
  StronglySorted (stable_lt before ord) l ->
  Forall (ord x) l ->
  StronglySorted (stable_lt before ord) (insert_by before x l).
Proof.
  induction l as [|y ys IH]; intros Hs Hx; simpl.
  - repeat constructor.
  - inversion Hs as [|? ? Hys Hy]; subst.
    inversion Hx as [|? ? Hxy Hxys]; subst.
    destruct (before y x) eqn:Hyx.
    + constructor.
      * apply IH; assumption.
      * apply insert_by_Forall; [left; exact Hyx | exact Hy].
    + assert (Hlt : stable_lt before ord x y).
      { destruct (before x y) eqn:E; [left; exact E | right; auto]. }
      constructor; [exact Hs|].
      constructor; [exact Hlt|].
      eapply Forall_impl; [|exact Hy].
      intros z Hz. exact (stable_lt_trans _ _ _ Hlt Hz).
Qed.

Theorem sorted_by_stable l :
  StronglySorted ord l ->
  StronglySorted (stable_lt before ord) (sorted_by before l).
Proof.
  induction l as [|x l IH]; intro Hs; simpl.
  - constructor.
  - inversion Hs as [|? ? Hl Hx]; subst.
    apply insert_by_stable.
    + apply IH, Hl.
    + apply (Permutation_Forall (Permutation_sym (sorted_by_perm l))), Hx.
Qed.
End StableSort.

(** Prefixes and suffixes of sorted lists. *)
Lemma StronglySorted_firstn {A} (R : A -> A -> Prop) n l :
  StronglySorted R l -> StronglySorted R (firstn n l).
Proof.
  revert l. induction n as [|n IH]; intros [|x l] Hs; simpl;
    try constructor.
  - inversion Hs; subst. apply IH. assumption.
  - inversion Hs as [|? ? Hl Hx]; subst.
    rewrite Forall_forall in *. intros y Hy. apply Hx.
    rewrite <- (firstn_skipn n l). apply in_or_app. left. exact Hy.
Qed.

Lemma StronglySorted_skipn {A} (R : A -> A -> Prop) n l :
  StronglySorted R l -> StronglySorted R (skipn n l).
Proof.
  revert l. induction n as [|n IH]; intros [|x l] Hs; simpl;
    try assumption.
  inversion Hs; subst. apply IH. assumption.
Qed.

Lemma StronglySorted_impl {A} (R S : A -> A -> Prop) l :
  (forall x y, R x y -> S x y) -> StronglySorted R l -> StronglySorted S l.
Proof.
  intros HRS Hs. induction Hs as [|x l Hl IH Hx]; constructor.
  - exact IH.
  - eapply Forall_impl; [|exact Hx]. intros y. apply HRS.
Qed.

(** In a sorted list every element of a prefix is related to every element
    of the matching suffix. *)
Lemma StronglySorted_split {A} (R : A -> A -> Prop) n l x y :
  StronglySorted R l -> In x (firstn n l) -> In y (skipn n l) -> R x y.
Proof.
  revert l. induction n as [|n IH]; intros [|z l] Hs Hx Hy; simpl in *;
    try contradiction.
  inversion Hs as [|? ? Hl Hz]; subst.
  destruct Hx as [-> | Hx].
  - rewrite Forall_forall in Hz. apply Hz.
    rewrite <- (firstn_skipn n l). apply in_or_app. right. exact Hy.
  - apply (IH l); assumption.
Qed.

Lemma NoDup_firstn {A} n (l : list A) : NoDup l -> NoDup (firstn n l).
Proof.
  revert l. induction n as [|n IH]; intros [|x l] Hn; simpl;
    try constructor.
  - inversion Hn; subst. intro Hin. apply H1.
    rewrite <- (firstn_skipn n l). apply in_or_app. left. exact Hin.
  - inversion Hn; subst. apply IH. assumption.
Qed.

Lemma py_slice_to_nonneg {A} (l : list A) n :
  (0 <= n)%Z -> py_slice_to l n = firstn (Z.to_nat n) l.
Proof.
  intro Hn. unfold py_slice_to.
  destruct (0 <=? n)%Z eqn:E; [reflexivity|].
  apply Z.leb_gt in E. lia.
Qed.

(** ** Driver attributor *)

Lemma stable_lt_ranks p q :
  stable_lt contrib_desc declared_before p q <-> ranks_before p q.
Proof.
  unfold stable_lt, ranks_before, contrib_desc. split.
  - intros [H | (H1 & H2 & H3)].
    + left. apply Qltb_lt, H.
    + apply Qltb_ge in H1, H2. right. split; [lra | exact H3].
  - intros [H | [H1 H2]].
    + left. apply Qltb_lt, H.
    + right. repeat split; try exact H2; apply Qltb_ge; lra.
Qed.

Lemma ranks_before_trans p q r :
  ranks_before p q -> ranks_before q r -> ranks_before p r.
Proof.
  unfold ranks_before, declared_before.
  intros [H1 | [H1 H1']] [H2 | [H2 H2']].
  - left; lra.
  - left; lra.
  - left; lra.
  - right. split; [lra | lia].
Qed.

Lemma driver_pairs_declared row :
  StronglySorted declared_before (driver_pairs row).
Proof.
  unfold driver_pairs, FEATURES, declared_before. cbn [map].
  repeat constructor.
Qed.

Lemma sorted_drivers_ranked row :
  StronglySorted ranks_before (sorted_by contrib_desc (driver_pairs row)).
Proof.
  apply StronglySorted_impl
    with (R := stable_lt contrib_desc declared_before).
  - intros x y. apply stable_lt_ranks.
  - apply sorted_by_stable.
    + intros x y z Hxy Hyz. apply stable_lt_ranks.
      apply stable_lt_ranks in Hxy, Hyz.
      exact (ranks_before_trans _ _ _ Hxy Hyz).
    + apply driver_pairs_declared.
Qed.

Lemma ranks_before_desc p q : ranks_before p q -> snd q <= snd p.
Proof. intros [H | [H _]]; lra. Qed.

Lemma driver_pairs_fst row : map fst (driver_pairs row) = FEATURES.
Proof. reflexivity. Qed.

Lemma FEATURES_NoDup : NoDup FEATURES.
Proof.
  unfold FEATURES.
  repeat (constructor; [cbn [In]; intuition discriminate|]). constructor.
Qed.

(** C6.  For every row and every count N >= 0, [top_drivers] returns the
    first N pairs of the stable descending sort of the seven (signal,
    contribution) pairs: the sorted list is a rearrangement of the seven
    pairs; the result is in descending order of contribution, with equal
    contributions in declaration order; no pair left out has a larger
    contribution than a pair returned; the result has min(N, 7) pairs,
    without repetition, each a signal of [FEATURES] with its contribution. *)
Theorem top_drivers_contract (row : Row) (n : Z) (Hn : (0 <= n)%Z) :
  let sorted := sorted_by contrib_desc (driver_pairs row) in
  top_drivers row n = firstn (Z.to_nat n) sorted
  /\ Permutation sorted (driver_pairs row)
  /\ StronglySorted (fun p q => snd q <= snd p) (top_drivers row n)
  /\ StronglySorted ranks_before (top_drivers row n)
  /\ (forall p q, In p (top_drivers row n) ->
                  In q (skipn (Z.to_nat n) sorted) -> ranks_before p q)
  /\ List.length (top_drivers row n) = Z.to_nat (Z.min n 7)
  /\ NoDup (map fst (top_drivers row n))
  /\ incl (map fst (top_drivers row n)) FEATURES
  /\ (forall p, In p (top_drivers row n) -> snd p = contrib row (fst p)).
Proof.
  intro sorted.
  assert (Hperm : Permutation sorted (driver_pairs row))
    by apply sorted_by_perm.
  assert (Hsorted : StronglySorted ranks_before sorted)
    by apply sorted_drivers_ranked.
  assert (Htop : top_drivers row n = firstn (Z.to_nat n) sorted).
  { unfold top_drivers. fold (driver_pairs row). fold sorted.
    apply py_slice_to_nonneg, Hn. }
  assert (Hranked : StronglySorted ranks_before (top_drivers row n)).
  { rewrite Htop. apply StronglySorted_firstn, Hsorted. }
  assert (Hfst : Permutation (map fst sorted) FEATURES).
  { rewrite <- (driver_pairs_fst row). apply Permutation_map, Hperm. }
  split; [exact Htop|]. split; [exact Hperm|].
  split.
  { apply StronglySorted_impl with (R := ranks_before);
      [intros x y; apply ranks_before_desc | exact Hranked]. }
  split; [exact Hranked|].
  split.
  { intros p q Hp Hq. rewrite Htop in Hp.
    exact (StronglySorted_split _ _ _ _ _ Hsorted Hp Hq). }
  split.
  { rewrite Htop, length_firstn. unfold sorted.
    rewrite sorted_by_length. unfold driver_pairs.
    rewrite length_map. cbn [FEATURES List.length]. lia. }
  split.
  { rewrite Htop, <- firstn_map. apply NoDup_firstn.
    apply (Permutation_NoDup (Permutation_sym Hfst)), FEATURES_NoDup. }
  split.
  { intros f Hf. rewrite Htop, <- firstn_map in Hf.
    apply (Permutation_in _ Hfst).
    rewrite <- (firstn_skipn (Z.to_nat n) (map fst sorted)).
    apply in_or_app. left. exact Hf. }
  intros p Hp. rewrite Htop in Hp.
  assert (Hin : In p (driver_pairs row)).
  { apply (Permutation_in _ Hperm).
    rewrite <- (firstn_skipn (Z.to_nat n) sorted).
    apply in_or_app. left. exact Hp. }
  unfold driver_pairs in Hin. apply in_map_iff in Hin.
  destruct Hin as [f [<- _]]. reflexivity.
Qed.

Lemma top_drivers_contract_witness :
  (0 <= 3)%Z
  /\ List.length (top_drivers (score_row stressed_signal) 3)
     = Z.to_nat (Z.min 3 7).
Proof.
  assert (H : (0 <= 3)%Z) by lia.
  split; [exact H|].
  apply (top_drivers_contract (score_row stressed_signal) 3 H).
Defined.

(** Equal contributions (0.14 twice) come out in declaration order. *)
Example top_drivers_tie :
  map fst (top_drivers (score_row stressed_signal) 5)
  = [salary_delay_days; savings_drop_pct; failed_autodebit;
     discretionary_spend_change_pct; utility_payment_delay_days].
Proof. reflexivity. Qed.

(** A negative bound is not a count: the slice then drops pairs from the
    end of the ranking. *)
Example top_drivers_negative_bound :
  map fst (top_drivers (score_row stressed_signal) (- 5))
  = [salary_delay_days; savings_drop_pct].
Proof. reflexivity. Qed.

(** ** Intervention engine *)

Lemma tier_eqb_eq a b : tier_eqb a b = true <-> a = b.
Proof. destruct a, b; simpl; split; intro H; congruence. Qed.

Lemma rule_matches_holds r row :
  rule_matches r row = true <-> rule_holds r row.
Proof.
  destruct r; simpl.
  - rewrite andb_true_iff, Z.ltb_lt, Qltb_lt. reflexivity.
  - apply Z.eqb_eq.
  - apply Z.leb_le.
  - apply tier_eqb_eq.
  - apply tier_eqb_eq.
Qed.

Lemma rule_matches_fails r row :
  rule_matches r row = false <-> ~ rule_holds r row.
Proof.
  rewrite <- rule_matches_holds. destruct (rule_matches r row); split;
    congruence.
Qed.

(** The [if]/[elif] chain picks the outcome of the first matching rule. *)
Lemma intervention_engine_first_match row driver_labels :
  intervention_engine row driver_labels
  = (rule_action (first_match row), rule_message (first_match row),
     rationale_citing (firstn 2 driver_labels)).
Proof.
  unfold intervention_engine, first_match, rule_list, rationale_citing.
  cbn [find rule_matches].
  destruct ((3 <? sig_salary_delay_days (raw row))%Z
            && Qltb 20 (sig_savings_drop_pct (raw row))); [reflexivity|].
  destruct (sig_failed_autodebit (raw row) =? 1)%Z; [reflexivity|].
  destruct (3 <=? sig_lending_app_upi_txn_count (raw row))%Z; [reflexivity|].
  destruct (tier_eqb (risk_tier row) Medium); [reflexivity|].
  destruct (tier_eqb (risk_tier row) High); reflexivity.
Qed.

Lemma first_match_cases row :
  (first_match row = Some EmiShift <-> rule_holds EmiShift row)
  /\ (first_match row = Some AutodebitOutreach <->
        ~ rule_holds EmiShift row /\ rule_holds AutodebitOutreach row)
  /\ (first_match row = Some Restructuring <->
        ~ rule_holds EmiShift row /\ ~ rule_holds AutodebitOutreach row
        /\ rule_holds Restructuring row)
  /\ (first_match row = Some SoftNudge <->
        ~ rule_holds EmiShift row /\ ~ rule_holds AutodebitOutreach row
        /\ ~ rule_holds Restructuring row /\ risk_tier row = Medium)
  /\ (first_match row = Some RmOutreach <->
        ~ rule_holds EmiShift row /\ ~ rule_holds AutodebitOutreach row
        /\ ~ rule_holds Restructuring row /\ risk_tier row = High)
  /\ (first_match row = None <->
        ~ rule_holds EmiShift row /\ ~ rule_holds AutodebitOutreach row
        /\ ~ rule_holds Restructuring row /\ risk_tier row = Low).
Proof.
  unfold first_match, rule_list. cbn [find].
  destruct (rule_matches EmiShift row) eqn:E1;
    [apply rule_matches_holds in E1 | apply rule_matches_fails in E1];
  [|destruct (rule_matches AutodebitOutreach row) eqn:E2;
    [apply rule_matches_holds in E2 | apply rule_matches_fails in E2];
  [|destruct (rule_matches Restructuring row) eqn:E3;
    [apply rule_matches_holds in E3 | apply rule_matches_fails in E3];
  [|destruct (rule_matches SoftNudge row) eqn:E4;
    [apply rule_matches_holds in E4 | apply rule_matches_fails in E4];
  [|destruct (rule_matches RmOutreach row) eqn:E5;
    [apply rule_matches_holds in E5 | apply rule_matches_fails in E5]]]]];
  cbn [rule_holds] in *;
  repeat split; intros; try discriminate; try tauto; try congruence;
  try (destruct (risk_tier row); try congruence; tauto);
  exfalso; intuition congruence.
Qed.

Lemma top2_of_top3 row :
  firstn 2 (top_drivers row 3) = top_drivers row 2.
Proof.
  unfold top_drivers. rewrite !py_slice_to_nonneg by lia.
  rewrite firstn_firstn. reflexivity.
Qed.

Lemma append_assoc (a b c : string) :
  ((a ++ b) ++ c)%string = (a ++ b ++ c)%string.
Proof.
  induction a as [|ch a IH]; [reflexivity|].
  cbn [append]. rewrite IH. reflexivity.
Qed.

(** The rationale sentence, written out for two, one and no label. *)
Lemma rationale_citing_text :
  (forall l1 l2,
      rationale_citing [l1; l2]
      = ("Recommended because key drivers this week are "
         ++ l1 ++ ", " ++ l2 ++ ".")%string)
  /\ (forall l1,
        rationale_citing [l1]
        = ("Recommended because key drivers this week are " ++ l1 ++ ".")%string)
  /\ rationale_citing []
     = "Recommended because key drivers this week are ."%string.
Proof.
  unfold rationale_citing, py_join. split; [|split].
  - intros l1 l2. cbn [String.concat]. f_equal.
    rewrite !append_assoc. reflexivity.
  - intro l1. reflexivity.
  - reflexivity.
Qed.

Lemma top_drivers_two row :
  exists item1 item2, top_drivers row 2 = [item1; item2].
Proof.
  unfold top_drivers. rewrite py_slice_to_nonneg by lia.
  pose proof (sorted_by_length contrib_desc
                (map (fun feature => (feature, contrib row feature))
                     FEATURES)) as Hlen.
  destruct (sorted_by contrib_desc
              (map (fun feature => (feature, contrib row feature)) FEATURES))
    as [|p1 [|p2 rest]]; try discriminate Hlen.
  exists p1, p2. reflexivity.
Qed.

(** C5.  The action and the message are those of the first rule of the
    ordered list (EMI shift, autodebit outreach, restructuring, soft nudge,
    RM outreach) whose condition holds, or "continue monitoring" when none
    does; each rule fires exactly when its condition holds and no earlier
    condition does.  The rationale sentence cites the first two driver
    labels handed in, whatever the row: it reads "Recommended because key
    drivers this week are L1, L2." for labels L1, L2 (and names one label or
    none when fewer are handed in); at the call of the customer view L1 and
    L2 are the labels of the top-2 drivers of the row. *)
Theorem intervention_engine_contract (row : Row) (driver_labels : list string) :
  intervention_engine row driver_labels
  = (rule_action (first_match row), rule_message (first_match row),
     rationale_citing (firstn 2 driver_labels))
  /\ (first_match row = Some EmiShift <->
        (3 < sig_salary_delay_days (raw row))%Z
        /\ 20 < sig_savings_drop_pct (raw row))
  /\ (first_match row = Some AutodebitOutreach <->
        ~ rule_holds EmiShift row
        /\ sig_failed_autodebit (raw row) = 1%Z)
  /\ (first_match row = Some Restructuring <->
        ~ rule_holds EmiShift row /\ ~ rule_holds AutodebitOutreach row
        /\ (3 <= sig_lending_app_upi_txn_count (raw row))%Z)
  /\ (first_match row = Some SoftNudge <->
        ~ rule_holds EmiShift row /\ ~ rule_holds AutodebitOutreach row
        /\ ~ rule_holds Restructuring row /\ risk_tier row = Medium)
  /\ (first_match row = Some RmOutreach <->
        ~ rule_holds EmiShift row /\ ~ rule_holds AutodebitOutreach row
        /\ ~ rule_holds Restructuring row /\ risk_tier row = High)
  /\ (first_match row = None <->
        ~ rule_holds EmiShift row /\ ~ rule_holds AutodebitOutreach row
        /\ ~ rule_holds Restructuring row /\ risk_tier row = Low)
  /\ (forall row', snd (intervention_engine row' driver_labels)
                   = snd (intervention_engine row driver_labels))
  /\ snd (customer_recommendation row)
     = rationale_citing
         (map (fun item => FEATURE_LABELS (fst item)) (top_drivers row 2))
  /\ (forall l1 l2 rest,
        driver_labels = l1 :: l2 :: rest ->
        snd (intervention_engine row driver_labels)
        = ("Recommended because key drivers this week are "
           ++ l1 ++ ", " ++ l2 ++ ".")%string)
  /\ (forall l1,
        driver_labels = [l1] ->
        snd (intervention_engine row driver_labels)
        = ("Recommended because key drivers this week are "
           ++ l1 ++ ".")%string)
  /\ (driver_labels = [] ->
      snd (intervention_engine row driver_labels)
      = "Recommended because key drivers this week are ."%string)
  /\ (exists item1 item2,
        top_drivers row 2 = [item1; item2]
        /\ snd (customer_recommendation row)
           = ("Recommended because key drivers this week are "
              ++ FEATURE_LABELS (fst item1) ++ ", "
              ++ FEATURE_LABELS (fst item2) ++ ".")%string).
Proof.
  split; [apply intervention_engine_first_match|].
  pose proof (first_match_cases row) as (H1 & H2 & H3 & H4 & H5 & H6).
  destruct rationale_citing_text as (T2 & T1 & T0).
  assert (Hcall : snd (customer_recommendation row)
                  = rationale_citing
                      (map (fun item => FEATURE_LABELS (fst item))
                           (top_drivers row 2))).
  { unfold customer_recommendation.
    rewrite intervention_engine_first_match. cbn [snd].
    rewrite firstn_map, top2_of_top3. reflexivity. }
  split; [exact H1|]. split; [exact H2|]. split; [exact H3|].
  split; [exact H4|]. split; [exact H5|]. split; [exact H6|].
  split.
  { intro row'. rewrite !intervention_engine_first_match. reflexivity. }
  split; [exact Hcall|].
  split.
  { intros l1 l2 rest ->. rewrite intervention_engine_first_match.
    cbn [snd firstn]. apply T2. }
  split.
  { intros l1 ->. rewrite intervention_engine_first_match.
    cbn [snd firstn]. apply T1. }
  split.
  { intros ->. rewrite intervention_engine_first_match.
    cbn [snd firstn]. exact T0. }
  destruct (top_drivers_two row) as (item1 & item2 & Htwo).
  exists item1, item2. split; [exact Htwo|].
  rewrite Hcall, Htwo. cbn [map]. apply T2.
Qed.

Lemma intervention_engine_contract_witness :
  let labels :=
    ["Salary Delay Days"; "Savings Drop %"; "Failed Autodebit"]%string in
  first_match (score_row stressed_signal) = Some EmiShift
  /\ fst (fst (intervention_engine (score_row stressed_signal) labels))
     = "Offer EMI date shift / short grace period"%string
  /\ snd (intervention_engine (score_row stressed_signal) labels)
     = "Recommended because key drivers this week are Salary Delay Days, Savings Drop %."%string.
Proof.
  intro labels.
  pose proof (intervention_engine_contract (score_row stressed_signal) labels)
    as (Hfire & Hemi & _ & _ & _ & _ & _ & _ & _ & Htwo & _).
  assert (Hrule : first_match (score_row stressed_signal) = Some EmiShift).
  { apply (proj2 Hemi). split; [reflexivity | reflexivity]. }
  split; [exact Hrule|].
  split; [rewrite Hfire, Hrule; reflexivity|].
  rewrite (Htwo _ _ _ eq_refl). reflexivity.
Defined.

(** The autodebit rule wins over the tier rules, and the tier rules apply
    only when no signal rule does. *)
Example intervention_engine_order :
  let df := mkSignal "C010" 12 2 10 0 0 5 0 1 in
  fst (fst (intervention_engine (score_row df) []))
  = "Immediate proactive outreach + payment retry scheduling"%string.
Proof. reflexivity. Qed.

(** A quiet week scores 0, is Low and needs no action. *)
Example calm_week :
  risk_score (score_row calm_signal) == 0
  /\ risk_tier (score_row calm_signal) = Low
  /\ fst (fst (customer_recommendation (score_row calm_signal)))
     = "Continue monitoring"%string.
Proof. repeat split. Qed.

(** The rationale of the stressed week cites its two largest drivers. *)
Example stressed_week_rationale :
  snd (customer_recommendation (score_row stressed_signal))
  = "Recommended because key drivers this week are Salary Delay Days, Savings Drop %."%string.
Proof. reflexivity. Qed.

(** ** Out-of-domain records *)

(** C8 fails on the code: a record with negative day counts is not
    rejected; its negative counts are clamped to a contribution of 0 and a
    score and a tier come out. *)
Lemma out_of_domain_is_scored :
  in_domain negative_days_signal = false
  /\ contrib (score_row negative_days_signal) salary_delay_days == 0
  /\ contrib (score_row negative_days_signal) utility_payment_delay_days == 0
  /\ risk_score (score_row negative_days_signal) == 779 # 6000
  /\ risk_tier (score_row negative_days_signal) = Low.
Proof. repeat split. Qed.

Lemma clipped_zero x w : x <= 0 -> np_clip x 0 1 * w == 0.
Proof. intro H. rewrite (np_clip_below x H). ring. Qed.

Lemma clipped_full x w : 1 <= x -> np_clip x 0 1 * w == w.
Proof.
  intro H. assert (E : np_clip x 0 1 == 1).
  { unfold np_clip. Qminmax_cases; lra. }
  rewrite E. ring.
Qed.

(** A difference that is not positive is clipped to 0; one that wraps
    around is clipped to 1. *)
Lemma int_signal_clamped x k c w :
  0 < c ->
  (- 9223372036854775808 + k <= x <= k)%Z ->
  np_clip (inject_Z (int64_sub x k) / c) 0 1 * w == 0.
Proof.
  intros Hc Hx. apply clipped_zero.
  rewrite int64_sub_exact by lia.
  assert (H : inject_Z (x - k) <= inject_Z 0) by (rewrite <- Zle_Qle; lia).
  change (inject_Z 0) with 0 in H.
  apply Qle_shift_div_r; [exact Hc | lra].
Qed.

Lemma int_signal_wrapped x k c w :
  (0 < k <= 5)%Z -> 0 < c -> c <= 5 ->
  (- 9223372036854775808 <= x < - 9223372036854775808 + k)%Z ->
  np_clip (inject_Z (int64_sub x k) / c) 0 1 * w == w.
Proof.
  intros Hk Hc Hc5 Hx. apply clipped_full.
  assert (E : int64_sub x k = (x - k + 18446744073709551616)%Z).
  { unfold int64_sub, int64_wrap.
    replace (x - k + 9223372036854775808)%Z
      with ((x - k + 9223372036854775808 + 18446744073709551616)
            + (- 1) * 18446744073709551616)%Z by lia.
    rewrite Z.mod_add by lia. rewrite Z.mod_small by lia. lia. }
  rewrite E.
  assert (H : inject_Z 5 <= inject_Z (x - k + 18446744073709551616))
    by (rewrite <- Zle_Qle; lia).
  change (inject_Z 5) with 5 in H.
  apply Qle_shift_div_l; [exact Hc | lra].
Qed.

(** C8, amended.  The scorer inspects no range and rejects nothing: every
    record, inside the data model or not, gets a score in the unit interval
    and the tier of that score.  A salary delay of at most 3 days and a
    utility delay of at most 5 days, hence any negative day count that does
    not make the int64 subtraction wrap around, contribute exactly 0
    through the documented clips, and the record is scored exactly like the
    same record with both day counts 0.  Below -2^63 + 3 (salary) and
    -2^63 + 5 (utility) the subtraction wraps around and the signal
    contributes its full weight. *)
Theorem scorer_never_rejects (df : Signal) :
  (0 <= risk_score (score_row df) /\ risk_score (score_row df) <= 1)
  /\ risk_tier (score_row df) = _tier (risk_score (score_row df))
  /\ ((- 9223372036854775808 + 3 <= sig_salary_delay_days df <= 3)%Z ->
      contrib (score_row df) salary_delay_days == 0)
  /\ ((- 9223372036854775808 + 5 <= sig_utility_payment_delay_days df <= 5)%Z
      -> contrib (score_row df) utility_payment_delay_days == 0)
  /\ ((- 9223372036854775808 + 3 <= sig_salary_delay_days df <= 3)%Z ->
      (- 9223372036854775808 + 5 <= sig_utility_payment_delay_days df <= 5)%Z
      ->
      (forall f, contrib (score_row df) f
                 == contrib (score_row (with_day_counts df 0 0)) f)
      /\ risk_score (score_row df)
         == risk_score (score_row (with_day_counts df 0 0))
      /\ risk_tier (score_row df)
         = risk_tier (score_row (with_day_counts df 0 0)))
  /\ ((- 9223372036854775808 <= sig_salary_delay_days df
       < - 9223372036854775808 + 3)%Z ->
      contrib (score_row df) salary_delay_days == 0.18)
  /\ ((- 9223372036854775808 <= sig_utility_payment_delay_days df
       < - 9223372036854775808 + 5)%Z ->
      contrib (score_row df) utility_payment_delay_days == 0.14).
Proof.
  change (risk_score (score_row df)) with (np_clip (comp_sum df) 0 1).
  change (contrib (score_row df)) with (_risk_components df).
  split; [apply np_clip_unit|]. split; [reflexivity|].
  assert (Hsal : (- 9223372036854775808 + 3 <= sig_salary_delay_days df <= 3)%Z
                 -> _risk_components df salary_delay_days == 0).
  { intro H. apply int_signal_clamped; [reflexivity | exact H]. }
  assert (Hutil : (- 9223372036854775808 + 5
                   <= sig_utility_payment_delay_days df <= 5)%Z
                  -> _risk_components df utility_payment_delay_days == 0).
  { intro H. apply int_signal_clamped; [reflexivity | exact H]. }
  split; [exact Hsal|]. split; [exact Hutil|].
  split.
  { intros H1 H2.
    assert (Hall : forall f,
               _risk_components df f
               == _risk_components (with_day_counts df 0 0) f).
    { intro f. destruct f; try reflexivity.
      - rewrite (Hsal H1). reflexivity.
      - rewrite (Hutil H2). reflexivity. }
    assert (Hscore : np_clip (comp_sum df) 0 1
                     == np_clip (comp_sum (with_day_counts df 0 0)) 0 1).
    { apply np_clip_proper. rewrite !comp_sum_unfold.
      rewrite (Hall salary_delay_days), (Hall savings_drop_pct),
        (Hall discretionary_spend_change_pct),
        (Hall utility_payment_delay_days), (Hall lending_app_upi_txn_count),
        (Hall atm_withdrawal_spike_pct), (Hall failed_autodebit).
      reflexivity. }
    split; [exact Hall|]. split; [exact Hscore|].
    exact (tier_proper _ _ Hscore). }
  split.
  - intro H. apply int_signal_wrapped; try exact H; try lia;
      try reflexivity; discriminate.
  - intro H. apply int_signal_wrapped; try exact H; try lia;
      try reflexivity; discriminate.
Qed.

Lemma scorer_never_rejects_witness :
  (- 9223372036854775808 + 3
   <= sig_salary_delay_days negative_days_signal <= 3)%Z
  /\ contrib (score_row negative_days_signal) salary_delay_days == 0.
Proof.
  assert (H : (- 9223372036854775808 + 3
               <= sig_salary_delay_days negative_days_signal <= 3)%Z)
    by (cbn; lia).
  split; [exact H|].
  destruct (scorer_never_rejects negative_days_signal)
    as (_ & _ & Hsal & _).
  exact (Hsal H).
Defined.

(** At the edge of int64 the subtraction wraps around. *)
Example salary_delay_wraps :
  contrib (score_row (mkSignal "C009" 1 (- 9223372036854775808) 0 0 0 0 0 0))
          salary_delay_days == 0.18.
Proof. reflexivity. Qed.

(** ** Sums *)

Lemma fold_left_Qplus_acc l a : fold_left Qplus l a == a + Qsum l.
Proof.
  unfold Qsum. revert a. induction l as [|x l IH]; intro a; simpl.
  - ring.
  - rewrite (IH (a + x)), (IH (0 + x)). ring.
Qed.

Lemma Qsum_cons x l : Qsum (x :: l) == x + Qsum l.
Proof.
  unfold Qsum at 1. simpl. rewrite fold_left_Qplus_acc. ring.
Qed.

Lemma Qsum_nil : Qsum [] == 0.
Proof. reflexivity. Qed.

Lemma Qsquare_nonneg t : 0 <= t * t.
Proof. nra. Qed.

Lemma Qsum_nonneg l : Forall (fun x => 0 <= x) l -> 0 <= Qsum l.
Proof.
  induction 1 as [|x l Hx Hl IH].
  - rewrite Qsum_nil. lra.
  - rewrite Qsum_cons. lra.
Qed.

Lemma Qdot_cons x xs y ys : Qdot (x :: xs) (y :: ys) == x * y + Qdot xs ys.
Proof. unfold Qdot. cbn [combine map fst snd]. apply Qsum_cons. Qed.

Lemma sse_cons x xs y ys a b :
  sse (x :: xs) (y :: ys) a b
  == (y - (a * x + b)) * (y - (a * x + b)) + sse xs ys a b.
Proof. unfold sse. cbn [combine map]. apply Qsum_cons. Qed.

Lemma length_cons_Q {A} (x : A) l :
  inject_Z (Z.of_nat (List.length (x :: l)))
  == inject_Z (Z.of_nat (List.length l)) + 1.
Proof.
  cbn [List.length]. rewrite Nat2Z.inj_succ, <- Z.add_1_r, inject_Z_plus.
  reflexivity.
Qed.

(** ** Least squares *)

(** Moving from the line [(a, b)] to [(a', b')] changes the sum of squared
    residuals by two terms linear in the normal-equation residuals and a sum
    of squares. *)
Lemma sse_shift xs : forall ys a b a' b',
  List.length xs = List.length ys ->
  sse xs ys a' b'
  == sse xs ys a b
     - 2 * (a' - a) * (Qdot xs ys - a * Qdot xs xs - b * Qsum xs)
     - 2 * (b' - b)
       * (Qsum ys - a * Qsum xs
          - b * inject_Z (Z.of_nat (List.length xs)))
     + Qsum (map (fun x => ((a' - a) * x + (b' - b))
                           * ((a' - a) * x + (b' - b))) xs).
Proof.
  induction xs as [|x xs IH]; intros [|y ys] a b a' b' Hlen;
    try discriminate Hlen.
  - unfold sse, Qdot, Qsum. cbn [combine map fold_left List.length Z.of_nat].
    change (inject_Z 0) with 0. ring.
  - injection Hlen as Hlen.
    rewrite !sse_cons, (IH ys a b a' b' Hlen), !Qdot_cons, !Qsum_cons,
      length_cons_Q.
    cbn [map]. rewrite Qsum_cons. ring.
Qed.

Lemma Qsum_constant (l : list Q) c :
  (forall x, In x l -> x == c) ->
  Qsum l == c * inject_Z (Z.of_nat (List.length l)).
Proof.
  induction l as [|x l IH]; intro Hall.
  - rewrite Qsum_nil. cbn. ring.
  - rewrite Qsum_cons, length_cons_Q, IH, (Hall x).
    + ring.
    + left. reflexivity.
    + intros y Hy. apply Hall. right. exact Hy.
Qed.

Lemma Qdot_constant xs : forall ys c,
  List.length xs = List.length ys ->
  (forall y, In y ys -> y == c) ->
  Qdot xs ys == c * Qsum xs.
Proof.
  induction xs as [|x xs IH]; intros [|y ys] c Hlen Hall;
    try discriminate Hlen.
  - unfold Qdot. cbn [combine map]. rewrite Qsum_nil. ring.
  - injection Hlen as Hlen.
    rewrite Qdot_cons, Qsum_cons, (IH ys c Hlen), (Hall y).
    + ring.
    + left. reflexivity.
    + intros z Hz. apply Hall. right. exact Hz.
Qed.

Lemma Qdot_constant_l xs : forall ys c,
  List.length xs = List.length ys ->
  (forall x, In x xs -> x == c) ->
  Qdot xs ys == c * Qsum ys.
Proof.
  induction xs as [|x xs IH]; intros [|y ys] c Hlen Hall;
    try discriminate Hlen.
  - unfold Qdot. cbn [combine map]. rewrite Qsum_nil. ring.
  - injection Hlen as Hlen.
    rewrite Qdot_cons, Qsum_cons, (IH ys c Hlen), (Hall x).
    + ring.
    + left. reflexivity.
    + intros z Hz. apply Hall. right. exact Hz.
Qed.

Lemma Qsum_zero l : (forall x, In x l -> x == 0) -> Qsum l == 0.
Proof.
  intro Hall. rewrite (Qsum_constant l 0 Hall). ring.
Qed.

Lemma length_pos_Q {A} (x : A) l :
  0 < inject_Z (Z.of_nat (List.length (x :: l))).
Proof.
  change 0 with (inject_Z 0). rewrite <- Zlt_Qlt. cbn [List.length]. lia.
Qed.

(** *** The determinant of the normal equations *)

Lemma Qsum_sq_diff x xs :
  Qsum (map (fun y => (x - y) * (x - y)) xs)
  == inject_Z (Z.of_nat (List.length xs)) * (x * x) - 2 * x * Qsum xs
     + Qdot xs xs.
Proof.
  induction xs as [|y xs IH].
  - unfold Qdot, Qsum. cbn. ring.
  - cbn [map]. rewrite Qsum_cons, IH, length_cons_Q, Qsum_cons, Qdot_cons.
    ring.
Qed.

Lemma fit_den_cons x xs :
  fit_den (x :: xs)
  == fit_den xs + Qsum (map (fun y => (x - y) * (x - y)) xs).
Proof.
  unfold fit_den.
  rewrite length_cons_Q, Qdot_cons, Qsum_cons, Qsum_sq_diff. ring.
Qed.

Lemma Qsum_squares_nonneg x xs :
  0 <= Qsum (map (fun y => (x - y) * (x - y)) xs).
Proof.
  apply Qsum_nonneg, Forall_forall. intros q Hq.
  apply in_map_iff in Hq. destruct Hq as [y [<- _]].
  apply Qsquare_nonneg.
Qed.

Lemma fit_den_nonneg xs : 0 <= fit_den xs.
Proof.
  induction xs as [|x xs IH].
  - vm_compute. discriminate.
  - rewrite fit_den_cons. pose proof (Qsum_squares_nonneg x xs). lra.
Qed.

Lemma Qsum_squares_zero x xs :
  Qsum (map (fun y => (x - y) * (x - y)) xs) == 0 ->
  forall y, In y xs -> y == x.
Proof.
  induction xs as [|z xs IH]; intros Hz y Hy; [destruct Hy|].
  cbn [map] in Hz. rewrite Qsum_cons in Hz.
  pose proof (Qsquare_nonneg (x - z)) as H1.
  pose proof (Qsum_squares_nonneg x xs) as H2.
  destruct Hy as [<- | Hy].
  - assert (E : (x - z) * (x - z) == 0) by lra.
    destruct (Qmult_integral _ _ E); lra.
  - apply IH; [lra | exact Hy].
Qed.

(** The determinant vanishes only when all abscissae are equal. *)
Lemma fit_den_zero x xs :
  fit_den (x :: xs) == 0 -> forall y, In y (x :: xs) -> y == x.
Proof.
  intros E y [<- | Hy]; [reflexivity|].
  rewrite fit_den_cons in E.
  pose proof (fit_den_nonneg xs) as H1.
  pose proof (Qsum_squares_nonneg x xs) as H2.
  apply (Qsum_squares_zero x xs); [lra | exact Hy].
Qed.

Lemma polyfit1_determined xs ys :
  ~ fit_den xs == 0 ->
  polyfit1 xs ys
  = Some ((inject_Z (Z.of_nat (List.length xs)) * Qdot xs ys
           - Qsum xs * Qsum ys) / fit_den xs,
          (Qsum ys
           - (inject_Z (Z.of_nat (List.length xs)) * Qdot xs ys
              - Qsum xs * Qsum ys) / fit_den xs * Qsum xs)
          / inject_Z (Z.of_nat (List.length xs))).
Proof.
  intro Hden. unfold polyfit1.
  destruct (Qeq_bool (fit_den xs) 0) eqn:E; [|reflexivity].
  apply Qeq_bool_eq in E. contradiction.
Qed.

(** The line returned by [polyfit1] satisfies the normal equations. *)
Lemma polyfit1_normal xs ys a b :
  List.length xs = List.length ys ->
  polyfit1 xs ys = Some (a, b) ->
  Qdot xs ys - a * Qdot xs xs - b * Qsum xs == 0
  /\ Qsum ys - a * Qsum xs - b * inject_Z (Z.of_nat (List.length xs)) == 0.
Proof.
  intro Hlen. unfold polyfit1.
  destruct (Qeq_bool (fit_den xs) 0) eqn:Hden.
  - apply Qeq_bool_eq in Hden.
    destruct xs as [|x xs]; [discriminate|].
    destruct (Qeq_bool x 0) eqn:Hx; [discriminate|].
    apply Qeq_bool_neq in Hx.
    intro H. injection H as Ha Hb.
    pose proof (fit_den_zero x xs Hden) as Hall.
    pose proof (length_pos_Q x xs) as Hn.
    rewrite (Qdot_constant_l (x :: xs) ys x Hlen Hall).
    rewrite (Qdot_constant_l (x :: xs) (x :: xs) x eq_refl Hall).
    rewrite (Qsum_constant (x :: xs) x Hall).
    subst a b. clear Hden Hall.
    change (Z.pos (Pos.of_succ_nat (List.length xs)))
      with (Z.of_nat (List.length (x :: xs))).
    generalize dependent (inject_Z (Z.of_nat (List.length (x :: xs)))).
    intros n Hn.
    split; field; split; lra.
  - intro H. injection H as Ha Hb.
    apply Qeq_bool_neq in Hden.
    assert (Hn : ~ inject_Z (Z.of_nat (List.length xs)) == 0).
    { destruct xs as [|x xs]; [exfalso; apply Hden; reflexivity|].
      pose proof (length_pos_Q x xs). lra. }
    subst a b. unfold fit_den in *.
    generalize dependent (inject_Z (Z.of_nat (List.length xs))).
    intros n Hden Hn.
    split; field; auto.
Qed.

(** The line returned by [polyfit1] has the least sum of squared residuals
    among all lines. *)
Theorem polyfit1_least_squares xs ys slope intercept :
  List.length xs = List.length ys ->
  polyfit1 xs ys = Some (slope, intercept) ->
  forall a b, sse xs ys slope intercept <= sse xs ys a b.
Proof.
  intros Hlen Hfit a b.
  destruct (polyfit1_normal _ _ _ _ Hlen Hfit) as [Hx H1].
  rewrite (sse_shift xs ys slope intercept a b Hlen), Hx, H1.
  assert (0 <= Qsum (map (fun x => ((a - slope) * x + (b - intercept))
                                   * ((a - slope) * x + (b - intercept)))
                         xs)) as Hsq.
  { apply Qsum_nonneg, Forall_forall. intros q Hq.
    apply in_map_iff in Hq. destruct Hq as [x [<- _]].
    apply Qsquare_nonneg. }
  lra.
Qed.

(** The line fitted to constant scores at two distinct weeks at least is
    flat. *)
Lemma polyfit1_constant xs ys c slope intercept :
  List.length xs = List.length ys ->
  (forall y, In y ys -> y == c) ->
  ~ fit_den xs == 0 ->
  polyfit1 xs ys = Some (slope, intercept) ->
  slope == 0.
Proof.
  intros Hlen Hall Hden Hfit.
  destruct (polyfit1_normal _ _ _ _ Hlen Hfit) as [E1 E2].
  rewrite (Qdot_constant xs ys c Hlen Hall) in E1.
  rewrite (Qsum_constant ys c Hall), <- Hlen in E2.
  unfold fit_den in Hden.
  revert E1 E2 Hden.
  generalize (inject_Z (Z.of_nat (List.length xs))) (Qdot xs xs) (Qsum xs).
  intros n sxx sx E1 E2 Hden.
  assert (Hprod : slope * (n * sxx - sx * sx) == 0).
  { setoid_replace (slope * (n * sxx - sx * sx))
      with (sx * (c * n - slope * sx - intercept * n)
            - n * (c * sx - slope * sxx - intercept * sx)) by ring.
    rewrite E1, E2. ring. }
  destruct (Qmult_integral _ _ Hprod) as [H | H]; [exact H | contradiction].
Qed.

(** ** Trend classifier *)

Lemma StronglySorted_any {A} (l : list A) :
  StronglySorted (fun _ _ => True) l.
Proof.
  induction l as [|x l IH]; constructor.
  - exact IH.
  - apply Forall_forall. intros; exact I.
Qed.

Lemma sort_values_week_perm group :
  Permutation (sort_values_week group) group.
Proof. apply sorted_by_perm. Qed.

Lemma sort_values_week_sorted group :
  StronglySorted (fun p q => (fst p <= fst q)%Z) (sort_values_week group).
Proof.
  apply StronglySorted_impl
    with (R := stable_lt week_asc (fun _ _ => True)).
  - unfold stable_lt, week_asc. intros x y [H | (_ & H & _)].
    + apply Z.ltb_lt in H. lia.
    + apply Z.ltb_ge in H. exact H.
  - apply sorted_by_stable; [|apply StronglySorted_any].
    unfold stable_lt, week_asc. intros x y z Hxy Hyz.
    destruct (fst x <? fst z)%Z eqn:E; [left; reflexivity|].
    right. split; [reflexivity|]. split; [|exact I].
    apply Z.ltb_ge in E. apply Z.ltb_ge.
    destruct Hxy as [H1 | (_ & H1 & _)];
      [apply Z.ltb_lt in H1 | apply Z.ltb_ge in H1];
      destruct Hyz as [H2 | (_ & H2 & _)];
      [apply Z.ltb_lt in H2 | apply Z.ltb_ge in H2
      |apply Z.ltb_lt in H2 | apply Z.ltb_ge in H2]; lia.
Qed.

Lemma tail_n_length {A} n (l : list A) :
  List.length (tail_n n l) = Nat.min n (List.length l).
Proof. unfold tail_n. rewrite length_skipn. lia. Qed.

(** [tail(n)] keeps the end of the frame. *)
Lemma tail_n_suffix {A} n (l : list A) :
  exists earlier, l = earlier ++ tail_n n l.
Proof.
  exists (firstn (List.length l - n) l). unfold tail_n.
  symmetry. apply firstn_skipn.
Qed.

Lemma NoDup_skipn {A} n (l : list A) : NoDup l -> NoDup (skipn n l).
Proof.
  revert l. induction n as [|n IH]; intros [|x l] Hn; simpl;
    try assumption.
  inversion Hn; subst. apply IH. assumption.
Qed.

Lemma Qsquare_pos t : ~ t == 0 -> 0 < t * t.
Proof.
  intro Ht. destruct (Q_dec t 0) as [[H | H] | H]; [nra | nra | contradiction].
Qed.

Lemma inject_Z_diff a b : a <> b -> ~ inject_Z a - inject_Z b == 0.
Proof.
  intros Hab H. apply Hab. apply inject_Z_injective. lra.
Qed.

(** Two observations at least, at distinct weeks, determine the fit. *)
Lemma fit_den_distinct (recent : History) :
  NoDup (map fst recent) ->
  (2 <= List.length recent)%nat ->
  ~ fit_den (weeks_of recent) == 0.
Proof.
  intros Hnd Hlen E.
  destruct recent as [|[w1 s1] [|[w2 s2] rest]]; cbn [List.length] in Hlen;
    try lia.
  unfold weeks_of in E. cbn [map fst] in E, Hnd.
  assert (Hw : inject_Z w2 == inject_Z w1).
  { apply (fit_den_zero _ _ E). right. left. reflexivity. }
  assert (E2 : w2 = w1) by (apply inject_Z_injective; exact Hw).
  subst w2.
  inversion Hnd as [|? ? Hn1 _]; subst. apply Hn1. left. reflexivity.
Qed.

Lemma recent_distinct n (group : History) :
  NoDup (map fst group) ->
  NoDup (map fst (tail_n n (sort_values_week group))).
Proof.
  intro Hnd. unfold tail_n. rewrite <- skipn_map. apply NoDup_skipn.
  apply (Permutation_NoDup
           (Permutation_map fst
              (Permutation_sym (sort_values_week_perm group)))).
  exact Hnd.
Qed.

Lemma recent_length n (group : History) :
  List.length (tail_n n (sort_values_week group))
  = Nat.min n (List.length group).
Proof.
  rewrite tail_n_length. unfold sort_values_week.
  rewrite sorted_by_length. reflexivity.
Qed.

Lemma polyfit1_defined (recent : History) :
  NoDup (map fst recent) ->
  (2 <= List.length recent)%nat ->
  exists slope intercept,
    polyfit1 (weeks_of recent) (scores_of recent) = Some (slope, intercept).
Proof.
  intros Hnd Hlen.
  rewrite (polyfit1_determined _ _ (fit_den_distinct recent Hnd Hlen)).
  eexists; eexists; reflexivity.
Qed.

Lemma trend_label_of_slope polyfit group slope intercept :
  polyfit (weeks_of (tail_n 3 (sort_values_week group)))
          (scores_of (tail_n 3 (sort_values_week group)))
  = Some (slope, intercept) ->
  (0.015 < slope -> _risk_trend_label_with polyfit group = Some Rising)
  /\ (slope < - 0.015 -> _risk_trend_label_with polyfit group = Some Falling)
  /\ (- 0.015 <= slope /\ slope <= 0.015 ->
      _risk_trend_label_with polyfit group = Some Stable).
Proof.
  intro Hfit. unfold _risk_trend_label_with. rewrite Hfit.
  case_Qltb 0.015 slope; [|case_Qltb slope (- 0.015)];
    repeat split; intros; try reflexivity; exfalso; lra.
Qed.

(** A slope within [tol] of a reference value is on the same side of the
    thresholds as the reference, outside a margin of [tol]. *)
Lemma trend_label_near polyfit group slope intercept a tol :
  polyfit (weeks_of (tail_n 3 (sort_values_week group)))
          (scores_of (tail_n 3 (sort_values_week group)))
  = Some (slope, intercept) ->
  Qabs (slope - a) <= tol ->
  (0.015 + tol < a -> _risk_trend_label_with polyfit group = Some Rising)
  /\ (a < - 0.015 - tol ->
      _risk_trend_label_with polyfit group = Some Falling)
  /\ (- 0.015 + tol <= a /\ a <= 0.015 - tol ->
      _risk_trend_label_with polyfit group = Some Stable).
Proof.
  intros Hfit Hnear.
  apply Qabs_Qle_condition in Hnear. destruct Hnear as [Hlo Hhi].
  destruct (trend_label_of_slope polyfit group slope intercept Hfit)
    as (Hr & Hf & Hs).
  split; [intro H; apply Hr; lra|].
  split; [intro H; apply Hf; lra|].
  intros [H1 H2]. apply Hs. split; lra.
Qed.

Lemma sort_two w1 s1 w2 s2 :
  (w1 < w2)%Z ->
  tail_n 3 (sort_values_week [(w1, s1); (w2, s2)]) = [(w1, s1); (w2, s2)].
Proof.
  intro Hlt.
  unfold sort_values_week, sorted_by, tail_n, week_asc.
  cbn [fold_right insert_by fst].
  replace (w2 <? w1)%Z with false by (symmetry; apply Z.ltb_ge; lia).
  reflexivity.
Qed.

(** Two observations: the fitted line passes through both points. *)
Lemma polyfit1_two_points w1 s1 w2 s2 :
  (w1 < w2)%Z ->
  exists slope intercept,
    polyfit1 (weeks_of (tail_n 3 (sort_values_week [(w1, s1); (w2, s2)])))
             (scores_of (tail_n 3 (sort_values_week [(w1, s1); (w2, s2)])))
    = Some (slope, intercept)
    /\ slope == (s2 - s1) / (inject_Z w2 - inject_Z w1).
Proof.
  intro Hlt. rewrite (sort_two w1 s1 w2 s2 Hlt).
  assert (Hw : ~ inject_Z w2 - inject_Z w1 == 0)
    by (apply inject_Z_diff; lia).
  assert (Hden : ~ fit_den (weeks_of [(w1, s1); (w2, s2)]) == 0).
  { apply fit_den_distinct; [|cbn; lia].
    cbn [map fst]. constructor; [|constructor; [intros []|constructor]].
    intros [H | []]. lia. }
  rewrite (polyfit1_determined _ _ Hden).
  eexists; eexists. split; [reflexivity|].
  unfold fit_den, weeks_of, scores_of, Qdot, Qsum in *.
  cbn [map combine fold_left fst snd List.length Z.of_nat
       Pos.of_succ_nat Pos.succ] in *.
  change (inject_Z 2) with 2 in *.
  field. split; [exact Hw|].
  intro H. apply Hden. nra.
Qed.

(** C7 fails on the code: a history of two observations is fitted exactly by
    the line through them, and a steep pair is labelled Rising. *)
Lemma short_history_not_stable :
  (List.length rising_pair < 3)%nat
  /\ _risk_trend_label rising_pair = Some Rising
  /\ ~ (forall group : History,
          (List.length group < 3)%nat ->
          _risk_trend_label group = Some Stable).
Proof.
  split; [cbn; lia|]. split; [reflexivity|].
  intro H. specialize (H rising_pair). cbn in H.
  assert (Hlen : (2 < 3)%nat) by lia.
  specialize (H Hlen). discriminate H.
Qed.

(** C7, amended.  The classifier sorts the history by week and keeps the
    last three observations of the sorted history (all of them when there
    are fewer), hands their weeks and scores to [np.polyfit] and labels the
    slope that comes back: Rising above 0.015, Falling below -0.015, Stable
    in between; when the fit raises, so does the classifier.  There is no
    test on the number of observations.  The exact least-squares line
    minimises the sum of squared residuals of score against week and is
    determined for every history of at least two observations at distinct
    weeks; a computed slope within [tol] of the exact one gives the label of
    the exact slope whenever that slope is not within [tol] of a threshold.
    For a history of exactly two observations the exact slope is the
    difference quotient of the two points, so such a history is not Stable
    in general. *)
Theorem trend_classifier_contract
  (polyfit : list Q -> list Q -> option (Q * Q)) (group : History) :
  let sorted := sort_values_week group in
  let recent := tail_n 3 sorted in
  let weeks := map (fun p => inject_Z (fst p)) recent in
  let scores := map snd recent in
  (Permutation sorted group
   /\ StronglySorted (fun p q => (fst p <= fst q)%Z) sorted
   /\ (exists earlier, sorted = earlier ++ recent)
   /\ List.length recent = Nat.min 3 (List.length group))
  /\ (polyfit weeks scores = None ->
      _risk_trend_label_with polyfit group = None)
  /\ (forall slope intercept,
        polyfit weeks scores = Some (slope, intercept) ->
        (0.015 < slope -> _risk_trend_label_with polyfit group = Some Rising)
        /\ (slope < - 0.015 ->
            _risk_trend_label_with polyfit group = Some Falling)
        /\ (- 0.015 <= slope /\ slope <= 0.015 ->
            _risk_trend_label_with polyfit group = Some Stable))
  /\ (forall a b,
        polyfit1 weeks scores = Some (a, b) ->
        forall a' b', sse weeks scores a b <= sse weeks scores a' b')
  /\ (NoDup (map fst group) -> (2 <= List.length group)%nat ->
      exists a b, polyfit1 weeks scores = Some (a, b))
  /\ (forall a b slope intercept tol,
        polyfit1 weeks scores = Some (a, b) ->
        polyfit weeks scores = Some (slope, intercept) ->
        Qabs (slope - a) <= tol ->
        (0.015 + tol < a ->
         _risk_trend_label_with polyfit group = Some Rising)
        /\ (a < - 0.015 - tol ->
            _risk_trend_label_with polyfit group = Some Falling)
        /\ (- 0.015 + tol <= a /\ a <= 0.015 - tol ->
            _risk_trend_label_with polyfit group = Some Stable))
  /\ (forall w1 s1 w2 s2,
        group = [(w1, s1); (w2, s2)] -> (w1 < w2)%Z ->
        exists a b,
          polyfit1 weeks scores = Some (a, b)
          /\ a == (s2 - s1) / (inject_Z w2 - inject_Z w1)).
Proof.
  cbv zeta.
  change (map (fun p : Z * Q => inject_Z (fst p))
              (tail_n 3 (sort_values_week group)))
    with (weeks_of (tail_n 3 (sort_values_week group))).
  change (map snd (tail_n 3 (sort_values_week group)))
    with (scores_of (tail_n 3 (sort_values_week group))).
  split.
  { split; [apply sort_values_week_perm|].
    split; [apply sort_values_week_sorted|].
    split; [apply tail_n_suffix | apply recent_length]. }
  split.
  { intro Hnone. unfold _risk_trend_label_with. rewrite Hnone. reflexivity. }
  split; [intros slope intercept; apply trend_label_of_slope|].
  split.
  { intros a b Hfit. apply polyfit1_least_squares; [|exact Hfit].
    unfold weeks_of, scores_of. rewrite !length_map. reflexivity. }
  split.
  { intros Hnd Hge. apply polyfit1_defined.
    - apply recent_distinct, Hnd.
    - rewrite recent_length. lia. }
  split.
  { intros a b slope intercept tol _ Hfit Hnear.
    exact (trend_label_near polyfit group slope intercept a tol Hfit Hnear). }
  intros w1 s1 w2 s2 -> Hlt. apply polyfit1_two_points, Hlt.
Qed.

Lemma trend_classifier_contract_witness :
  exists a b,
    polyfit1
      (map (fun p => inject_Z (fst p))
           (tail_n 3 (sort_values_week rising_history)))
      (map snd (tail_n 3 (sort_values_week rising_history)))
    = Some (a, b)
    /\ Qabs (a - a) <= 0
    /\ 0.015 + 0 < a
    /\ _risk_trend_label_with polyfit1 rising_history = Some Rising.
Proof.
  eexists; eexists.
  split; [vm_compute; reflexivity|].
  split; [vm_compute; discriminate|].
  split; [vm_compute; reflexivity|].
  destruct (trend_classifier_contract polyfit1 rising_history)
    as (_ & _ & _ & _ & _ & Hnear & _).
  refine (proj1 (Hnear _ _ _ _ 0 _ _ _) _);
    [vm_compute; reflexivity | vm_compute; reflexivity
    | vm_compute; discriminate | vm_compute; reflexivity].
Defined.

(** Three weeks of a constant score are Stable; the sample history, whose
    last three weeks rise by about 0.2 a week, is Rising; a single
    observation is fitted by the line of least norm through it. *)
Example trend_constant :
  _risk_trend_label [(1%Z, 0.30); (2%Z, 0.30); (3%Z, 0.30)] = Some Stable.
Proof. reflexivity. Qed.

Example trend_rising : _risk_trend_label rising_history = Some Rising.
Proof. reflexivity. Qed.

Example trend_single_observation :
  _risk_trend_label single_week = Some Rising.
Proof. reflexivity. Qed.

(** ** Stability estimator *)

Lemma sample_var_nonneg l : (2 <= List.length l)%nat -> 0 <= sample_var l.
Proof.
  intro Hlen. unfold sample_var.
  set (n := inject_Z (Z.of_nat (List.length l))).
  assert (Hn : 0 < n - 1).
  { assert (inject_Z 2 <= n) by (unfold n; rewrite <- Zle_Qle; lia).
    change (inject_Z 2) with 2 in *. lra. }
  apply Qle_shift_div_l; [exact Hn|].
  rewrite Qmult_0_l. apply Qsum_nonneg, Forall_forall.
  intros q Hq. apply in_map_iff in Hq. destruct Hq as [x [<- _]].
  apply Qsquare_nonneg.
Qed.

Lemma risk_var_nonneg cust_df : 0 <= risk_var cust_df.
Proof.
  unfold risk_var.
  destruct (2 <=? List.length (last4_scores cust_df))%nat eqn:E.
  - apply sample_var_nonneg, Nat.leb_le, E.
  - lra.
Qed.

Lemma Q2R_zero : Q2R 0 = 0%R.
Proof. unfold Q2R. simpl. lra. Qed.

(** The standard deviation is the square root of the variance that the
    executable form compares. *)
Lemma risk_std_sqrt cust_df : risk_std cust_df = sqrt (Q2R (risk_var cust_df)).
Proof.
  unfold risk_std, risk_var.
  destruct (2 <=? List.length (last4_scores cust_df))%nat.
  - reflexivity.
  - rewrite Q2R_zero, sqrt_0. reflexivity.
Qed.

Lemma sqrt_lt_threshold (v t : R) :
  (0 <= v)%R -> (0 < t)%R -> (sqrt v < t <-> v < t * t)%R.
Proof.
  intros Hv Ht.
  pose proof (sqrt_pos v) as Hs. pose proof (sqrt_sqrt v Hv) as Hss.
  split; intro H; nra.
Qed.

Lemma sqrt_le_threshold (v t : R) :
  (0 <= v)%R -> (0 < t)%R -> (sqrt v <= t <-> v <= t * t)%R.
Proof.
  intros Hv Ht.
  pose proof (sqrt_pos v) as Hs. pose proof (sqrt_sqrt v Hv) as Hss.
  split; intro H; nra.
Qed.

Lemma Q2R_high_threshold : Q2R (0.05 * 0.05) = (0.05 * 0.05)%R.
Proof. unfold Q2R. simpl. lra. Qed.

Lemma Q2R_medium_threshold : Q2R (0.12 * 0.12) = (0.12 * 0.12)%R.
Proof. unfold Q2R. simpl. lra. Qed.

Lemma std_below_high cust_df :
  (risk_std cust_df < 0.05)%R <-> risk_var cust_df < 0.05 * 0.05.
Proof.
  rewrite risk_std_sqrt.
  assert (Hv : (0 <= Q2R (risk_var cust_df))%R).
  { rewrite <- Q2R_zero. apply Qle_Rle, risk_var_nonneg. }
  rewrite sqrt_lt_threshold by (lra || exact Hv).
  rewrite <- Q2R_high_threshold. split; [apply Rlt_Qlt | apply Qlt_Rlt].
Qed.

Lemma std_within_medium cust_df :
  (risk_std cust_df <= 0.12)%R <-> risk_var cust_df <= 0.12 * 0.12.
Proof.
  rewrite risk_std_sqrt.
  assert (Hv : (0 <= Q2R (risk_var cust_df))%R).
  { rewrite <- Q2R_zero. apply Qle_Rle, risk_var_nonneg. }
  rewrite sqrt_le_threshold by (lra || exact Hv).
  rewrite <- Q2R_medium_threshold. split; [apply Rle_Qle | apply Qle_Rle].
Qed.

(** The executable label is the label the source selects from the standard
    deviation. *)
Theorem stability_label_refines cust_df :
  stability_label cust_df = stability_label_R cust_df.
Proof.
  unfold stability_label, stability_label_R.
  destruct (Rlt_dec (risk_std cust_df) 0.05) as [Hh | Hh].
  - apply std_below_high in Hh. apply Qltb_lt in Hh. rewrite Hh. reflexivity.
  - rewrite std_below_high in Hh.
    case_Qltb (risk_var cust_df) (0.05 * 0.05); [contradiction|].
    destruct (Rle_dec (risk_std cust_df) 0.12) as [Hm | Hm].
    + apply std_within_medium in Hm. apply Qleb_le in Hm. rewrite Hm.
      reflexivity.
    + rewrite std_within_medium in Hm.
      case_Qleb (risk_var cust_df) (0.12 * 0.12); [contradiction|].
      reflexivity.
Qed.










(** The sample history has an exact standard deviation of 0.07. *)
Example stability_spiky :
  stability_label spiky_history = "Medium stability"%string.
Proof. reflexivity. Qed.

(** Four weeks with a sample standard deviation of about 0.07. *)
Example stability_noisy :
  stability_label noisy_history = "Medium stability"%string.
Proof. reflexivity. Qed.

(** * Further properties *)

(** ** Clipping *)

(** X1.  With ordered bounds [_clip] returns a value between the bounds,
    returns the argument itself when it lies between them, the bound when it
    lies outside, and agrees with [np.clip]; with the bounds in the wrong
    order it returns the lower bound where [np.clip] returns the upper. *)
Theorem clip_contract (val lo hi : Q) :
  (lo <= hi ->
   lo <= _clip val lo hi /\ _clip val lo hi <= hi
   /\ (lo <= val /\ val <= hi -> _clip val lo hi == val)
   /\ (val <= lo -> _clip val lo hi == lo)
   /\ (hi <= val -> _clip val lo hi == hi)
   /\ _clip val lo hi == np_clip val lo hi)
  /\ (hi < lo -> _clip val lo hi == lo /\ np_clip val lo hi == hi).
Proof.
  unfold _clip, np_clip. split.
  - intro Hb. repeat split; try intros [? ?]; intros;
      Qminmax_cases; lra.
  - intro Hb. split; Qminmax_cases; lra.
Qed.

Lemma clip_contract_witness :
  - 5 <= 40 /\ _clip (473 # 10) (- 5) 40 == 40.
Proof.
  assert (H : - 5 <= 40) by (vm_compute; discriminate).
  split; [exact H|].
  destruct (proj1 (clip_contract (473 # 10) (- 5) 40) H)
    as (_ & _ & _ & _ & Hhi & _).
  apply Hhi. vm_compute; discriminate.
Defined.

(** ** Monotonicity of the scorer *)

Lemma np_clip_monotone x y : x <= y -> np_clip x 0 1 <= np_clip y 0 1.
Proof. intro H. unfold np_clip. Qminmax_cases; lra. Qed.

Lemma Qdiv_le_const x y c : 0 < c -> x <= y -> x / c <= y / c.
Proof.
  intros Hc H. unfold Qdiv. apply Qmult_le_compat_r; [exact H|].
  apply Qlt_le_weak, Qinv_lt_0_compat, Hc.
Qed.

Lemma linear_monotone df1 df2 f :
  no_wraparound df1 -> no_wraparound df2 ->
  more_stressed df1 df2 -> linear f df1 <= linear f df2.
Proof.
  intros Hw1 Hw2 (H1 & H2 & H3 & H4 & H5 & H6 & H7).
  destruct (linear_exact df1 Hw1) as (Ea1 & Eb1 & Ec1).
  destruct (linear_exact df2 Hw2) as (Ea2 & Eb2 & Ec2).
  rewrite Zle_Qle in H1, H4, H5, H7.
  destruct f;
    [rewrite Ea1, Ea2 | unfold linear | unfold linear | rewrite Eb1, Eb2
    |rewrite Ec1, Ec2 | unfold linear | unfold linear];
    try assumption; apply Qdiv_le_const; try reflexivity; lra.
Qed.

Lemma component_monotone df1 df2 f :
  no_wraparound df1 -> no_wraparound df2 ->
  more_stressed df1 df2 ->
  _risk_components df1 f <= _risk_components df2 f.
Proof.
  intros Hw1 Hw2 H. pose proof (linear_monotone df1 df2 f Hw1 Hw2 H) as Hl.
  destruct f; unfold _risk_components, WEIGHTS;
    try (apply np_clip_monotone in Hl; lra).
  lra.
Qed.

(** X2.  Among records whose integer signals do not make the int64
    subtractions of the scorer wrap around, a record that is at least as
    stressed in every signal has every contribution, the risk score and the
    tier at least as high. *)
Theorem scorer_monotone (df1 df2 : Signal)
  (Hwrap1 : no_wraparound df1) (Hwrap2 : no_wraparound df2)
  (Hmore : more_stressed df1 df2) :
  (forall f, contrib (score_row df1) f <= contrib (score_row df2) f)
  /\ risk_score (score_row df1) <= risk_score (score_row df2)
  /\ tier_le (risk_tier (score_row df1)) (risk_tier (score_row df2)).
Proof.
  pose proof (fun f => component_monotone df1 df2 f Hwrap1 Hwrap2)
    as Hcomp.
  assert (Hscore : np_clip (comp_sum df1) 0 1 <= np_clip (comp_sum df2) 0 1).
  { apply np_clip_monotone.
    rewrite !comp_sum_unfold.
    pose proof (Hcomp salary_delay_days Hmore).
    pose proof (Hcomp savings_drop_pct Hmore).
    pose proof (Hcomp discretionary_spend_change_pct Hmore).
    pose proof (Hcomp utility_payment_delay_days Hmore).
    pose proof (Hcomp lending_app_upi_txn_count Hmore).
    pose proof (Hcomp atm_withdrawal_spike_pct Hmore).
    pose proof (Hcomp failed_autodebit Hmore).
    lra. }
  split; [intro f; apply Hcomp, Hmore|].
  split; [exact Hscore|].
  exact (tier_monotone _ _ Hscore).
Qed.

Lemma scorer_monotone_witness :
  no_wraparound calm_signal
  /\ no_wraparound stressed_signal
  /\ more_stressed calm_signal stressed_signal
  /\ risk_score (score_row calm_signal)
     <= risk_score (score_row stressed_signal).
Proof.
  assert (H1 : no_wraparound calm_signal)
    by (unfold no_wraparound; cbn; lia).
  assert (H2 : no_wraparound stressed_signal)
    by (unfold no_wraparound; cbn; lia).
  assert (H : more_stressed calm_signal stressed_signal).
  { unfold more_stressed. cbn. repeat split; try lia; discriminate. }
  split; [exact H1|]. split; [exact H2|]. split; [exact H|].
  apply (scorer_monotone calm_signal stressed_signal H1 H2 H).
Defined.

(** ** Rows built by the generator *)

Lemma clip_between val lo hi :
  lo <= hi -> lo <= _clip val lo hi /\ _clip val lo hi <= hi.
Proof. intro Hb. unfold _clip. split; Qminmax_cases; lra. Qed.

Lemma clip_int_between val lo hi :
  (lo <= hi)%Z -> (lo <= _clip_int val lo hi <= hi)%Z.
Proof. unfold _clip_int. lia. Qed.

Lemma round_half_even_near x :
  round_half_even x = Qfloor x
  \/ (round_half_even x = (Qfloor x + 1)%Z
      /\ inject_Z (Qfloor x) + (1 # 2) <= x).
Proof.
  unfold round_half_even.
  case_Qltb (x - inject_Z (Qfloor x)) (1 # 2); [left; reflexivity|].
  case_Qltb (1 # 2) (x - inject_Z (Qfloor x)); [right; split; [reflexivity | lra]|].
  destruct (Z.even (Qfloor x)); [left; reflexivity|].
  right. split; [reflexivity | lra].
Qed.

(** Rounding stays between integer bounds. *)
Lemma round_half_even_between x (lo hi : Z) :
  inject_Z lo <= x -> x <= inject_Z hi ->
  (lo <= round_half_even x <= hi)%Z.
Proof.
  intros Hlo Hhi.
  assert (Hf1 : (lo <= Qfloor x)%Z).
  { rewrite <- (Qfloor_Z lo). apply Qfloor_resp_le, Hlo. }
  assert (Hf2 : (Qfloor x <= hi)%Z).
  { rewrite <- (Qfloor_Z hi). apply Qfloor_resp_le, Hhi. }
  destruct (round_half_even_near x) as [-> | [-> Hhalf]]; [lia|].
  split; [lia|].
  destruct (Z.eq_dec (Qfloor x) hi) as [E | E]; [|lia].
  exfalso. rewrite E in Hhalf. lra.
Qed.

(** Rounding to two decimals stays between bounds that have at most two
    decimals themselves. *)
Lemma py_round2_between x lo hi (zlo zhi : Z) :
  lo * 100 == inject_Z zlo -> hi * 100 == inject_Z zhi ->
  lo <= x -> x <= hi ->
  lo <= py_round2 x /\ py_round2 x <= hi.
Proof.
  intros Elo Ehi Hlo Hhi. unfold py_round2.
  assert (H1 : inject_Z zlo <= x * 100).
  { rewrite <- Elo. apply Qmult_le_compat_r; [exact Hlo | discriminate]. }
  assert (H2 : x * 100 <= inject_Z zhi).
  { rewrite <- Ehi. apply Qmult_le_compat_r; [exact Hhi | discriminate]. }
  destruct (round_half_even_between _ _ _ H1 H2) as [Ha Hb].
  rewrite Zle_Qle in Ha, Hb. split.
  - apply Qle_shift_div_l; [reflexivity|]. rewrite Elo. exact Ha.
  - apply Qle_shift_div_r; [reflexivity|]. rewrite Ehi. exact Hb.
Qed.

Lemma np_clip_upper_inactive x : x <= 1 -> np_clip x 0 1 == Qmax x 0.
Proof. intro H. unfold np_clip. Qminmax_cases; lra. Qed.

(** The ranges that the generator clips to. *)
Lemma generated_signal_ranges cid wk d :
  let df := generated_signal cid wk d in
  (0 <= sig_salary_delay_days df <= 7)%Z
  /\ (- 5 <= sig_savings_drop_pct df /\ sig_savings_drop_pct df <= 40)
  /\ (- 70 <= sig_discretionary_spend_change_pct df
      /\ sig_discretionary_spend_change_pct df <= 30)
  /\ (0 <= sig_utility_payment_delay_days df <= 10)%Z
  /\ (0 <= sig_lending_app_upi_txn_count df <= 8)%Z
  /\ (0 <= sig_atm_withdrawal_spike_pct df
      /\ sig_atm_withdrawal_spike_pct df <= 60)
  /\ flag_ok df.
Proof.
  cbn -[_clip _clip_int py_round2 Z.le].
  split; [apply clip_int_between; lia|].
  split.
  { destruct (clip_between (draw_savings_drop_pct d) (- 5) 40) as [H1 H2];
      [discriminate|].
    apply (py_round2_between _ _ _ (- 500) 4000);
      [reflexivity | reflexivity | exact H1 | exact H2]. }
  split.
  { destruct (clip_between (draw_discretionary_spend_change_pct d) (- 70) 30)
      as [H1 H2]; [discriminate|].
    apply (py_round2_between _ _ _ (- 7000) 3000);
      [reflexivity | reflexivity | exact H1 | exact H2]. }
  split; [apply clip_int_between; lia|].
  split; [apply clip_int_between; lia|].
  split.
  { destruct (clip_between (draw_atm_withdrawal_spike_pct d) 0 60)
      as [H1 H2]; [discriminate|].
    apply (py_round2_between _ _ _ 0 6000);
      [reflexivity | reflexivity | exact H1 | exact H2]. }
  unfold flag_ok. cbn. destruct (draw_failed d); [right | left]; reflexivity.
Qed.

Lemma linear_at_most_one df :
  (0 <= sig_salary_delay_days df <= 7)%Z ->
  sig_savings_drop_pct df <= 40 ->
  - 70 <= sig_discretionary_spend_change_pct df ->
  (0 <= sig_utility_payment_delay_days df <= 10)%Z ->
  (0 <= sig_lending_app_upi_txn_count df <= 8)%Z ->
  sig_atm_withdrawal_spike_pct df <= 60 ->
  flag_ok df ->
  forall f, linear f df <= 1.
Proof.
  intros [L1 H1] H2 H3 [L4 H4] [L5 H5] H6 H7 f.
  assert (Hw : no_wraparound df) by (unfold no_wraparound; lia).
  destruct (linear_exact df Hw) as (Ea & Eb & Ec).
  rewrite Zle_Qle in H1, H4, H5.
  change (inject_Z 7) with 7 in H1. change (inject_Z 10) with 10 in H4.
  change (inject_Z 8) with 8 in H5.
  destruct f;
    [rewrite Ea | unfold linear | unfold linear | rewrite Eb
    |rewrite Ec | unfold linear | unfold linear];
    try (apply Qle_shift_div_r; [reflexivity | lra]).
  destruct H7 as [-> | ->]; discriminate.
Qed.

(** X3.  Whatever is drawn, the row that the generator appends lies inside
    the data model: day and transaction counts within 0..7, 0..10 and 0..8,
    savings drop within -5..40, spend change within -70..30, ATM spike
    within 0..60, flag 0 or 1.  On such a row no normalised signal exceeds
    1, so every contribution is max(linear, 0) times the weight and the
    risk score is the plain sum of the contributions. *)
Theorem generated_rows_in_model (cid : string) (wk : Z) (d : Draw) :
  let df := generated_signal cid wk d in
  (0 <= sig_salary_delay_days df <= 7)%Z
  /\ (- 5 <= sig_savings_drop_pct df /\ sig_savings_drop_pct df <= 40)
  /\ (- 70 <= sig_discretionary_spend_change_pct df
      /\ sig_discretionary_spend_change_pct df <= 30)
  /\ (0 <= sig_utility_payment_delay_days df <= 10)%Z
  /\ (0 <= sig_lending_app_upi_txn_count df <= 8)%Z
  /\ (0 <= sig_atm_withdrawal_spike_pct df
      /\ sig_atm_withdrawal_spike_pct df <= 60)
  /\ in_domain df = true
  /\ (forall f, linear f df <= 1)
  /\ (forall f, contrib (score_row df) f == Qmax (linear f df) 0 * WEIGHTS f)
  /\ risk_score (score_row df) == comp_sum df.
Proof.
  intro df.
  destruct (generated_signal_ranges cid wk d)
    as (Hs & Hv & Hd & Hu & Hl & Ha & Hf).
  fold df in Hs, Hv, Hd, Hu, Hl, Ha, Hf.
  assert (Hlin : forall f, linear f df <= 1).
  { apply linear_at_most_one; tauto. }
  split; [exact Hs|]. split; [exact Hv|]. split; [exact Hd|].
  split; [exact Hu|]. split; [exact Hl|]. split; [exact Ha|].
  split.
  { unfold in_domain. rewrite !andb_true_iff, orb_true_iff, !Z.leb_le,
      !Z.eqb_eq, Qleb_le. unfold flag_ok in Hf. tauto. }
  split; [exact Hlin|].
  split.
  { intro f. change (contrib (score_row df) f) with (_risk_components df f).
    destruct f; unfold _risk_components;
      try (rewrite np_clip_upper_inactive by apply Hlin; reflexivity).
    destruct (flag_value df Hf) as [E | E]; rewrite E; reflexivity. }
  change (risk_score (score_row df)) with (np_clip (comp_sum df) 0 1).
  destruct (comp_sum_bounds df Hf). apply np_clip_id; assumption.
Qed.

(** A draw far outside every range is clipped into the model. *)
Example generated_wild_draw :
  let df := generated_signal "C004" 5 wild_draw in
  sig_salary_delay_days df = 7%Z
  /\ sig_savings_drop_pct df == 40
  /\ sig_discretionary_spend_change_pct df == - 70
  /\ sig_utility_payment_delay_days df = 0%Z
  /\ sig_lending_app_upi_txn_count df = 8%Z
  /\ sig_atm_withdrawal_spike_pct df == 0
  /\ sig_failed_autodebit df = 1%Z.
Proof. repeat split. Qed.

(** Ties go to the even neighbour. *)
Example py_round2_ties :
  py_round2 0.125 == 0.12 /\ py_round2 0.375 == 0.38
  /\ py_round2 (- 0.125) == - 0.12 /\ py_round2 12.3449 == 12.34.
Proof. repeat split. Qed.

(** ** How many signals a tier needs *)

Lemma active_signals_count df (bound : nat) (level : Q) :
  flag_ok df ->
  level < comp_sum df ->
  (forall c1 c2 c3 c4 c5 c6 c7 : Q,
      0 <= c1 <= 0.18 -> 0 <= c2 <= 0.17 -> 0 <= c3 <= 0.14 ->
      0 <= c4 <= 0.14 -> 0 <= c5 <= 0.12 -> 0 <= c6 <= 0.10 ->
      0 <= c7 <= 0.15 ->
      level < c1 + c2 + c3 + c4 + c5 + c6 + c7 ->
      (bound <= List.length
                  (filter (fun c => Qltb 0 c) [c1; c2; c3; c4; c5; c6; c7]))%nat) ->
  (bound <= List.length (active_signals (score_row df)))%nat.
Proof.
  intros Hflag Hlevel Hcount.
  rewrite comp_sum_unfold in Hlevel.
  pose proof (component_bounds df salary_delay_days Hflag) as H1.
  pose proof (component_bounds df savings_drop_pct Hflag) as H2.
  pose proof (component_bounds df discretionary_spend_change_pct Hflag) as H3.
  pose proof (component_bounds df utility_payment_delay_days Hflag) as H4.
  pose proof (component_bounds df lending_app_upi_txn_count Hflag) as H5.
  pose proof (component_bounds df atm_withdrawal_spike_pct Hflag) as H6.
  pose proof (component_bounds df failed_autodebit Hflag) as H7.
  specialize (Hcount _ _ _ _ _ _ _ H1 H2 H3 H4 H5 H6 H7 Hlevel).
  unfold active_signals. change (contrib (score_row df)) with (_risk_components df).
  unfold FEATURES.
  rewrite <- (length_map (_risk_components df)).
  replace (map (_risk_components df)
             (filter (fun f => Qltb 0 (_risk_components df f))
                [salary_delay_days; savings_drop_pct;
                 discretionary_spend_change_pct; utility_payment_delay_days;
                 lending_app_upi_txn_count; atm_withdrawal_spike_pct;
                 failed_autodebit]))
    with (filter (fun c => Qltb 0 c)
            [_risk_components df salary_delay_days;
             _risk_components df savings_drop_pct;
             _risk_components df discretionary_spend_change_pct;
             _risk_components df utility_payment_delay_days;
             _risk_components df lending_app_upi_txn_count;
             _risk_components df atm_withdrawal_spike_pct;
             _risk_components df failed_autodebit]).
  - exact Hcount.
  - cbn [filter].
    repeat match goal with
           | |- context [Qltb 0 (_risk_components df ?f)] =>
               destruct (Qltb 0 (_risk_components df f))
           end; reflexivity.
Qed.

Lemma count_positive_high c1 c2 c3 c4 c5 c6 c7 :
  0 <= c1 <= 0.18 -> 0 <= c2 <= 0.17 -> 0 <= c3 <= 0.14 ->
  0 <= c4 <= 0.14 -> 0 <= c5 <= 0.12 -> 0 <= c6 <= 0.10 ->
  0 <= c7 <= 0.15 ->
  0.7 < c1 + c2 + c3 + c4 + c5 + c6 + c7 ->
  (5 <= List.length
          (filter (fun c => Qltb 0 c) [c1; c2; c3; c4; c5; c6; c7]))%nat.
Proof.
  intros [? ?] [? ?] [? ?] [? ?] [? ?] [? ?] [? ?] Hsum. cbn [filter].
  case_Qltb 0 c1; case_Qltb 0 c2; case_Qltb 0 c3; case_Qltb 0 c4;
    case_Qltb 0 c5; case_Qltb 0 c6; case_Qltb 0 c7;
    cbn [List.length]; try lia; exfalso; lra.
Qed.

Lemma count_positive_medium c1 c2 c3 c4 c5 c6 c7 :
  0 <= c1 <= 0.18 -> 0 <= c2 <= 0.17 -> 0 <= c3 <= 0.14 ->
  0 <= c4 <= 0.14 -> 0 <= c5 <= 0.12 -> 0 <= c6 <= 0.10 ->
  0 <= c7 <= 0.15 ->
  0.35 < c1 + c2 + c3 + c4 + c5 + c6 + c7 ->
  (3 <= List.length
          (filter (fun c => Qltb 0 c) [c1; c2; c3; c4; c5; c6; c7]))%nat.
Proof.
  intros [? ?] [? ?] [? ?] [? ?] [? ?] [? ?] [? ?] Hsum. cbn [filter].
  case_Qltb 0 c1; case_Qltb 0 c2; case_Qltb 0 c3; case_Qltb 0 c4;
    case_Qltb 0 c5; case_Qltb 0 c6; case_Qltb 0 c7;
    cbn [List.length]; try lia; exfalso; lra.
Qed.

(** X4.  No signal contributes more than its weight, so a tier needs
    several signals at once: a High row has at least five signals with a
    positive contribution, and a row that is not Low has at least three. *)
Theorem tier_needs_signals (df : Signal) (Hflag : flag_ok df) :
  (risk_tier (score_row df) = High ->
   (5 <= List.length (active_signals (score_row df)))%nat)
  /\ (risk_tier (score_row df) <> Low ->
      (3 <= List.length (active_signals (score_row df)))%nat).
Proof.
  destruct (comp_sum_bounds df Hflag) as [Hlo Hhi].
  pose proof (np_clip_id (comp_sum df) Hlo Hhi) as Hid.
  change (risk_tier (score_row df)) with (_tier (np_clip (comp_sum df) 0 1)).
  split.
  - intro Ht. apply tier_high_iff in Ht.
    apply (active_signals_count df 5 0.7 Hflag); [lra|].
    exact count_positive_high.
  - intro Ht.
    assert (Hge : 0.4 <= np_clip (comp_sum df) 0 1).
    { destruct (Qlt_le_dec (np_clip (comp_sum df) 0 1) 0.4) as [Hlt | Hge];
        [|exact Hge].
      exfalso. apply Ht, tier_low_iff, Hlt. }
    apply (active_signals_count df 3 0.35 Hflag); [lra|].
    exact count_positive_medium.
Qed.

Lemma tier_needs_signals_witness :
  flag_ok stressed_signal
  /\ risk_tier (score_row stressed_signal) = High
  /\ (5 <= List.length (active_signals (score_row stressed_signal)))%nat.
Proof.
  assert (H : flag_ok stressed_signal) by (right; reflexivity).
  assert (Ht : risk_tier (score_row stressed_signal) = High) by reflexivity.
  split; [exact H|]. split; [exact Ht|].
  apply (proj1 (tier_needs_signals stressed_signal H) Ht).
Defined.

(** Five signals are enough for High, three for Medium. *)
Example five_signals_high :
  let row := score_row (mkSignal "C005" 12 7 40 (- 70) 10 0 0 1) in
  risk_tier row = High /\ List.length (active_signals row) = 5%nat.
Proof. split; reflexivity. Qed.

Example three_signals_medium :
  let row := score_row (mkSignal "C006" 12 7 40 0 0 0 0 1) in
  risk_tier row = Medium /\ List.length (active_signals row) = 3%nat.
Proof. split; reflexivity. Qed.

(** ** Top reason and hover drivers *)

Lemma FEATURE_LABELS_injective f g :
  FEATURE_LABELS f = FEATURE_LABELS g -> f = g.
Proof. destruct f, g; intro H; try reflexivity; discriminate H. Qed.

Lemma In_driver_pairs row p :
  In p (driver_pairs row) <-> p = (fst p, contrib row (fst p)).
Proof.
  unfold driver_pairs. rewrite in_map_iff. split.
  - intros [f [<- _]]. reflexivity.
  - intro E. exists (fst p). split; [symmetry; exact E|].
    unfold FEATURES. destruct (fst p); cbn [In]; tauto.
Qed.

(** The head of the ranking: the two leading pairs and how they relate to
    every other signal. *)
Lemma sorted_drivers_head row :
  exists f1 f2 rest,
    sorted_by contrib_desc (driver_pairs row)
    = (f1, contrib row f1) :: (f2, contrib row f2) :: rest
    /\ f1 <> f2
    /\ ranks_before (f1, contrib row f1) (f2, contrib row f2)
    /\ (forall g, g <> f1 ->
                  ranks_before (f1, contrib row f1) (g, contrib row g))
    /\ (forall g, g <> f1 -> g <> f2 ->
                  ranks_before (f2, contrib row f2) (g, contrib row g)).
Proof.
  pose proof (sorted_drivers_ranked row) as Hs.
  pose proof (sorted_by_perm contrib_desc (driver_pairs row)) as Hp.
  pose proof (sorted_by_length contrib_desc (driver_pairs row)) as Hlen.
  destruct (sorted_by contrib_desc (driver_pairs row))
    as [|p1 [|p2 rest]]; try discriminate Hlen.
  assert (H1 : p1 = (fst p1, contrib row (fst p1))).
  { apply In_driver_pairs, (Permutation_in _ Hp). left. reflexivity. }
  assert (H2 : p2 = (fst p2, contrib row (fst p2))).
  { apply In_driver_pairs, (Permutation_in _ Hp). right. left. reflexivity. }
  assert (Hnd : NoDup (map fst (p1 :: p2 :: rest))).
  { apply (Permutation_NoDup
             (Permutation_map fst (Permutation_sym Hp))).
    rewrite driver_pairs_fst. apply FEATURES_NoDup. }
  inversion Hs as [|? ? Hs' Hall1]; subst.
  inversion Hs' as [|? ? _ Hall2]; subst.
  rewrite Forall_forall in Hall1, Hall2.
  exists (fst p1), (fst p2), rest. rewrite <- H1, <- H2.
  split; [reflexivity|].
  split.
  { intro E. cbn [map] in Hnd. inversion Hnd as [|? ? Hn _]; subst.
    apply Hn. left. symmetry. exact E. }
  split; [apply Hall1; left; reflexivity|].
  assert (Hin : forall g, In (g, contrib row g) (p1 :: p2 :: rest)).
  { intro g. apply (Permutation_in _ (Permutation_sym Hp)).
    apply In_driver_pairs. reflexivity. }
  split.
  - intros g Hg. destruct (Hin g) as [E | Hg']; [|apply Hall1, Hg'].
    exfalso. apply Hg. rewrite E. reflexivity.
  - intros g Hg1 Hg2. destruct (Hin g) as [E | [E | Hg']].
    + exfalso. apply Hg1. rewrite E. reflexivity.
    + exfalso. apply Hg2. rewrite E. reflexivity.
    + apply Hall2, Hg'.
Qed.

(** X5.  The snapshot's top reason always exists: it is the label of a
    signal whose contribution no other signal exceeds, and among signals
    with that contribution it is the one declared first; when all seven
    contributions are equal (a row with no stress at all, say) it is
    "Salary Delay Days". *)
Theorem top_reason_is_largest (row : Row) :
  exists f,
    top_reason row = Some (FEATURE_LABELS f)
    /\ (forall g, contrib row g <= contrib row f)
    /\ (forall g, contrib row g == contrib row f ->
                  (feature_index f <= feature_index g)%nat)
    /\ ((forall g, contrib row g == contrib row salary_delay_days) ->
        top_reason row = Some "Salary Delay Days"%string).
Proof.
  destruct (sorted_drivers_head row)
    as (f1 & f2 & rest & Hsorted & _ & _ & Hfirst & _).
  assert (Htop : top_reason row = Some (FEATURE_LABELS f1)).
  { unfold top_reason, top_drivers. fold (driver_pairs row).
    rewrite Hsorted. reflexivity. }
  assert (Htie : forall g, contrib row g == contrib row f1 ->
                           (feature_index f1 <= feature_index g)%nat).
  { intros g Hg. destruct (feature_eq_dec g f1) as [-> | Hne]; [lia|].
    destruct (Hfirst g Hne) as [Hlt | [_ Hidx]]; cbn [fst snd] in *.
    - exfalso. lra.
    - unfold declared_before in Hidx. cbn [fst] in Hidx. lia. }
  exists f1. split; [exact Htop|]. split; [|split; [exact Htie|]].
  - intro g. destruct (feature_eq_dec g f1) as [-> | Hne]; [lra|].
    apply (ranks_before_desc _ _ (Hfirst g Hne)).
  - intro Hall. rewrite Htop.
    assert (Hidx : (feature_index f1 <= feature_index salary_delay_days)%nat).
    { apply Htie. rewrite (Hall f1). reflexivity. }
    destruct f1; cbn in Hidx; try lia. reflexivity.
Qed.

Lemma top_reason_is_largest_witness :
  (forall g, contrib (score_row calm_signal) g
             == contrib (score_row calm_signal) salary_delay_days)
  /\ top_reason (score_row calm_signal) = Some "Salary Delay Days"%string.
Proof.
  assert (H : forall g, contrib (score_row calm_signal) g
                        == contrib (score_row calm_signal) salary_delay_days)
    by (intro g; destruct g; reflexivity).
  split; [exact H|].
  destruct (top_reason_is_largest (score_row calm_signal))
    as (f & _ & _ & _ & Hall).
  exact (Hall H).
Defined.

(** X6.  The two hover drivers of a row always exist and name two
    different signals; the first is the top reason, its contribution is at
    least that of the second, and no other signal contributes more than the
    second. *)
Theorem hover_drivers_are_top_two (row : Row) :
  exists f1 f2,
    hover_drivers row = Some (FEATURE_LABELS f1, FEATURE_LABELS f2)
    /\ f1 <> f2
    /\ FEATURE_LABELS f1 <> FEATURE_LABELS f2
    /\ top_reason row = Some (FEATURE_LABELS f1)
    /\ contrib row f2 <= contrib row f1
    /\ (forall g, g <> f1 -> contrib row g <= contrib row f2).
Proof.
  destruct (sorted_drivers_head row)
    as (f1 & f2 & rest & Hsorted & Hne & H12 & _ & Hsecond).
  exists f1, f2.
  split.
  { unfold hover_drivers, top_drivers. fold (driver_pairs row).
    rewrite Hsorted. reflexivity. }
  split; [exact Hne|].
  split; [intro E; apply Hne, FEATURE_LABELS_injective, E|].
  split.
  { unfold top_reason, top_drivers. fold (driver_pairs row).
    rewrite Hsorted. reflexivity. }
  split; [apply (ranks_before_desc _ _ H12)|].
  intros g Hg. destruct (feature_eq_dec g f2) as [-> | Hg2]; [lra|].
  apply (ranks_before_desc _ _ (Hsecond g Hg Hg2)).
Qed.

(** ** Crossing into the High tier *)

Lemma above_high_threshold s : Qltb 0.7 s = true <-> _tier s = High.
Proof. rewrite Qltb_lt. symmetry. apply tier_high_iff. Qed.

Lemma not_above_high_threshold s : Qltb 0.7 s = false <-> _tier s <> High.
Proof.
  rewrite <- above_high_threshold. destruct (Qltb 0.7 s); split; congruence.
Qed.

Lemma cross_scan_find prev hover_df :
  prev <= 0.7 ->
  cross_scan prev hover_df = find (fun p => Qltb 0.7 (snd p)) hover_df.
Proof.
  revert prev. induction hover_df as [|[wk sc] rest IH]; intros prev Hprev.
  - reflexivity.
  - cbn [cross_scan find snd].
    apply Qleb_le in Hprev. rewrite Hprev, andb_true_r.
    case_Qltb 0.7 sc; [reflexivity|]. apply IH. exact Hlt.
Qed.

Lemma find_first {A} (f : A -> bool) l x :
  find f l = Some x ->
  f x = true
  /\ exists l1 l2, l = l1 ++ x :: l2 /\ forall y, In y l1 -> f y = false.
Proof.
  induction l as [|a l IH]; cbn [find]; [discriminate|].
  destruct (f a) eqn:E.
  - intro H. injection H as <-. split; [exact E|].
    exists [], l. split; [reflexivity | intros y []].
  - intro H. destruct (IH H) as [Hx (l1 & l2 & -> & Hl1)].
    split; [exact Hx|]. exists (a :: l1), l2. split; [reflexivity|].
    intros y [<- | Hy]; [exact E | apply Hl1, Hy].
Qed.

(** X7.  The chart's trigger loop returns the first week of the history
    whose score is in the High tier, whatever the scores before it, and
    nothing exactly when no week is High: the test on the previous score
    never changes the outcome. *)
Theorem cross_week_first_high (hover_df : History) :
  cross_week hover_df = find (fun p => Qltb 0.7 (snd p)) hover_df
  /\ (cross_week hover_df = None <->
      forall p, In p hover_df -> _tier (snd p) <> High)
  /\ (forall wk sc,
        cross_week hover_df = Some (wk, sc) ->
        _tier sc = High
        /\ exists earlier later,
             hover_df = earlier ++ (wk, sc) :: later
             /\ forall p, In p earlier -> _tier (snd p) <> High).
Proof.
  assert (Hfind : cross_week hover_df
                  = find (fun p => Qltb 0.7 (snd p)) hover_df).
  { unfold cross_week. apply cross_scan_find. discriminate. }
  split; [exact Hfind|]. rewrite Hfind. split.
  - split.
    + intros Hnone p Hp. apply not_above_high_threshold.
      exact (find_none _ _ Hnone p Hp).
    + intro Hall.
      destruct (find (fun p => Qltb 0.7 (snd p)) hover_df) as [p|] eqn:E;
        [|reflexivity].
      exfalso. destruct (find_some _ _ E) as [Hin Hp].
      apply above_high_threshold in Hp. exact (Hall p Hin Hp).
  - intros wk sc H. destruct (find_first _ _ _ H) as [Hx (l1 & l2 & E & Hl1)].
    cbn [snd] in Hx. split; [apply above_high_threshold, Hx|].
    exists l1, l2. split; [exact E|].
    intros p Hp. apply not_above_high_threshold, Hl1, Hp.
Qed.

Lemma cross_week_first_high_witness :
  cross_week crossing_history = Some (4%Z, 0.74) /\ _tier 0.74 = High.
Proof.
  assert (H : cross_week crossing_history = Some (4%Z, 0.74)) by reflexivity.
  split; [exact H|].
  destruct (cross_week_first_high crossing_history) as (_ & _ & Hsome).
  exact (proj1 (Hsome _ _ H)).
Defined.

Lemma StronglySorted_last {A} (R : A -> A -> Prop) l x :
  StronglySorted R (l ++ [x]) -> Forall (fun y => R y x) l.
Proof.
  induction l as [|a l IH]; intro Hs; [constructor|].
  cbn [app] in Hs. inversion Hs as [|? ? Hs' Ha]; subst.
  constructor.
  - rewrite Forall_forall in Ha. apply Ha, in_or_app. right. left. reflexivity.
  - apply IH, Hs'.
Qed.

(** The last row of the weeks before the selected one. *)
Lemma previous_week_row cust_df selected_week last_row others :
  rev (sort_values_week
         (filter (fun p => (fst p <? selected_week)%Z) cust_df))
  = last_row :: others ->
  In last_row cust_df
  /\ (fst last_row < selected_week)%Z
  /\ forall q, In q cust_df -> (fst q < selected_week)%Z ->
               (fst q <= fst last_row)%Z.
Proof.
  set (earlier := filter (fun p => (fst p <? selected_week)%Z) cust_df).
  intro Hrev.
  assert (Hshape : sort_values_week earlier = rev others ++ [last_row]).
  { rewrite <- (rev_involutive (sort_values_week earlier)), Hrev.
    reflexivity. }
  pose proof (sort_values_week_perm earlier) as Hperm.
  pose proof (sort_values_week_sorted earlier) as Hsorted.
  rewrite Hshape in Hperm, Hsorted.
  assert (Hin : In last_row earlier).
  { apply (Permutation_in _ Hperm), in_or_app. right. left. reflexivity. }
  apply filter_In in Hin. destruct Hin as [Hin Hlt]. apply Z.ltb_lt in Hlt.
  split; [exact Hin|]. split; [exact Hlt|].
  intros q Hq Hqlt.
  assert (Hq' : In q (rev others ++ [last_row])).
  { apply (Permutation_in _ (Permutation_sym Hperm)), filter_In.
    split; [exact Hq | apply Z.ltb_lt, Hqlt]. }
  apply in_app_or in Hq'. destruct Hq' as [Hq' | [<- | []]]; [|lia].
  pose proof (StronglySorted_last _ _ _ Hsorted) as Hall.
  rewrite Forall_forall in Hall. apply Hall, Hq'.
Qed.

(** X8.  The lead-time indicator reports a crossing exactly when the
    selected score is in the High tier and the row of the latest earlier
    week is not; in the customer's first week it never reports one. *)
Theorem crossed_this_week_meaning (cust_df : History) (selected_week : Z)
  (score : Q) :
  (crossed_this_week cust_df selected_week score = true ->
   _tier score = High
   /\ exists prev_row,
        In prev_row cust_df
        /\ (fst prev_row < selected_week)%Z
        /\ (forall q, In q cust_df -> (fst q < selected_week)%Z ->
                      (fst q <= fst prev_row)%Z)
        /\ _tier (snd prev_row) <> High)
  /\ (NoDup (map fst cust_df) ->
      forall prev_row,
        _tier score = High ->
        In prev_row cust_df ->
        (fst prev_row < selected_week)%Z ->
        (forall q, In q cust_df -> (fst q < selected_week)%Z ->
                   (fst q <= fst prev_row)%Z) ->
        _tier (snd prev_row) <> High ->
        crossed_this_week cust_df selected_week score = true)
  /\ ((forall q, In q cust_df -> (selected_week <= fst q)%Z) ->
      crossed_this_week cust_df selected_week score = false).
Proof.
  unfold crossed_this_week.
  set (earlier := filter (fun p => (fst p <? selected_week)%Z) cust_df).
  split; [|split].
  - destruct (Qltb 0.7 score) eqn:Hs; [|discriminate].
    destruct (rev (sort_values_week earlier)) as [|last_row others] eqn:Hrev;
      [discriminate|].
    intro Hle. split; [apply above_high_threshold, Hs|].
    destruct (previous_week_row _ _ _ _ Hrev) as (H1 & H2 & H3).
    exists last_row. repeat split; try assumption.
    apply Qleb_le in Hle. intro Hh. apply tier_high_iff in Hh. lra.
  - intros Hnd prev_row Hhigh Hin Hlt Hmax Hprev.
    apply above_high_threshold in Hhigh. rewrite Hhigh.
    destruct (rev (sort_values_week earlier)) as [|last_row others] eqn:Hrev.
    + exfalso.
      assert (Hp : In prev_row (sort_values_week earlier)).
      { apply (Permutation_in _ (Permutation_sym (sort_values_week_perm _))).
        apply filter_In. split; [exact Hin | apply Z.ltb_lt, Hlt]. }
      apply in_rev in Hp. rewrite Hrev in Hp. exact Hp.
    + destruct (previous_week_row _ _ _ _ Hrev) as (H1 & H2 & H3).
      assert (Hweek : fst last_row = fst prev_row).
      { pose proof (H3 _ Hin Hlt). pose proof (Hmax _ H1 H2). lia. }
      assert (Hsame : last_row = prev_row).
      { clear - Hnd H1 Hin Hweek.
        induction cust_df as [|a l IH]; [contradiction|].
        cbn [map] in Hnd. inversion Hnd as [|? ? Hna Hnd']; subst.
        destruct H1 as [-> | H1], Hin as [-> | Hin]; try reflexivity.
        - exfalso. apply Hna. rewrite Hweek. apply in_map, Hin.
        - exfalso. apply Hna. rewrite <- Hweek. apply in_map, H1.
        - apply IH; assumption. }
      rewrite Hsame. apply Qleb_le.
      destruct (Qlt_le_dec 0.7 (snd prev_row)) as [Hgt | Hle]; [|exact Hle].
      exfalso. apply Hprev, tier_high_iff, Hgt.
  - intro Hfirst.
    destruct (Qltb 0.7 score); [|reflexivity].
    assert (Hempty : earlier = []).
    { unfold earlier. clear - Hfirst.
      induction cust_df as [|a l IH]; [reflexivity|].
      cbn [filter].
      replace (fst a <? selected_week)%Z with false.
      - apply IH. intros q Hq. apply Hfirst. right. exact Hq.
      - symmetry. apply Z.ltb_ge, Hfirst. left. reflexivity. }
    rewrite Hempty. reflexivity.
Qed.

Lemma crossed_this_week_meaning_witness :
  crossed_this_week crossing_history 4 0.74 = true /\ _tier 0.74 = High.
Proof.
  assert (H : crossed_this_week crossing_history 4 0.74 = true)
    by reflexivity.
  split; [exact H|].
  exact (proj1 (proj1 (crossed_this_week_meaning crossing_history 4 0.74) H)).
Defined.

(** In the first week the chart marks a trigger where the lead-time
    indicator reports none. *)
Example first_week_high :
  cross_week [(1%Z, 0.75); (2%Z, 0.80)] = Some (1%Z, 0.75)
  /\ crossed_this_week [(1%Z, 0.75); (2%Z, 0.80)] 1 0.75 = false.
Proof. split; reflexivity. Qed.

(** ** Shares of the top drivers *)

Lemma Qsum_app l1 l2 : Qsum (l1 ++ l2) == Qsum l1 + Qsum l2.
Proof.
  induction l1 as [|x l1 IH]; cbn [app].
  - rewrite Qsum_nil. ring.
  - rewrite !Qsum_cons, IH. ring.
Qed.

Lemma Qsum_perm l1 l2 : Permutation l1 l2 -> Qsum l1 == Qsum l2.
Proof.
  induction 1 as [|x l1 l2 _ IH|x y l|l1 l2 l3 _ IH1 _ IH2].
  - reflexivity.
  - rewrite !Qsum_cons, IH. reflexivity.
  - rewrite !Qsum_cons. ring.
  - rewrite IH1. exact IH2.
Qed.

Lemma pct_range c total :
  0 < total -> 0 <= c -> c <= total ->
  0 <= c / total * 100 /\ c / total * 100 <= 100.
Proof.
  intros Ht H0 H1.
  assert (Ha : 0 <= c / total).
  { apply Qle_shift_div_l; [exact Ht | lra]. }
  assert (Hb : c / total <= 1).
  { apply Qle_shift_div_r; [exact Ht | lra]. }
  split; lra.
Qed.

Lemma component_le_sum df f :
  flag_ok df -> _risk_components df f <= comp_sum df.
Proof.
  intro Hflag. rewrite comp_sum_unfold.
  pose proof (component_bounds df salary_delay_days Hflag).
  pose proof (component_bounds df savings_drop_pct Hflag).
  pose proof (component_bounds df discretionary_spend_change_pct Hflag).
  pose proof (component_bounds df utility_payment_delay_days Hflag).
  pose proof (component_bounds df lending_app_upi_txn_count Hflag).
  pose proof (component_bounds df atm_withdrawal_spike_pct Hflag).
  pose proof (component_bounds df failed_autodebit Hflag).
  destruct f; lra.
Qed.

(** The contributions of the three leading drivers. *)
Lemma top3_contributions df :
  flag_ok df ->
  List.length (map snd (top_drivers (score_row df) 3)) = 3%nat
  /\ Forall (fun c => 0 <= c /\ c <= comp_sum df)
            (map snd (top_drivers (score_row df) 3))
  /\ Qsum (map snd (top_drivers (score_row df) 3)) <= comp_sum df.
Proof.
  intros Hflag.
  assert (Htop : map snd (top_drivers (score_row df) 3)
                 = firstn 3 (map snd (sorted_by contrib_desc
                                        (driver_pairs (score_row df))))).
  { unfold top_drivers. fold (driver_pairs (score_row df)).
    rewrite py_slice_to_nonneg by lia. rewrite firstn_map. reflexivity. }
  rewrite Htop. clear Htop.
  assert (Hperm : Permutation
                    (map snd (sorted_by contrib_desc
                                (driver_pairs (score_row df))))
                    (map (_risk_components df) FEATURES)).
  { rewrite (Permutation_map snd (sorted_by_perm contrib_desc _)).
    unfold driver_pairs. rewrite map_map. reflexivity. }
  assert (Hlen : List.length
                   (map snd (sorted_by contrib_desc
                               (driver_pairs (score_row df)))) = 7%nat).
  { rewrite (Permutation_length Hperm), length_map. reflexivity. }
  revert Hperm Hlen.
  generalize (map snd (sorted_by contrib_desc (driver_pairs (score_row df)))).
  intros cs Hperm Hlen.
  assert (Hall : Forall (fun c => 0 <= c /\ c <= comp_sum df) cs).
  { apply (Permutation_Forall (Permutation_sym Hperm)).
    apply Forall_forall. intros c Hc. apply in_map_iff in Hc.
    destruct Hc as [f [<- _]]. split.
    - apply component_bounds, Hflag.
    - apply component_le_sum, Hflag. }
  assert (Hsum : Qsum cs == comp_sum df) by apply (Qsum_perm _ _ Hperm).
  rewrite Forall_forall in Hall.
  split; [rewrite length_firstn, Hlen; reflexivity|].
  split.
  { apply Forall_forall. intros c Hc. apply Hall.
    rewrite <- (firstn_skipn 3 cs). apply in_or_app. left. exact Hc. }
  rewrite <- Hsum.
  rewrite <- (firstn_skipn 3 cs) at 2. rewrite Qsum_app.
  assert (0 <= Qsum (skipn 3 cs)).
  { apply Qsum_nonneg, Forall_forall. intros c Hc. apply Hall.
    rewrite <- (firstn_skipn 3 cs). apply in_or_app. right. exact Hc. }
  lra.
Qed.

(** Shares of any contributions that are bounded by a total. *)
Lemma shares_of_bounded (cs : list Q) (total : Q) :
  Forall (fun c => 0 <= c /\ c <= total) cs ->
  Forall (fun pct => 0 <= pct /\ pct <= 100)
         (map (fun c => driver_pct c total) cs)
  /\ (total <= 0 ->
      Forall (fun pct => pct == 0) (map (fun c => driver_pct c total) cs)).
Proof.
  intros Hall. unfold driver_pct.
  case_Qltb 0 total.
  - split.
    { apply Forall_forall. intros pct Hp.
      apply in_map_iff in Hp. destruct Hp as [c [<- Hc]].
      rewrite Forall_forall in Hall. destruct (Hall c Hc).
      apply pct_range; lra. }
    intro H. exfalso. lra.
  - split.
    { apply Forall_forall. intros pct Hp.
      apply in_map_iff in Hp. destruct Hp as [c [<- _]].
      split; discriminate. }
    intros _. apply Forall_forall. intros pct Hp.
    apply in_map_iff in Hp. destruct Hp as [c [<- _]]. reflexivity.
Qed.

Lemma risk_score_is_sum df :
  flag_ok df -> risk_score (score_row df) == comp_sum df.
Proof.
  intro Hflag. destruct (comp_sum_bounds df Hflag).
  apply np_clip_id; assumption.
Qed.

Lemma driver_pct_monotone c1 c2 total :
  c1 <= c2 -> driver_pct c1 total <= driver_pct c2 total.
Proof.
  intro H. unfold driver_pct. case_Qltb 0 total; [|lra].
  apply Qmult_le_compat_r; [|discriminate].
  apply Qdiv_le_const; assumption.
Qed.

(** With a positive score each share is the contribution over the score,
    in percent. *)
Lemma driver_shares_formula row :
  0 < risk_score row ->
  Forall2 (fun pct item => pct == snd item / risk_score row * 100)
          (driver_shares row) (top_drivers row 3).
Proof.
  intro Hpos. unfold driver_shares.
  generalize (top_drivers row 3). intro l.
  induction l as [|item l IH]; constructor; [|exact IH].
  unfold driver_pct. apply Qltb_lt in Hpos. rewrite Hpos. reflexivity.
Qed.

(** The shares come in the order of the ranking: largest first. *)
Lemma driver_shares_sorted row :
  StronglySorted (fun p q => q <= p) (driver_shares row).
Proof.
  assert (Hs : StronglySorted (fun p q : feature * Q => snd q <= snd p)
                              (top_drivers row 3)).
  { unfold top_drivers. fold (driver_pairs row).
    rewrite py_slice_to_nonneg by lia.
    apply StronglySorted_firstn.
    apply StronglySorted_impl with (R := ranks_before).
    - intros x y. apply ranks_before_desc.
    - apply sorted_drivers_ranked. }
  unfold driver_shares. revert Hs.
  generalize (top_drivers row 3). intros l Hs.
  induction Hs as [|item l Hl IH Hitem]; cbn [map]; constructor.
  - exact IH.
  - apply Forall_forall. intros pct Hp.
    apply in_map_iff in Hp. destruct Hp as [other [<- Hother]].
    rewrite Forall_forall in Hitem.
    apply driver_pct_monotone, Hitem, Hother.
Qed.

(** X9.  For a scored Signal Record the customer view shows three driver
    shares, largest first; with a positive risk score each is the driver's
    contribution divided by the score, times 100, and lies between 0 and
    100 percent; every share is 0 when the score is not positive. *)
Theorem driver_shares_contract (df : Signal) (Hflag : flag_ok df) :
  let row := score_row df in
  List.length (driver_shares row) = 3%nat
  /\ (0 < risk_score row ->
      Forall2 (fun pct item => pct == snd item / risk_score row * 100)
              (driver_shares row) (top_drivers row 3))
  /\ Forall (fun pct => 0 <= pct /\ pct <= 100) (driver_shares row)
  /\ StronglySorted (fun p q => q <= p) (driver_shares row)
  /\ (risk_score row <= 0 ->
      Forall (fun pct => pct == 0) (driver_shares row)).
Proof.
  cbv zeta.
  split; [|split; [apply driver_shares_formula|]].
  { unfold driver_shares. rewrite length_map.
    rewrite <- (length_map snd). apply (top3_contributions df Hflag). }
  assert (Hsorted := driver_shares_sorted (score_row df)).
  destruct (top3_contributions df Hflag) as (_ & Hall & _).
  pose proof (risk_score_is_sum df Hflag) as Hscore.
  assert (Hshares : driver_shares (score_row df)
                    = map (fun c => driver_pct c (risk_score (score_row df)))
                          (map snd (top_drivers (score_row df) 3))).
  { unfold driver_shares. rewrite map_map. reflexivity. }
  revert Hsorted. rewrite Hshares. clear Hshares.
  revert Hall.
  generalize (map snd (top_drivers (score_row df) 3)). intros cs Hall Hsorted.
  assert (Hall' : Forall (fun c => 0 <= c /\ c <= risk_score (score_row df))
                         cs).
  { eapply Forall_impl; [|exact Hall]. intros c [H0 H1]. cbv beta. lra. }
  destruct (shares_of_bounded cs _ Hall') as (H1 & H3).
  split; [exact H1|]. split; [exact Hsorted | exact H3].
Qed.

Lemma driver_shares_contract_witness :
  flag_ok stressed_signal
  /\ Forall (fun pct => 0 <= pct /\ pct <= 100)
            (driver_shares (score_row stressed_signal)).
Proof.
  assert (H : flag_ok stressed_signal) by (right; reflexivity).
  split; [exact H|].
  destruct (driver_shares_contract stressed_signal H) as (_ & _ & Hall & _).
  exact Hall.
Defined.

(** The stressed week: 18, 17 and 15 percent, all shown with the medium
    pill. *)
Example stressed_week_shares :
  Forall2 Qeq (driver_shares (score_row stressed_signal)) [18; 17; 15]
  /\ map pill_cls (driver_shares (score_row stressed_signal))
     = ["pill-medium"; "pill-medium"; "pill-low"]%string.
Proof. split; [repeat constructor | reflexivity]. Qed.

(** ** Impact simulator: what the engine can and cannot do *)

Lemma capacity_split_facts h m c :
  (0 <= h)%Z -> (0 <= m)%Z ->
  let s := capacity_split h m c in
  non_contacted_high s = (h - contacted_high s)%Z
  /\ non_contacted_medium s = (m - contacted_medium s)%Z
  /\ (contacted_high s <= h)%Z /\ (contacted_medium s <= m)%Z
  /\ ((0 <= c)%Z -> (0 <= contacted_high s)%Z /\ (0 <= contacted_medium s)%Z)
  /\ (contacted_high s + contacted_medium s = Z.min (h + m) c)%Z
  /\ (non_contacted_high s + non_contacted_medium s
      = h + m - Z.min (h + m) c)%Z
  /\ overflow s = Z.max 0 (h + m - c).
Proof.
  intros Hh Hm. cbn -[Z.min Z.max Z.add Z.sub]. repeat split; lia.
Qed.

Lemma inject_Z_sub a b : inject_Z (a - b) == inject_Z a - inject_Z b.
Proof.
  unfold Z.sub. rewrite inject_Z_plus, inject_Z_opp. ring.
Qed.

(** The defaults that the engine removes. *)
Lemma impact_defaults_removed h m a :
  (0 <= h)%Z -> (0 <= m)%Z ->
  defaults_wo (impact h m a) - defaults_w (impact h m a)
  == inject_Z (contacted_high (split (impact h m a)))
     * (baseline_high a * eff_high a)
     + inject_Z (contacted_medium (split (impact h m a)))
       * (baseline_medium a * eff_medium a).
Proof.
  intros Hh Hm. unfold impact. cbn [defaults_wo defaults_w split].
  destruct (capacity_split_facts h m (outreach_capacity a) Hh Hm)
    as (E1 & E2 & _).
  rewrite E1, E2, !inject_Z_sub. ring.
Qed.

Lemma removed_defaults_bounds (H M CH CM rh rm eh em : Q) :
  0 <= CH -> CH <= H -> 0 <= CM -> CM <= M ->
  0 <= rh -> 0 <= rm -> 0 <= eh -> eh <= 1 -> 0 <= em -> em <= 1 ->
  0 <= CH * (rh * eh) + CM * (rm * em)
  /\ CH * (rh * eh) + CM * (rm * em) <= H * rh + M * rm.
Proof.
  intros.
  assert (0 <= CH * rh) by (apply Qmult_le_0_compat; assumption).
  assert (0 <= CM * rm) by (apply Qmult_le_0_compat; assumption).
  assert (CH * rh <= H * rh) by (apply Qmult_le_compat_r; assumption).
  assert (CM * rm <= M * rm) by (apply Qmult_le_compat_r; assumption).
  assert (0 <= CH * rh * eh) by (apply Qmult_le_0_compat; assumption).
  assert (0 <= CM * rm * em) by (apply Qmult_le_0_compat; assumption).
  assert (0 <= CH * rh * (1 - eh)) by (apply Qmult_le_0_compat; lra).
  assert (0 <= CM * rm * (1 - em)) by (apply Qmult_le_0_compat; lra).
  split; lra.
Qed.

(** X10.  With non-negative tier counts and assumptions from the sidebar's
    ranges, the engine never raises the expected defaults: the defaults with
    the engine lie between 0 and the baseline defaults, the credit loss
    avoided is not negative, and the reported default reduction lies
    between 0 and 100 percent. *)
Theorem engine_never_raises_defaults (high_count medium_count : Z)
  (a : Assumptions)
  (Hhigh : (0 <= high_count)%Z) (Hmedium : (0 <= medium_count)%Z)
  (Ha : plausible a) :
  let r := impact high_count medium_count a in
  0 <= defaults_w r
  /\ defaults_w r <= defaults_wo r
  /\ 0 <= credit_loss_saved r
  /\ 0 <= default_reduction_pct r
  /\ default_reduction_pct r <= 100.
Proof.
  cbv zeta.
  destruct Ha as (Hexp & Hrh & Hrm & Hcc & Heh0 & Heh1 & Hem0 & Hem1 & Hlgd
                  & Hrr0 & Hrr1 & Hup & Hch & Hcm & Hcap).
  pose proof (impact_defaults_removed high_count medium_count a Hhigh Hmedium)
    as Hrem.
  destruct (capacity_split_facts high_count medium_count (outreach_capacity a)
              Hhigh Hmedium) as (_ & _ & Hle1 & Hle2 & Hnn & _).
  destruct (Hnn Hcap) as [Hn1 Hn2].
  change (split (impact high_count medium_count a))
    with (capacity_split high_count medium_count (outreach_capacity a))
    in Hrem.
  rewrite Zle_Qle in Hle1, Hle2, Hn1, Hn2, Hexp.
  change (inject_Z 0) with 0 in *.
  destruct (removed_defaults_bounds
              (inject_Z high_count) (inject_Z medium_count)
              (inject_Z (contacted_high
                 (capacity_split high_count medium_count
                    (outreach_capacity a))))
              (inject_Z (contacted_medium
                 (capacity_split high_count medium_count
                    (outreach_capacity a))))
              (baseline_high a) (baseline_medium a)
              (eff_high a) (eff_medium a)) as [Hb1 Hb2]; try assumption.
  assert (Hwo : defaults_wo (impact high_count medium_count a)
                == inject_Z high_count * baseline_high a
                   + inject_Z medium_count * baseline_medium a)
    by reflexivity.
  assert (Hw0 : 0 <= defaults_w (impact high_count medium_count a)) by lra.
  assert (Hw1 : defaults_w (impact high_count medium_count a)
                <= defaults_wo (impact high_count medium_count a)) by lra.
  split; [exact Hw0|]. split; [exact Hw1|].
  split.
  { assert (E : credit_loss_saved (impact high_count medium_count a)
                == (defaults_wo (impact high_count medium_count a)
                    - defaults_w (impact high_count medium_count a))
                   * inject_Z (avg_exposure a) * lgd_pct a).
    { unfold impact.
      cbn [credit_loss_saved credit_loss_wo credit_loss_w ead_wo ead_w
           defaults_wo defaults_w]. ring. }
    rewrite E.
    apply Qmult_le_0_compat; [apply Qmult_le_0_compat|]; try assumption.
    lra. }
  assert (Epct : default_reduction_pct (impact high_count medium_count a)
                 = if Qltb 0 (defaults_wo (impact high_count medium_count a))
                   then (defaults_wo (impact high_count medium_count a)
                         - defaults_w (impact high_count medium_count a))
                        / defaults_wo (impact high_count medium_count a) * 100
                   else 0) by reflexivity.
  rewrite Epct.
  revert Hw0 Hw1.
  generalize (defaults_w (impact high_count medium_count a)).
  generalize (defaults_wo (impact high_count medium_count a)).
  intros wo w Hw0 Hw1.
  case_Qltb 0 wo; [|split; discriminate].
  apply pct_range; lra.
Qed.

Lemma engine_never_raises_defaults_witness :
  (0 <= 30)%Z /\ (0 <= 50)%Z /\ plausible scenario
  /\ defaults_w (impact 30 50 scenario) <= defaults_wo (impact 30 50 scenario).
Proof.
  assert (H1 : (0 <= 30)%Z) by lia.
  assert (H2 : (0 <= 50)%Z) by lia.
  assert (H3 : plausible scenario).
  { unfold plausible. cbn. repeat split; try lia; discriminate. }
  split; [exact H1|]. split; [exact H2|]. split; [exact H3|].
  apply (engine_never_raises_defaults 30 50 scenario H1 H2 H3).
Defined.

Lemma capacity_split_monotone h m c1 c2 :
  (c1 <= c2)%Z ->
  (contacted_high (capacity_split h m c1)
   <= contacted_high (capacity_split h m c2))%Z
  /\ (contacted_medium (capacity_split h m c1)
      <= contacted_medium (capacity_split h m c2))%Z
  /\ (overflow (capacity_split h m c2)
      <= overflow (capacity_split h m c1))%Z.
Proof.
  intro Hc. cbn -[Z.min Z.max Z.add Z.sub]. repeat split; lia.
Qed.

(** X11.  More weekly capacity never helps less: with the other assumptions
    unchanged, raising the capacity never lowers the number of High or of
    Medium cases contacted, never raises the overflow, leaves the baseline
    defaults as they are and never raises the defaults or the credit loss
    with the engine. *)
Theorem more_capacity_never_hurts (high_count medium_count c1 c2 : Z)
  (a : Assumptions)
  (Hhigh : (0 <= high_count)%Z) (Hmedium : (0 <= medium_count)%Z)
  (Ha : plausible a) (Hc : (c1 <= c2)%Z) :
  let r1 := impact high_count medium_count (with_capacity a c1) in
  let r2 := impact high_count medium_count (with_capacity a c2) in
  (contacted_high (split r1) <= contacted_high (split r2))%Z
  /\ (contacted_medium (split r1) <= contacted_medium (split r2))%Z
  /\ (overflow (split r2) <= overflow (split r1))%Z
  /\ defaults_wo r2 == defaults_wo r1
  /\ defaults_w r2 <= defaults_w r1
  /\ credit_loss_w r2 <= credit_loss_w r1.
Proof.
  cbv zeta.
  destruct Ha as (Hexp & Hrh & Hrm & Hcc & Heh0 & Heh1 & Hem0 & Hem1 & Hlgd
                  & Hrr0 & Hrr1 & Hup & Hch & Hcm & Hcap).
  destruct (capacity_split_monotone high_count medium_count c1 c2 Hc)
    as (M1 & M2 & M3).
  pose proof (impact_defaults_removed high_count medium_count
                (with_capacity a c1) Hhigh Hmedium) as R1.
  pose proof (impact_defaults_removed high_count medium_count
                (with_capacity a c2) Hhigh Hmedium) as R2.
  change (split (impact high_count medium_count (with_capacity a c1)))
    with (capacity_split high_count medium_count c1) in *.
  change (split (impact high_count medium_count (with_capacity a c2)))
    with (capacity_split high_count medium_count c2) in *.
  cbn [with_capacity baseline_high baseline_medium eff_high eff_medium]
    in R1, R2.
  assert (Hwo : defaults_wo (impact high_count medium_count (with_capacity a c2))
                == defaults_wo
                     (impact high_count medium_count (with_capacity a c1)))
    by reflexivity.
  assert (Hw : defaults_w (impact high_count medium_count (with_capacity a c2))
               <= defaults_w
                    (impact high_count medium_count (with_capacity a c1))).
  { rewrite Zle_Qle in M1, M2.
    assert (0 <= baseline_high a * eff_high a)
      by (apply Qmult_le_0_compat; assumption).
    assert (0 <= baseline_medium a * eff_medium a)
      by (apply Qmult_le_0_compat; assumption).
    assert (inject_Z (contacted_high (capacity_split high_count medium_count c1))
            * (baseline_high a * eff_high a)
            <= inject_Z (contacted_high
                           (capacity_split high_count medium_count c2))
               * (baseline_high a * eff_high a))
      by (apply Qmult_le_compat_r; assumption).
    assert (inject_Z (contacted_medium
                        (capacity_split high_count medium_count c1))
            * (baseline_medium a * eff_medium a)
            <= inject_Z (contacted_medium
                           (capacity_split high_count medium_count c2))
               * (baseline_medium a * eff_medium a))
      by (apply Qmult_le_compat_r; assumption).
    lra. }
  split; [exact M1|]. split; [exact M2|]. split; [exact M3|].
  split; [exact Hwo|]. split; [exact Hw|].
  assert (E : forall c,
             credit_loss_w (impact high_count medium_count (with_capacity a c))
             == defaults_w (impact high_count medium_count (with_capacity a c))
                * (inject_Z (avg_exposure a) * lgd_pct a)).
  { intro c. unfold impact.
    cbn [credit_loss_w ead_w defaults_w with_capacity avg_exposure lgd_pct].
    ring. }
  rewrite !E. apply Qmult_le_compat_r; [exact Hw|].
  rewrite Zle_Qle in Hexp. apply Qmult_le_0_compat; assumption.
Qed.

Lemma more_capacity_never_hurts_witness :
  (0 <= 90)%Z /\ (0 <= 70)%Z /\ plausible scenario /\ (100 <= 140)%Z
  /\ defaults_w (impact 90 70 (with_capacity scenario 140))
     <= defaults_w (impact 90 70 (with_capacity scenario 100)).
Proof.
  assert (H1 : (0 <= 90)%Z) by lia.
  assert (H2 : (0 <= 70)%Z) by lia.
  assert (H3 : plausible scenario).
  { unfold plausible. cbn. repeat split; try lia; discriminate. }
  assert (H4 : (100 <= 140)%Z) by lia.
  split; [exact H1|]. split; [exact H2|]. split; [exact H3|].
  split; [exact H4|].
  apply (more_capacity_never_hurts 90 70 100 140 scenario H1 H2 H3 H4).
Defined.

(** ** Prevention funnel *)

Lemma py_int_floor x : 0 <= x -> py_int x = Qfloor x.
Proof.
  destruct x as [n d]. unfold py_int, Qfloor, Qle. cbn [Qnum Qden].
  intro H. apply Z.quot_div_nonneg; lia.
Qed.

(** X13.  For non-negative tier counts and assumptions from the sidebar's
    ranges the funnel narrows at every stage: defaults avoided, customers
    accepting, customers contacted and customers flagged are in ascending
    order and none is negative; the customers contacted are exactly the High
    and Medium cases that the capacity split contacts, and flagged minus
    contacted is the overflow. *)
Theorem funnel_narrows (high_count medium_count : Z) (a : Assumptions)
  (Hhigh : (0 <= high_count)%Z) (Hmedium : (0 <= medium_count)%Z)
  (Ha : plausible a) :
  let f := prevention_funnel high_count medium_count a in
  let s := capacity_split high_count medium_count (outreach_capacity a) in
  (0 <= defaults_avoided f)%Z
  /\ (defaults_avoided f <= accepting_count f)%Z
  /\ (accepting_count f <= contacted_count f)%Z
  /\ (contacted_count f <= flagged_count f)%Z
  /\ contacted_count f = (contacted_high s + contacted_medium s)%Z
  /\ (flagged_count f - contacted_count f)%Z = overflow s.
Proof.
  cbv zeta.
  destruct Ha as (Hexp & Hrh & Hrm & Hcc & Heh0 & Heh1 & Hem0 & Hem1 & Hlgd
                  & Hrr0 & Hrr1 & Hup & Hch & Hcm & Hcap).
  destruct (capacity_split_facts high_count medium_count (outreach_capacity a)
              Hhigh Hmedium) as (_ & _ & Hle1 & Hle2 & Hnn & Hsum & _ & Hov).
  destruct (Hnn Hcap) as [Hn1 Hn2].
  unfold prevention_funnel.
  cbn [defaults_avoided accepting_count contacted_count flagged_count].
  set (s := capacity_split high_count medium_count (outreach_capacity a)) in *.
  set (contacted := Z.min (high_count + medium_count) (outreach_capacity a))
    in *.
  assert (Hc0 : (0 <= contacted)%Z) by (unfold contacted; lia).
  assert (Hsum' : inject_Z contacted
                  == inject_Z (contacted_high s)
                     + inject_Z (contacted_medium s)).
  { rewrite <- Hsum, inject_Z_plus. reflexivity. }
  rewrite Zle_Qle in Hn1, Hn2, Hc0. change (inject_Z 0) with 0 in *.
  assert (Hp1 : 0 <= inject_Z (contacted_high s) * eff_high a)
    by (apply Qmult_le_0_compat; assumption).
  assert (Hp2 : 0 <= inject_Z (contacted_medium s) * eff_medium a)
    by (apply Qmult_le_0_compat; assumption).
  assert (Hq1 : 0 <= inject_Z (contacted_high s) * (1 - eff_high a))
    by (apply Qmult_le_0_compat; lra).
  assert (Hq2 : 0 <= inject_Z (contacted_medium s) * (1 - eff_medium a))
    by (apply Qmult_le_0_compat; lra).
  assert (Hav0 : 0 <= inject_Z (contacted_high s) * eff_high a * 0.60
                      + inject_Z (contacted_medium s) * eff_medium a * 0.60)
    by lra.
  assert (Hav1 : inject_Z (contacted_high s) * eff_high a * 0.60
                 + inject_Z (contacted_medium s) * eff_medium a * 0.60
                 <= inject_Z contacted * 0.60) by lra.
  assert (Hacc0 : 0 <= inject_Z contacted * 0.60) by lra.
  rewrite !py_int_floor by assumption.
  split.
  { rewrite <- (Qfloor_Z 0). apply Qfloor_resp_le. exact Hav0. }
  split; [apply Qfloor_resp_le, Hav1|].
  split.
  { rewrite <- (Qfloor_Z contacted) at 2. apply Qfloor_resp_le. lra. }
  split; [unfold contacted; lia|].
  split; [symmetry; exact Hsum|].
  rewrite Hov. unfold contacted. lia.
Qed.

Lemma funnel_narrows_witness :
  (0 <= 90)%Z /\ (0 <= 70)%Z /\ plausible scenario
  /\ (defaults_avoided (prevention_funnel 90 70 scenario)
      <= accepting_count (prevention_funnel 90 70 scenario))%Z.
Proof.
  assert (H1 : (0 <= 90)%Z) by lia.
  assert (H2 : (0 <= 70)%Z) by lia.
  assert (H3 : plausible scenario).
  { unfold plausible. cbn. repeat split; try lia; discriminate. }
  split; [exact H1|]. split; [exact H2|]. split; [exact H3|].
  apply (funnel_narrows 90 70 scenario H1 H2 H3).
Defined.

(** 90 High and 70 Medium cases against a capacity of 120. *)
Example funnel_overflowing :
  prevention_funnel 90 70 scenario = mkFunnel 160 120 72 25.
Proof. reflexivity. Qed.

(** ** Trend of three consecutive weeks *)

Lemma sort_values_week_id group :
  StronglySorted (fun p q => (fst p < fst q)%Z) group ->
  sort_values_week group = group.
Proof.
  unfold sort_values_week, sorted_by.
  induction 1 as [|x l Hl IH Hx]; [reflexivity|].
  cbn [fold_right]. rewrite IH.
  destruct l as [|y ys]; [reflexivity|].
  cbn [insert_by]. unfold week_asc.
  inversion Hx as [|? ? Hxy _]; subst.
  replace (fst y <? fst x)%Z with false; [reflexivity|].
  symmetry. apply Z.ltb_ge. lia.
Qed.

Lemma tail_n_app {A} (l1 l2 : list A) :
  tail_n (List.length l2) (l1 ++ l2) = l2.
Proof.
  unfold tail_n. rewrite length_app.
  replace (List.length l1 + List.length l2 - List.length l2)%nat
    with (List.length l1) by lia.
  rewrite skipn_app, skipn_all, Nat.sub_diag. reflexivity.
Qed.

Lemma polyfit1_three_consecutive w s1 s2 s3 :
  exists slope intercept,
    polyfit1 (weeks_of [(w, s1); ((w + 1)%Z, s2); ((w + 2)%Z, s3)])
             (scores_of [(w, s1); ((w + 1)%Z, s2); ((w + 2)%Z, s3)])
    = Some (slope, intercept)
    /\ slope == (s3 - s1) / 2.
Proof.
  assert (Hden : ~ fit_den (weeks_of [(w, s1); ((w + 1)%Z, s2);
                                      ((w + 2)%Z, s3)]) == 0).
  { apply fit_den_distinct; [|cbn; lia].
    cbn [map fst].
    repeat (constructor; [cbn [In]; intuition lia|]). constructor. }
  rewrite (polyfit1_determined _ _ Hden).
  eexists; eexists. split; [reflexivity|].
  unfold fit_den, weeks_of, scores_of, Qdot, Qsum in *.
  cbn [map combine fold_left fst snd List.length Z.of_nat
       Pos.of_succ_nat Pos.succ] in *.
  rewrite !inject_Z_plus in *.
  change (inject_Z 3) with 3 in *. change (inject_Z 1) with 1 in *.
  change (inject_Z 2) with 2 in *.
  field. intro H. apply Hden. nra.
Qed.

(** X14.  When the rows of a customer are in week order and the last three
    weeks are consecutive, the exact least-squares slope is half the
    difference between the last and the third-last score; the score in
    between plays no part.  The classifier labels the slope that the fit
    routine returns for these three rows; when that slope is within [tol] of
    the exact one, the label is Rising if the score rose by more than
    0.03 + 2 tol over the two weeks, Falling if it fell by more than
    0.03 + 2 tol, and Stable if it changed by at most 0.03 - 2 tol. *)
Theorem trend_of_consecutive_weeks
  (polyfit : list Q -> list Q -> option (Q * Q))
  (group earlier : History) (w : Z) (s1 s2 s3 slope intercept tol : Q)
  (Hsorted : StronglySorted (fun p q => (fst p < fst q)%Z) group)
  (Hlast : group = earlier ++ [(w, s1); ((w + 1)%Z, s2); ((w + 2)%Z, s3)])
  (Hfit : polyfit [inject_Z w; inject_Z (w + 1); inject_Z (w + 2)]
                  [s1; s2; s3]
          = Some (slope, intercept))
  (Hnear : Qabs (slope - (s3 - s1) / 2) <= tol) :
  (exists a b,
      polyfit1 [inject_Z w; inject_Z (w + 1); inject_Z (w + 2)] [s1; s2; s3]
      = Some (a, b)
      /\ a == (s3 - s1) / 2)
  /\ (0.03 + 2 * tol < s3 - s1 ->
      _risk_trend_label_with polyfit group = Some Rising)
  /\ (s3 - s1 < - 0.03 - 2 * tol ->
      _risk_trend_label_with polyfit group = Some Falling)
  /\ (- 0.03 + 2 * tol <= s3 - s1 /\ s3 - s1 <= 0.03 - 2 * tol ->
      _risk_trend_label_with polyfit group = Some Stable).
Proof.
  assert (Hrecent : tail_n 3 (sort_values_week group)
                    = [(w, s1); ((w + 1)%Z, s2); ((w + 2)%Z, s3)]).
  { rewrite (sort_values_week_id group Hsorted), Hlast.
    apply (tail_n_app earlier [(w, s1); ((w + 1)%Z, s2); ((w + 2)%Z, s3)]). }
  split; [exact (polyfit1_three_consecutive w s1 s2 s3)|].
  assert (Hfit' : polyfit (weeks_of (tail_n 3 (sort_values_week group)))
                          (scores_of (tail_n 3 (sort_values_week group)))
                  = Some (slope, intercept)).
  { rewrite Hrecent. exact Hfit. }
  destruct (trend_label_near polyfit group slope intercept
              ((s3 - s1) / 2) tol Hfit' Hnear) as (Hr & Hf & Hs).
  assert (Hhalf : (s3 - s1) / 2 * 2 == s3 - s1) by (field; discriminate).
  split; [intro H; apply Hr; lra|].
  split; [intro H; apply Hf; lra|].
  intros [H1 H2]. apply Hs. split; lra.
Qed.

Lemma trend_of_consecutive_weeks_witness :
  polyfit1 [inject_Z 10; inject_Z (10 + 1); inject_Z (10 + 2)]
           [0.35; 0.52; 0.74]
  = Some (1170000000000 # 6000000000000,
          - 28950000000000000000 # 18000000000000000000)
  /\ Qabs ((1170000000000 # 6000000000000) - (0.74 - 0.35) / 2) <= 0
  /\ 0.03 + 2 * 0 < 0.74 - 0.35
  /\ _risk_trend_label_with polyfit1 rising_history = Some Rising.
Proof.
  assert (Hsorted : StronglySorted (fun p q => (fst p < fst q)%Z)
                                   rising_history).
  { unfold rising_history.
    repeat (constructor; [|repeat (constructor; [cbn; lia|]); constructor]).
    constructor. }
  assert (Hlast : rising_history
                  = firstn 9 rising_history
                    ++ [(10%Z, 0.35); ((10 + 1)%Z, 0.52);
                        ((10 + 2)%Z, 0.74)]) by reflexivity.
  assert (Hfit : polyfit1 [inject_Z 10; inject_Z (10 + 1); inject_Z (10 + 2)]
                          [0.35; 0.52; 0.74]
                 = Some (1170000000000 # 6000000000000,
                         - 28950000000000000000 # 18000000000000000000))
    by (vm_compute; reflexivity).
  assert (Hnear : Qabs ((1170000000000 # 6000000000000)
                        - (0.74 - 0.35) / 2) <= 0)
    by (vm_compute; discriminate).
  assert (Hrose : 0.03 + 2 * 0 < 0.74 - 0.35) by reflexivity.
  split; [exact Hfit|]. split; [exact Hnear|]. split; [exact Hrose|].
  exact (proj1 (proj2 (trend_of_consecutive_weeks polyfit1 rising_history
                         (firstn 9 rising_history) 10 0.35 0.52 0.74
                         _ _ 0 Hsorted Hlast Hfit Hnear)) Hrose).
Defined.

(** ** A history of constant scores *)

Lemma sample_var_constant (l : list Q) c :
  (2 <= List.length l)%nat ->
  (forall x, In x l -> x == c) ->
  sample_var l == 0.
Proof.
  intros Hlen Hall. unfold sample_var.
  set (n := inject_Z (Z.of_nat (List.length l))).
  assert (Hn : 2 <= n).
  { change 2 with (inject_Z 2). unfold n. rewrite <- Zle_Qle. lia. }
  assert (Hmean : Qsum l / n == c).
  { rewrite (Qsum_constant l c Hall). fold n. field. lra. }
  assert (Hzero : Qsum (map (fun x => (x - Qsum l / n) * (x - Qsum l / n)) l)
                  == 0).
  { apply Qsum_zero. intros q Hq. apply in_map_iff in Hq.
    destruct Hq as [x [<- Hx]]. rewrite Hmean, (Hall x Hx). ring. }
  rewrite Hzero. field. lra.
Qed.

(** X15.  A customer whose scores are all the same is labelled "High
    stability" and, once the history holds two weeks or more, Stable. *)
Theorem constant_history_is_calm (group : History) (c : Q)
  (Hconst : forall p, In p group -> snd p == c) :
  stability_label group = "High stability"%string
  /\ (NoDup (map fst group) -> (2 <= List.length group)%nat ->
      _risk_trend_label group = Some Stable).
Proof.
  assert (Hscores : forall n x,
             In x (scores_of (tail_n n (sort_values_week group))) ->
             x == c).
  { intros n x Hx. unfold scores_of in Hx. apply in_map_iff in Hx.
    destruct Hx as [p [<- Hp]]. apply Hconst.
    apply (Permutation_in _ (sort_values_week_perm group)).
    unfold tail_n in Hp.
    rewrite <- (firstn_skipn (List.length (sort_values_week group) - n)
                             (sort_values_week group)).
    apply in_or_app. right. exact Hp. }
  split.
  - assert (Hvar : risk_var group == 0).
    { unfold risk_var, last4_scores.
      destruct (2 <=? List.length
                        (scores_of (tail_n 4 (sort_values_week group))))%nat
        eqn:E; [|reflexivity].
      apply (sample_var_constant _ c); [apply Nat.leb_le, E | apply Hscores]. }
    unfold stability_label.
    assert (Hlt : Qltb (risk_var group) (0.05 * 0.05) = true).
    { apply Qltb_lt. rewrite Hvar. reflexivity. }
    rewrite Hlt. reflexivity.
  - intros Hnd Hlen.
    pose proof (recent_distinct 3 group Hnd) as Hnd3.
    assert (Hlen3 : (2 <= List.length (tail_n 3 (sort_values_week group)))%nat)
      by (rewrite recent_length; lia).
    pose proof (fit_den_distinct _ Hnd3 Hlen3) as Hden.
    destruct (polyfit1_defined _ Hnd3 Hlen3) as (slope & intercept & Hfit).
    assert (Hslope : slope == 0).
    { apply (polyfit1_constant
               (weeks_of (tail_n 3 (sort_values_week group)))
               (scores_of (tail_n 3 (sort_values_week group)))
               c slope intercept);
        [|apply Hscores | exact Hden | exact Hfit].
      unfold weeks_of, scores_of. rewrite !length_map. reflexivity. }
    destruct (trend_label_of_slope polyfit1 group slope intercept Hfit)
      as (_ & _ & Hstable).
    apply Hstable. split; lra.
Qed.

Lemma constant_history_is_calm_witness :
  (forall p, In p flat_history -> snd p == 0.42)
  /\ NoDup (map fst flat_history)
  /\ (2 <= List.length flat_history)%nat
  /\ _risk_trend_label flat_history = Some Stable.
Proof.
  assert (H1 : forall p, In p flat_history -> snd p == 0.42).
  { intros p Hp. cbn in Hp.
    destruct Hp as [<- | [<- | [<- | [<- | []]]]]; reflexivity. }
  assert (H2 : NoDup (map fst flat_history)).
  { cbn [flat_history map fst].
    repeat (constructor; [cbn [In]; intuition discriminate|]). constructor. }
  assert (H3 : (2 <= List.length flat_history)%nat) by (cbn; lia).
  split; [exact H1|]. split; [exact H2|]. split; [exact H3|].
  exact (proj2 (constant_history_is_calm flat_history 0.42 H1) H2 H3).
Defined.

(** ** Tier counts *)

Lemma tier_count_cons t x l :
  tier_count t (x :: l)
  = ((if tier_eqb x t then 1 else 0) + tier_count t l)%Z.
Proof.
  unfold tier_count. cbn [filter].
  destruct (tier_eqb x t); cbn [List.length]; lia.
Qed.

(** X16.  The High, Medium and Low counts of the KPI row and of the donut
    partition the monitored customers: none is negative and they add up to
    the number of customers, so the eligible cases of the impact tab (High
    plus Medium) never exceed it. *)
Theorem tier_counts_partition (risk_tiers : list tier) :
  (0 <= tier_count High risk_tiers)%Z
  /\ (0 <= tier_count Medium risk_tiers)%Z
  /\ (0 <= tier_count Low risk_tiers)%Z
  /\ (tier_count High risk_tiers + tier_count Medium risk_tiers
      + tier_count Low risk_tiers)%Z
     = Z.of_nat (List.length risk_tiers)
  /\ (tier_count High risk_tiers + tier_count Medium risk_tiers
      <= Z.of_nat (List.length risk_tiers))%Z.
Proof.
  assert (Hsum : (tier_count High risk_tiers + tier_count Medium risk_tiers
                  + tier_count Low risk_tiers)%Z
                 = Z.of_nat (List.length risk_tiers)).
  { induction risk_tiers as [|x l IH]; [reflexivity|].
    rewrite !tier_count_cons. cbn [List.length]. rewrite Nat2Z.inj_succ.
    destruct x; cbn [tier_eqb]; lia. }
  assert (Hnn : forall t, (0 <= tier_count t risk_tiers)%Z)
    by (intro t; unfold tier_count; lia).
  pose proof (Hnn High). pose proof (Hnn Medium). pose proof (Hnn Low).
  repeat split; try assumption; lia.
Qed.

(** ** What the engine never recommends *)

Lemma rule_action_injective r1 r2 :
  rule_action r1 = rule_action r2 -> r1 = r2.
Proof.
  destruct r1 as [[]|], r2 as [[]|]; intro H; try reflexivity;
    discriminate H.
Qed.

(** X17.  The action tells the tier when a tier rule fired: a soft nudge
    is recommended only to Medium rows, the relationship-manager outreach
    only to High rows, and monitoring only to Low rows on which no signal
    rule holds; so a High row, as in the case queue, always gets one of the
    four real interventions. *)
Theorem action_respects_tier (row : Row) (driver_labels : list string) :
  let action := fst (fst (intervention_engine row driver_labels)) in
  (action = "Soft nudge + budgeting tips"%string -> risk_tier row = Medium)
  /\ (action
      = "Priority relationship-manager outreach with repayment planning"%string
      -> risk_tier row = High)
  /\ (action = "Continue monitoring"%string ->
      risk_tier row = Low
      /\ ~ rule_holds EmiShift row /\ ~ rule_holds AutodebitOutreach row
      /\ ~ rule_holds Restructuring row)
  /\ (risk_tier row = High ->
      action <> "Continue monitoring"%string
      /\ action <> "Soft nudge + budgeting tips"%string).
Proof.
  cbv zeta. rewrite intervention_engine_first_match. cbn [fst].
  destruct (first_match_cases row) as (_ & _ & _ & H4 & H5 & H6).
  assert (Hnudge : rule_action (first_match row)
                   = "Soft nudge + budgeting tips"%string ->
                   risk_tier row = Medium).
  { intro H. apply (rule_action_injective _ (Some SoftNudge)) in H.
    apply H4 in H. tauto. }
  assert (Hmon : rule_action (first_match row) = "Continue monitoring"%string ->
                 risk_tier row = Low
                 /\ ~ rule_holds EmiShift row
                 /\ ~ rule_holds AutodebitOutreach row
                 /\ ~ rule_holds Restructuring row).
  { intro H. apply (rule_action_injective _ None) in H.
    apply H6 in H. tauto. }
  split; [exact Hnudge|].
  split.
  { intro H. apply (rule_action_injective _ (Some RmOutreach)) in H.
    apply H5 in H. tauto. }
  split; [exact Hmon|].
  intro Hhigh. split; intro H.
  - apply Hmon in H. destruct H as [H _]. congruence.
  - apply Hnudge in H. congruence.
Qed.

Lemma action_respects_tier_witness :
  risk_tier (score_row stressed_signal) = High
  /\ fst (fst (intervention_engine (score_row stressed_signal) []))
     <> "Continue monitoring"%string.
Proof.
  assert (H : risk_tier (score_row stressed_signal) = High) by reflexivity.
  split; [exact H|].
  destruct (action_respects_tier (score_row stressed_signal) [])
    as (_ & _ & _ & Hhigh).
  exact (proj1 (Hhigh H)).
Defined.

(** ** Bounds of the driver ranking *)

Lemma sorted_drivers_length row :
  List.length (sorted_by contrib_desc (driver_pairs row)) = 7%nat.
Proof. rewrite sorted_by_length. reflexivity. Qed.

(** X18.  The bound of [top_drivers] at its edges: 0 returns nothing, 7 or
    more returns the whole ranking of seven pairs, a negative bound above
    -7 drops that many pairs from the end of the ranking, and -7 or less
    returns nothing. *)
Theorem top_drivers_edges (row : Row) (n : Z) :
  let sorted := sorted_by contrib_desc (driver_pairs row) in
  top_drivers row 0 = []
  /\ ((7 <= n)%Z -> top_drivers row n = sorted)
  /\ ((- 7 < n < 0)%Z ->
      top_drivers row n = firstn (Z.to_nat (7 + n)) sorted
      /\ Z.of_nat (List.length (top_drivers row n)) = (7 + n)%Z)
  /\ ((n <= - 7)%Z -> top_drivers row n = []).
Proof.
  cbv zeta. pose proof (sorted_drivers_length row) as Hlen.
  unfold top_drivers. fold (driver_pairs row). unfold py_slice_to.
  rewrite Hlen. split; [reflexivity|]. split; [|split].
  - intro Hn. replace (0 <=? n)%Z with true by (symmetry; apply Z.leb_le; lia).
    apply firstn_all2. lia.
  - intro Hn. replace (0 <=? n)%Z with false by (symmetry; apply Z.leb_gt; lia).
    change (Z.of_nat 7) with 7%Z. split; [reflexivity|].
    rewrite length_firstn, Hlen. lia.
  - intro Hn. replace (0 <=? n)%Z with false by (symmetry; apply Z.leb_gt; lia).
    replace (Z.to_nat (Z.of_nat 7 + n)) with 0%nat by lia. reflexivity.
Qed.

Lemma top_drivers_edges_witness :
  (7 <= 9)%Z
  /\ List.length (top_drivers (score_row stressed_signal) 9) = 7%nat.
Proof.
  assert (H : (7 <= 9)%Z) by lia.
  split; [exact H|].
  destruct (top_drivers_edges (score_row stressed_signal) 9) as (_ & Hall & _).
  rewrite (Hall H). apply sorted_drivers_length.
Defined.

(** ** Rules and contributions *)

Lemma clipped_positive x w : 0 < w -> (0 < np_clip x 0 1 * w <-> 0 < x).
Proof.
  intro Hw. unfold np_clip. split; intro Hpos.
  - destruct (Qlt_le_dec 0 x) as [Hx | Hx]; [exact Hx|].
    exfalso. revert Hpos. Qminmax_cases; intro Hpos; nra.
  - revert Hpos. Qminmax_cases; intro Hpos; nra.
Qed.

Lemma Qdiv_positive x c : 0 < c -> (0 < x / c <-> 0 < x).
Proof.
  intro Hc. split; intro H.
  - destruct (Qlt_le_dec 0 x) as [Hx | Hx]; [exact Hx|].
    exfalso. assert (x / c <= 0) by (apply Qle_shift_div_r; lra). lra.
  - apply Qlt_shift_div_l; lra.
Qed.

(** X19.  On a scored Signal Record whose integer signals do not make the
    int64 subtractions of the scorer wrap around, the signal rules of the
    intervention engine line up with the scorer: the EMI-shift rule holds
    exactly when
    both the salary-delay and the savings-drop signal contribute to the
    score, the autodebit rule exactly when the autodebit flag contributes,
    and the restructuring rule when the lending signal contributes and also
    at exactly three lending transactions, where it contributes nothing.
    So a record with no contributing signal is told to continue monitoring,
    unless it has exactly three lending transactions, when restructuring is
    offered. *)
Theorem rules_follow_contributions (df : Signal) (Hflag : flag_ok df)
  (Hwrap : no_wraparound df) :
  let row := score_row df in
  (rule_holds EmiShift row <->
   0 < contrib row salary_delay_days /\ 0 < contrib row savings_drop_pct)
  /\ (rule_holds AutodebitOutreach row <-> 0 < contrib row failed_autodebit)
  /\ (rule_holds Restructuring row <->
      0 < contrib row lending_app_upi_txn_count
      \/ sig_lending_app_upi_txn_count df = 3%Z)
  /\ ((forall f, contrib row f <= 0) ->
      (sig_lending_app_upi_txn_count df <> 3%Z ->
       first_match row = None)
      /\ (sig_lending_app_upi_txn_count df = 3%Z ->
          first_match row = Some Restructuring)).
Proof.
  cbv zeta.
  destruct (linear_exact df Hwrap) as (Ea & _ & Ec).
  assert (Hsal : (3 < sig_salary_delay_days df)%Z
                 <-> 0 < _risk_components df salary_delay_days).
  { unfold _risk_components, WEIGHTS.
    rewrite clipped_positive by reflexivity.
    rewrite Ea, Qdiv_positive by reflexivity.
    rewrite Zlt_Qlt. change (inject_Z 3) with 3. split; intro; lra. }
  assert (Hsav : 20 < sig_savings_drop_pct df
                 <-> 0 < _risk_components df savings_drop_pct).
  { unfold _risk_components, linear, WEIGHTS.
    rewrite clipped_positive, Qdiv_positive by reflexivity.
    split; intro; lra. }
  assert (Hlend : (3 < sig_lending_app_upi_txn_count df)%Z
                  <-> 0 < _risk_components df lending_app_upi_txn_count).
  { unfold _risk_components, WEIGHTS.
    rewrite clipped_positive by reflexivity.
    rewrite Ec, Qdiv_positive by reflexivity.
    rewrite Zlt_Qlt. change (inject_Z 3) with 3. split; intro; lra. }
  assert (Hauto : sig_failed_autodebit df = 1%Z
                  <-> 0 < _risk_components df failed_autodebit).
  { unfold _risk_components, linear, WEIGHTS.
    destruct Hflag as [E | E]; rewrite E; split; intro H;
      try reflexivity; try discriminate H. }
  assert (H1 : rule_holds EmiShift (score_row df)
               <-> 0 < _risk_components df salary_delay_days
                   /\ 0 < _risk_components df savings_drop_pct).
  { cbn [rule_holds score_row raw]. rewrite Hsal, Hsav. reflexivity. }
  assert (H2 : rule_holds AutodebitOutreach (score_row df)
               <-> 0 < _risk_components df failed_autodebit).
  { cbn [rule_holds score_row raw]. exact Hauto. }
  assert (H3 : rule_holds Restructuring (score_row df)
               <-> 0 < _risk_components df lending_app_upi_txn_count
                   \/ sig_lending_app_upi_txn_count df = 3%Z).
  { cbn [rule_holds score_row raw]. rewrite <- Hlend. lia. }
  split; [exact H1|]. split; [exact H2|]. split; [exact H3|].
  intro Hzero.
  change (forall f, _risk_components df f <= 0) in Hzero.
  pose proof (Hzero salary_delay_days) as Z1.
  pose proof (Hzero failed_autodebit) as Z2.
  pose proof (Hzero lending_app_upi_txn_count) as Z3.
  assert (N1 : ~ rule_holds EmiShift (score_row df))
    by (rewrite H1; intros [H _]; lra).
  assert (N2 : ~ rule_holds AutodebitOutreach (score_row df))
    by (rewrite H2; intro H; lra).
  assert (Hlow : risk_tier (score_row df) = Low).
  { change (risk_tier (score_row df))
      with (_tier (np_clip (comp_sum df) 0 1)).
    apply tier_low_iff.
    assert (Hsum : comp_sum df <= 0).
    { rewrite comp_sum_unfold.
      pose proof (Hzero savings_drop_pct).
      pose proof (Hzero discretionary_spend_change_pct).
      pose proof (Hzero utility_payment_delay_days).
      pose proof (Hzero atm_withdrawal_spike_pct). lra. }
    rewrite (np_clip_below _ Hsum). reflexivity. }
  destruct (first_match_cases (score_row df)) as (_ & _ & F3 & _ & _ & F6).
  split; intro Hl.
  - apply F6. repeat split; try assumption.
    rewrite H3. intros [H | H]; [lra | contradiction].
  - apply F3. repeat split; try assumption.
    rewrite H3. right. exact Hl.
Qed.

Lemma rules_follow_contributions_witness :
  let df := mkSignal "C007" 12 0 0 0 0 3 0 0 in
  flag_ok df
  /\ no_wraparound df
  /\ (forall f, contrib (score_row df) f <= 0)
  /\ first_match (score_row df) = Some Restructuring.
Proof.
  intro df.
  assert (H : flag_ok df) by (left; reflexivity).
  assert (Hw : no_wraparound df) by (unfold no_wraparound; cbn; lia).
  assert (Hz : forall f, contrib (score_row df) f <= 0)
    by (intro f; destruct f; discriminate).
  split; [exact H|]. split; [exact Hw|]. split; [exact Hz|].
  destruct (rules_follow_contributions df H Hw) as (_ & _ & _ & Hnone).
  exact (proj2 (Hnone Hz) eq_refl).
Defined.

(** ** Regimes of the capacity split *)

(** X20.  The capacity split has three regimes for non-negative counts:
    with a capacity of at most the High count only High cases are contacted
    and every Medium case waits; between the High count and all flagged
    cases every High case and as many Medium cases as fit are contacted;
    with room for all flagged cases everyone is contacted, nothing overflows
    and the outreach cost is the full cost of both tiers. *)
Theorem capacity_regimes (high_count medium_count : Z) (a : Assumptions)
  (Hhigh : (0 <= high_count)%Z) (Hmedium : (0 <= medium_count)%Z)
  (Hcap : (0 <= outreach_capacity a)%Z) :
  let r := impact high_count medium_count a in
  let s := split r in
  ((outreach_capacity a <= high_count)%Z ->
   contacted_high s = outreach_capacity a /\ contacted_medium s = 0%Z
   /\ non_contacted_medium s = medium_count)
  /\ ((high_count <= outreach_capacity a <= high_count + medium_count)%Z ->
      contacted_high s = high_count
      /\ contacted_medium s = (outreach_capacity a - high_count)%Z
      /\ non_contacted_high s = 0%Z)
  /\ ((high_count + medium_count <= outreach_capacity a)%Z ->
      contacted_high s = high_count /\ contacted_medium s = medium_count
      /\ non_contacted_high s = 0%Z /\ non_contacted_medium s = 0%Z
      /\ overflow s = 0%Z
      /\ outreach_cost r
         = (high_count * cost_per_high a
            + medium_count * cost_per_medium a)%Z
      /\ defaults_w r
         == inject_Z high_count * (baseline_high a * (1 - eff_high a))
            + inject_Z medium_count
              * (baseline_medium a * (1 - eff_medium a))).
Proof.
  cbv zeta.
  change (split (impact high_count medium_count a))
    with (capacity_split high_count medium_count (outreach_capacity a)).
  split; [|split]; intro Hc.
  - cbn -[Z.min Z.max Z.add Z.sub]. repeat split; lia.
  - cbn -[Z.min Z.max Z.add Z.sub]. repeat split; lia.
  - assert (E1 : contacted_high
                   (capacity_split high_count medium_count
                      (outreach_capacity a)) = high_count)
      by (cbn -[Z.min Z.max Z.add Z.sub]; lia).
    assert (E2 : contacted_medium
                   (capacity_split high_count medium_count
                      (outreach_capacity a)) = medium_count)
      by (cbn -[Z.min Z.max Z.add Z.sub]; lia).
    assert (E3 : non_contacted_high
                   (capacity_split high_count medium_count
                      (outreach_capacity a)) = 0%Z)
      by (cbn -[Z.min Z.max Z.add Z.sub]; lia).
    assert (E4 : non_contacted_medium
                   (capacity_split high_count medium_count
                      (outreach_capacity a)) = 0%Z)
      by (cbn -[Z.min Z.max Z.add Z.sub]; lia).
    split; [exact E1|]. split; [exact E2|]. split; [exact E3|].
    split; [exact E4|].
    split; [cbn -[Z.min Z.max Z.add Z.sub]; lia|].
    unfold impact. cbn [outreach_cost defaults_w].
    rewrite E1, E2, E3, E4. split; [reflexivity|].
    change (inject_Z 0) with 0. ring.
Qed.

Lemma capacity_regimes_witness :
  (0 <= 30)%Z /\ (0 <= 50)%Z /\ (0 <= outreach_capacity scenario)%Z
  /\ (30 + 50 <= outreach_capacity scenario)%Z
  /\ overflow (split (impact 30 50 scenario)) = 0%Z.
Proof.
  assert (H1 : (0 <= 30)%Z) by lia.
  assert (H2 : (0 <= 50)%Z) by lia.
  assert (H3 : (0 <= outreach_capacity scenario)%Z) by (cbn; lia).
  assert (H4 : (30 + 50 <= outreach_capacity scenario)%Z) by (cbn; lia).
  split; [exact H1|]. split; [exact H2|]. split; [exact H3|].
  split; [exact H4|].
  destruct (capacity_regimes 30 50 scenario H1 H2 H3) as (_ & _ & Hfull).
  destruct (Hfull H4) as (_ & _ & _ & _ & Hov & _). exact Hov.
Defined.

(** ** The stress ramp *)

(** X21.  Within the weeks of the data set the stress step of a customer
    lies between 0 and 4; it is positive only for a stressed customer in
    the last four weeks, where it counts 1, 2, 3, 4 up to the final week.
    The probability of a failed autodebit therefore stays between 0.06 and
    0.42, and the cap of 0.9 never takes effect. *)
Theorem stress_ramp (stressed : bool) (wk n_weeks : Z)
  (Hwk : (1 <= wk <= n_weeks)%Z) :
  let step := stress_step stressed wk n_weeks in
  (0 <= step <= 4)%Z
  /\ ((0 < step)%Z <-> stressed = true /\ (n_weeks - 3 <= wk)%Z)
  /\ (stressed = true -> (n_weeks - 3 <= wk)%Z ->
      step = (4 - (n_weeks - wk))%Z)
  /\ 0.06 <= fail_prob stressed step
  /\ fail_prob stressed step <= 0.42
  /\ fail_threshold stressed step == fail_prob stressed step.
Proof.
  cbv zeta.
  assert (Hstep : (0 <= stress_step stressed wk n_weeks <= 4)%Z
                  /\ ((0 < stress_step stressed wk n_weeks)%Z
                      <-> stressed = true /\ (n_weeks - 3 <= wk)%Z)
                  /\ (stressed = true -> (n_weeks - 3 <= wk)%Z ->
                      stress_step stressed wk n_weeks
                      = (4 - (n_weeks - wk))%Z)).
  { unfold stress_step. destruct stressed; cbn [andb].
    - destruct (n_weeks - 3 <=? wk)%Z eqn:E;
        [apply Z.leb_le in E | apply Z.leb_gt in E];
        repeat split; intros; try lia; try reflexivity;
        try (exfalso; lia); tauto.
    - repeat split; intros; try lia; try discriminate; tauto. }
  destruct Hstep as ((Hs0 & Hs4) & Hpos & Hval).
  assert (Hprob : 0.06 <= fail_prob stressed (stress_step stressed wk n_weeks)
                  /\ fail_prob stressed (stress_step stressed wk n_weeks)
                     <= 0.42).
  { unfold fail_prob. rewrite Zle_Qle in Hs0, Hs4.
    change (inject_Z 0) with 0 in Hs0. change (inject_Z 4) with 4 in Hs4.
    destruct stressed; split; try lra; discriminate. }
  destruct Hprob as [Hp0 Hp1].
  split; [split; assumption|]. split; [exact Hpos|]. split; [exact Hval|].
  split; [exact Hp0|]. split; [exact Hp1|].
  unfold fail_threshold. Qminmax_cases; lra.
Qed.

Lemma stress_ramp_witness :
  (1 <= 12 <= 12)%Z
  /\ stress_step true 12 12 = 4%Z
  /\ fail_threshold true (stress_step true 12 12) == 0.42.
Proof.
  assert (H : (1 <= 12 <= 12)%Z) by lia.
  split; [exact H|].
  destruct (stress_ramp true 12 12 H) as (_ & _ & Hval & _ & _ & Hcap).
  split.
  - rewrite Hval by (reflexivity || lia). reflexivity.
  - rewrite Hcap. reflexivity.
Defined.
